(** * Chess Playalong: the analysis orchestration of [app.js]

    A shallow embedding of the browser application's analysis code: the
    cache key, the parsing of the engine's progress lines, the debounced
    analysis request, the ranked candidate list and the explanation
    pipeline.

    Conventions of the embedding.
    - JavaScript strings are [string]s of ASCII characters; the engine
      protocol and FEN are ASCII.
    - JavaScript numbers that the code obtains with [parseInt] from a run of
      digits are integers ([N], [Z]); a centipawn score divided by 100 and
      the value of [parseFloat] are rationals ([Q]).  The integers are exact
      below 2^53, and [toFixed(2)] of a centipawn score divided by 100 gives
      the digits of the model below 100 * 2^46: far above anything an
      engine prints, and the range in which the model speaks for the code.
    - The global variables of [app.js] are the fields of one record [App];
      the DOM elements the code writes are fields of [Dom].
    - chess.js, the explanation cache and the messages API are outside the
      repository: they are the interfaces [RulesEngine] and [Services]. *)

From Stdlib Require Import String Ascii List Bool Arith ZArith NArith QArith Lia Lqa.
From Stdlib Require Import Sorting.Sorted Sorting.Permutation.
From Stdlib Require Import DecimalString DecimalPos DecimalN DecimalZ.
Import ListNotations.

#[local] Open Scope string_scope.
#[local] Open Scope list_scope.
#[local] Close Scope Q_scope.

(* ================================================================== *)
(** ** JavaScript strings and numbers *)
(* ================================================================== *)

Module Js.

(** [s.startsWith(p)], returning what follows the prefix. *)
Fixpoint strip_prefix (p s : string) : option string :=
  match p, s with
  | EmptyString, _ => Some s
  | String a p', String b s' => if Ascii.eqb a b then strip_prefix p' s' else None
  | String _ _, EmptyString => None
  end.

Definition startsWith (s p : string) : bool :=
  match strip_prefix p s with Some _ => true | None => false end.

(** [s.split(sep)] for a one-character separator: never the empty array. *)
Fixpoint split (sep : ascii) (s : string) : list string :=
  match s with
  | EmptyString => [EmptyString]
  | String c s' =>
      if Ascii.eqb c sep then EmptyString :: split sep s'
      else match split sep s' with
           | f :: fs => String c f :: fs
           | [] => [String c EmptyString]
           end
  end.

(** [a[0]] on an array of strings that is not empty. *)
Definition first (a : list string) : string := hd EmptyString a.

(** [s.substring(a, b)] with [a <= b]: the characters at [a .. b-1],
    clipped to the string. *)
Definition substring (a b : nat) (s : string) : string :=
  String.substring a (b - a) s.

(** [s.substring(a)]: the rest of the string from index [a]. *)
Fixpoint substring_from (a : nat) (s : string) : string :=
  match a, s with
  | O, _ => s
  | S a', String _ s' => substring_from a' s'
  | S _, EmptyString => EmptyString
  end.

(** [s[i]] as a one-character string, [undefined] past the end. *)
Definition char_at (i : nat) (s : string) : option string :=
  match String.get i s with
  | Some c => Some (String c EmptyString)
  | None => None
  end.

Definition is_digit (c : ascii) : bool :=
  let n := nat_of_ascii c in (48 <=? n)%nat && (n <=? 57)%nat.

(** [\s], on ASCII. *)
Definition is_space (c : ascii) : bool :=
  let n := nat_of_ascii c in
  (n =? 32)%nat || ((9 <=? n)%nat && (n <=? 13)%nat).

(** [.]: anything but a line terminator. *)
Definition is_dot (c : ascii) : bool :=
  let n := nat_of_ascii c in negb ((n =? 10)%nat || (n =? 13)%nat).

Fixpoint take_while (p : ascii -> bool) (s : string) : string :=
  match s with
  | String c s' => if p c then String c (take_while p s') else EmptyString
  | EmptyString => EmptyString
  end.

Fixpoint drop_while (p : ascii -> bool) (s : string) : string :=
  match s with
  | String c s' => if p c then drop_while p s' else s
  | EmptyString => EmptyString
  end.

Fixpoint all_chars (p : ascii -> bool) (s : string) : bool :=
  match s with
  | String c s' => p c && all_chars p s'
  | EmptyString => true
  end.

(** [s.trim()], on ASCII white space. *)
Fixpoint trim_end (s : string) : string :=
  match s with
  | EmptyString => EmptyString
  | String c s' =>
      match trim_end s' with
      | EmptyString => if is_space c then EmptyString else String c EmptyString
      | t => String c t
      end
  end.

Definition trim (s : string) : string := trim_end (drop_while is_space s).

(** A string is truthy when it is not empty. *)
Definition truthy (s : string) : bool :=
  match s with EmptyString => false | _ => true end.

(** The value of a non-empty run of decimal digits. *)
Definition digits_value (ds : string) : option N :=
  option_map N.of_uint (NilZero.uint_of_string ds).

(** The number at the start of an unsigned string: the longest run of
    digits, which must not be empty. *)
Definition unsigned_int (s : string) : option N :=
  digits_value (take_while is_digit s).

(** [parseInt(s)] on a string that starts with its number: an optional
    sign, then the longest run of digits; [None] is NaN. *)
Definition parseInt (s : string) : option Z :=
  match s with
  | String "-" s' => option_map (fun n => Z.opp (Z.of_N n)) (unsigned_int s')
  | String "+" s' => option_map Z.of_N (unsigned_int s')
  | _ => option_map Z.of_N (unsigned_int s)
  end.

(** [String(n)] of an integer, as a template literal prints it. *)
Definition string_of_Z (z : Z) : string := NilZero.string_of_int (Z.to_int z).
Definition string_of_N (n : N) : string := NilZero.string_of_uint (N.to_uint n).

Definition digit_char (d : N) : ascii := ascii_of_N (48 + d).

(** [(n / 100).toFixed(2)] for an integer [n] with [|n| < 100 * 2^46]: the
    sign, the integer part and exactly two decimals.  In that range the
    double [n / 100] is within 2^-8 of the rational, less than half a
    hundredth, so the two decimals [toFixed] picks are those of [n].  From
    100 * 2^46 on the double can be nearer to another hundredth, and from
    10^23 on [toFixed] answers in exponent notation; the function below
    does not say what the code prints there. *)
Definition toFixed2_hundredths (n : Z) : string :=
  let a := Z.abs_N n in
  (if (n <? 0)%Z then "-" else "")
    ++ string_of_N (a / 100)
    ++ "."
    ++ String (digit_char ((a mod 100) / 10)) (String (digit_char (a mod 10)) EmptyString).

(** The value of a run of digits that may be empty (then 0). *)
Definition digits_or_zero (ds : string) : N :=
  match digits_value ds with Some n => n | None => 0%N end.

(** An unsigned decimal literal without exponent at the start of a
    string: digits and an optional fraction, not both empty. *)
Definition unsigned_decimal (body : string) : option Q :=
  let ip := take_while is_digit body in
  let fp :=
    match drop_while is_digit body with
    | String "." r => take_while is_digit r
    | _ => EmptyString
    end in
  if negb (truthy ip) && negb (truthy fp) then None
  else
    let scale := (10 ^ N.of_nat (String.length fp))%N in
    let num := (digits_or_zero ip * scale + digits_or_zero fp)%N in
    Some (Qmake (Z.of_N num) (Pos.of_nat (N.to_nat scale))).

(** [parseFloat(s)] on a string that starts with its number, for the
    decimal literals without exponent; [None] is NaN. *)
Definition parseFloat (s : string) : option Q :=
  match s with
  | String "-" s' => option_map Qopp (unsigned_decimal s')
  | String "+" s' => unsigned_decimal s'
  | _ => unsigned_decimal s
  end.

End Js.

(* ================================================================== *)
(** ** Regular expressions, as [String.prototype.match] runs them *)
(* ================================================================== *)

Module Regex.

(** The fragment the application's patterns use.  Repetition is over a
    character class, which is all the patterns repeat. *)
Inductive regex : Type :=
| Lit (l : string)
| Class (p : ascii -> bool)
| Seq (r1 r2 : regex)
| Alt (r1 r2 : regex)
| Opt (r : regex)
| Star (p : ascii -> bool)
| Plus (p : ascii -> bool)
| Group (n : nat) (r : regex).

Definition captures := list (nat * string).

Fixpoint group (n : nat) (c : captures) : option string :=
  match c with
  | [] => None
  | (m, s) :: c' => if Nat.eqb m n then Some s else group n c'
  end.

Definition orelse {A} (x y : option A) : option A :=
  match x with Some _ => x | None => y end.

(** Greedy repetition: as many characters as the class takes, one fewer on
    each failure of what follows. *)
Fixpoint star {A} (p : ascii -> bool) (s : string) (k : string -> option A) : option A :=
  match s with
  | String c s' => if p c then orelse (star p s' k) (k s) else k s
  | EmptyString => k s
  end.

(** What a subpattern consumed, given the input before and after it. *)
Definition consumed (s rest : string) : string :=
  String.substring 0 (String.length s - String.length rest) s.

(** Backtracking matcher in continuation-passing style: the continuation
    is the rest of the pattern. *)
Fixpoint exec (r : regex) (s : string) (c : captures)
         (k : string -> captures -> option captures) : option captures :=
  match r with
  | Lit l => match Js.strip_prefix l s with Some rest => k rest c | None => None end
  | Class p =>
      match s with
      | String a s' => if p a then k s' c else None
      | EmptyString => None
      end
  | Seq r1 r2 => exec r1 s c (fun s1 c1 => exec r2 s1 c1 k)
  | Alt r1 r2 => orelse (exec r1 s c k) (exec r2 s c k)
  | Opt r1 => orelse (exec r1 s c k) (k s c)
  | Star p => star p s (fun rest => k rest c)
  | Plus p =>
      match s with
      | String a s' => if p a then star p s' (fun rest => k rest c) else None
      | EmptyString => None
      end
  | Group n r1 => exec r1 s c (fun rest c1 => k rest ((n, consumed s rest) :: c1))
  end.

(** A pattern that starts with [^]: matched at index 0 only. *)
Definition match_anchored (r : regex) (s : string) : option captures :=
  exec r s [] (fun _ c => Some c).

(** [s.match(r)] without the [g] flag: the leftmost match. *)
Fixpoint match_first (r : regex) (s : string) : option captures :=
  match match_anchored r s with
  | Some c => Some c
  | None =>
      match s with
      | String _ s' => match_first r s'
      | EmptyString => None
      end
  end.

Declare Scope regex_scope.
Delimit Scope regex_scope with re.
Infix ">>" := Seq (at level 61, right associativity) : regex_scope.

Definition one_of (cs : string) (c : ascii) : bool :=
  existsb (Ascii.eqb c) (list_ascii_of_string cs).

End Regex.

(* ================================================================== *)
(** ** The explanation cache key *)
(* ================================================================== *)

(** [getCacheKey(fen, move)]. *)
Definition getCacheKey (fen move : string) : string :=
  let boardPart := Js.first (Js.split " " fen) in
  boardPart ++ "_" ++ move.

(* ================================================================== *)
(** ** The collaborators outside the repository *)
(* ================================================================== *)

(** [game.turn()]: ['w'] or ['b']. *)
Inductive Color := White | Black.

(** chess.js, as far as [app.js] calls it.  A call that JavaScript makes on
    a mutable game returns the game after the call.  [chess_move] is
    [move({from, to, promotion})]: [None] is [null], the move is not legal
    and the game is as before; otherwise the SAN of the move and the game
    after it.  [chess_load] is [load(fen)]: [None] when the FEN is refused. *)
Class RulesEngine : Type := {
  Chess : Type;
  Chess_new : string -> Chess;
  chess_fen : Chess -> string;
  chess_turn : Chess -> Color;
  chess_move : Chess -> string -> string -> option string -> option (string * Chess);
  chess_reset : Chess -> Chess;
  chess_undo : Chess -> Chess;
  chess_load : Chess -> string -> option Chess
}.

(** The answer of the cache table to a select by [cache_key]. *)
Inductive CacheReply :=
| Row (explanation : string)
| NoRow
| CacheError.

(** The outcome of the request to the messages API: the text of the reply,
    or any failure (network, a status that is not ok, a body without text),
    all of which end in the [catch] block. *)
Inductive ApiReply :=
| ApiText (text : string)
| ApiFailure.

Record EngineConfig := { cfg_depth : option N; cfg_multiPV : option N }.
Record Config := { cfg_engine : option EngineConfig; cfg_claudeModel : option string }.

(** [config.js] and the two remote services.  [messages_api model prompt]
    is the outcome of the POST with that model and prompt. *)
Class Services : Type := {
  CONFIG : option Config;
  cache_select : string -> CacheReply;
  messages_api : string -> string -> ApiReply
}.

(* ================================================================== *)
(** ** Application state *)
(* ================================================================== *)

(** One entry of [analysisLines]: [{move, uci, eval, depth, pv}]. *)
Record Line := {
  l_move : string;
  l_uci : string;
  l_eval : string;
  l_depth : Z;
  l_pv : list string
}.

(** A JavaScript object whose keys are non-negative integers below
    2^32 - 1: [Object.values] lists such keys (array indices) in ascending
    order, so the object is the list of its properties in that order.  The
    keys of [analysisLines] are ranks read from a run of digits (see
    [parseFields_ranges]); a rank of 2^32 - 1 or more, which no engine
    prints, would be listed in the order of insertion instead, after the
    others. *)
Definition IntObj (A : Type) := list (Z * A).

Fixpoint obj_set {A} (k : Z) (v : A) (o : IntObj A) : IntObj A :=
  match o with
  | [] => [(k, v)]
  | (k', v') :: o' =>
      if (k <? k')%Z then (k, v) :: o
      else if (k =? k')%Z then (k, v) :: o'
      else (k', v') :: obj_set k v o'
  end.

Fixpoint obj_get {A} (k : Z) (o : IntObj A) : option A :=
  match o with
  | [] => None
  | (k', v') :: o' => if (k =? k')%Z then Some v' else obj_get k o'
  end.

Definition obj_values {A} (o : IntObj A) : list A := map snd o.

(** A JavaScript object with string keys, latest assignment first. *)
Definition StrObj := list (string * string).

Fixpoint sobj_get (k : string) (o : StrObj) : option string :=
  match o with
  | [] => None
  | (k', v) :: o' => if String.eqb k k' then Some v else sobj_get k o'
  end.

Definition sobj_set (k v : string) (o : StrObj) : StrObj := (k, v) :: o.

(** [{...a, ...b}]: the properties of [b] win. *)
Definition sobj_spread (a b : StrObj) : StrObj := b ++ a.

(** [o[k] || dflt] and [!o[k]] for string values. *)
Definition sobj_truthy (k : string) (o : StrObj) : option string :=
  match sobj_get k o with
  | Some v => if Js.truthy v then Some v else None
  | None => None
  end.

(** The text of [#engineDepth]. *)
Inductive DepthLabel :=
| LblAnalyzing
| LblDepth (d : Z)
| LblUnavailable.

(** One [.move-item] of [#moveList]; item [i] holds [#explanation-i]. *)
Record MoveItem := {
  item_uci : string;
  item_notation : string;
  item_eval : string;
  item_explanation : string;
  item_loading : bool
}.

(** [#moveList]: a placeholder text or the rendered candidates. *)
Inductive MoveList :=
| EmptyState (msg : string)
| Items (items : list MoveItem).

(** The elements of the page that the analysis code writes.  The eval bar
    width and the colours, the move counter and the move history are
    written but never read back and are left out.  An assignment to the
    [innerHTML] of [#moveList] replaces its elements by new ones: [listId]
    counts these assignments, so that an element is known by the [listId]
    of its list and its index, and an element of an earlier list is no
    longer on the page. *)
Record Dom := {
  engineDepth : DepthLabel;
  moveList : MoveList;
  listId : nat;
  evalScore : string;
  explainBtn_disabled : bool;
  explainBtn_text : string;
  apiKeyModal_active : bool;
  autoExplainCheckbox : bool;
  turnText : string;
  fenDisplay : string
}.

(** The board widget: the piece placement it shows and the squares that
    carry the preview highlight. *)
Record Board := {
  shown : string;
  highlights : list string
}.

(** What leaves the page. *)
Inductive Effect :=
| PostMessage (msg : string)
| OpeningFetch (fen : string)
| ClaudeRequest (model prompt : string)
| CacheUpsert (cache_key fen move explanation : string)
| Alert (msg : string).

(** The browser side: the clock in milliseconds, the pending timers of
    [setTimeout] (identifier and due time, oldest first), the next timer
    identifier and the effects so far, oldest first.  [analyzePosition] sets
    the only timers the model follows. *)
Record Runtime := {
  clock : N;
  timers : list (nat * N);
  nextTimer : nat;
  effects : list Effect
}.

Section Application.

Context {rules : RulesEngine} {services : Services}.

(** The global variables of [app.js]. [stockfish] and [supabaseClient]
    record whether the worker and the client exist. *)
Record App := {
  board : Board;
  game : Chess;
  stockfish : bool;
  currentAnalysis : list Line;
  apiKey : string;
  analysisTimeout : option nat;
  supabaseClient : bool;
  analysisLines : IntObj Line;
  currentDepth : Z;
  previewPosition : option string;
  dom : Dom;
  rt : Runtime
}.

Definition set_board (v : Board) (a : App) : App :=
  {| board := v; game := game a; stockfish := stockfish a;
     currentAnalysis := currentAnalysis a; apiKey := apiKey a;
     analysisTimeout := analysisTimeout a; supabaseClient := supabaseClient a;
     analysisLines := analysisLines a; currentDepth := currentDepth a;
     previewPosition := previewPosition a; dom := dom a; rt := rt a |}.

Definition set_game (v : Chess) (a : App) : App :=
  {| board := board a; game := v; stockfish := stockfish a;
     currentAnalysis := currentAnalysis a; apiKey := apiKey a;
     analysisTimeout := analysisTimeout a; supabaseClient := supabaseClient a;
     analysisLines := analysisLines a; currentDepth := currentDepth a;
     previewPosition := previewPosition a; dom := dom a; rt := rt a |}.

Definition set_stockfish (v : bool) (a : App) : App :=
  {| board := board a; game := game a; stockfish := v;
     currentAnalysis := currentAnalysis a; apiKey := apiKey a;
     analysisTimeout := analysisTimeout a; supabaseClient := supabaseClient a;
     analysisLines := analysisLines a; currentDepth := currentDepth a;
     previewPosition := previewPosition a; dom := dom a; rt := rt a |}.

Definition set_currentAnalysis (v : list Line) (a : App) : App :=
  {| board := board a; game := game a; stockfish := stockfish a;
     currentAnalysis := v; apiKey := apiKey a;
     analysisTimeout := analysisTimeout a; supabaseClient := supabaseClient a;
     analysisLines := analysisLines a; currentDepth := currentDepth a;
     previewPosition := previewPosition a; dom := dom a; rt := rt a |}.

Definition set_analysisTimeout (v : option nat) (a : App) : App :=
  {| board := board a; game := game a; stockfish := stockfish a;
     currentAnalysis := currentAnalysis a; apiKey := apiKey a;
     analysisTimeout := v; supabaseClient := supabaseClient a;
     analysisLines := analysisLines a; currentDepth := currentDepth a;
     previewPosition := previewPosition a; dom := dom a; rt := rt a |}.

Definition set_analysisLines (v : IntObj Line) (a : App) : App :=
  {| board := board a; game := game a; stockfish := stockfish a;
     currentAnalysis := currentAnalysis a; apiKey := apiKey a;
     analysisTimeout := analysisTimeout a; supabaseClient := supabaseClient a;
     analysisLines := v; currentDepth := currentDepth a;
     previewPosition := previewPosition a; dom := dom a; rt := rt a |}.

Definition set_currentDepth (v : Z) (a : App) : App :=
  {| board := board a; game := game a; stockfish := stockfish a;
     currentAnalysis := currentAnalysis a; apiKey := apiKey a;
     analysisTimeout := analysisTimeout a; supabaseClient := supabaseClient a;
     analysisLines := analysisLines a; currentDepth := v;
     previewPosition := previewPosition a; dom := dom a; rt := rt a |}.

Definition set_previewPosition (v : option string) (a : App) : App :=
  {| board := board a; game := game a; stockfish := stockfish a;
     currentAnalysis := currentAnalysis a; apiKey := apiKey a;
     analysisTimeout := analysisTimeout a; supabaseClient := supabaseClient a;
     analysisLines := analysisLines a; currentDepth := currentDepth a;
     previewPosition := v; dom := dom a; rt := rt a |}.

Definition set_dom (v : Dom) (a : App) : App :=
  {| board := board a; game := game a; stockfish := stockfish a;
     currentAnalysis := currentAnalysis a; apiKey := apiKey a;
     analysisTimeout := analysisTimeout a; supabaseClient := supabaseClient a;
     analysisLines := analysisLines a; currentDepth := currentDepth a;
     previewPosition := previewPosition a; dom := v; rt := rt a |}.

Definition set_rt (v : Runtime) (a : App) : App :=
  {| board := board a; game := game a; stockfish := stockfish a;
     currentAnalysis := currentAnalysis a; apiKey := apiKey a;
     analysisTimeout := analysisTimeout a; supabaseClient := supabaseClient a;
     analysisLines := analysisLines a; currentDepth := currentDepth a;
     previewPosition := previewPosition a; dom := dom a; rt := v |}.

(** *** Writes to the page *)

Definition dom_engineDepth (v : DepthLabel) (d : Dom) : Dom :=
  {| engineDepth := v; moveList := moveList d; listId := listId d; evalScore := evalScore d;
     explainBtn_disabled := explainBtn_disabled d; explainBtn_text := explainBtn_text d;
     apiKeyModal_active := apiKeyModal_active d; autoExplainCheckbox := autoExplainCheckbox d;
     turnText := turnText d; fenDisplay := fenDisplay d |}.

(** [document.getElementById('moveList').innerHTML = ...]: new elements. *)
Definition dom_moveList (v : MoveList) (d : Dom) : Dom :=
  {| engineDepth := engineDepth d; moveList := v; listId := S (listId d);
     evalScore := evalScore d;
     explainBtn_disabled := explainBtn_disabled d; explainBtn_text := explainBtn_text d;
     apiKeyModal_active := apiKeyModal_active d; autoExplainCheckbox := autoExplainCheckbox d;
     turnText := turnText d; fenDisplay := fenDisplay d |}.

(** A write to the text or the class of elements of [#moveList]: the
    elements stay the ones they are. *)
Definition dom_moveItems (v : MoveList) (d : Dom) : Dom :=
  {| engineDepth := engineDepth d; moveList := v; listId := listId d;
     evalScore := evalScore d;
     explainBtn_disabled := explainBtn_disabled d; explainBtn_text := explainBtn_text d;
     apiKeyModal_active := apiKeyModal_active d; autoExplainCheckbox := autoExplainCheckbox d;
     turnText := turnText d; fenDisplay := fenDisplay d |}.

Definition dom_evalScore (v : string) (d : Dom) : Dom :=
  {| engineDepth := engineDepth d; moveList := moveList d; listId := listId d; evalScore := v;
     explainBtn_disabled := explainBtn_disabled d; explainBtn_text := explainBtn_text d;
     apiKeyModal_active := apiKeyModal_active d; autoExplainCheckbox := autoExplainCheckbox d;
     turnText := turnText d; fenDisplay := fenDisplay d |}.

Definition dom_explainBtn (disabled : bool) (text : string) (d : Dom) : Dom :=
  {| engineDepth := engineDepth d; moveList := moveList d; listId := listId d; evalScore := evalScore d;
     explainBtn_disabled := disabled; explainBtn_text := text;
     apiKeyModal_active := apiKeyModal_active d; autoExplainCheckbox := autoExplainCheckbox d;
     turnText := turnText d; fenDisplay := fenDisplay d |}.

Definition dom_apiKeyModal (v : bool) (d : Dom) : Dom :=
  {| engineDepth := engineDepth d; moveList := moveList d; listId := listId d; evalScore := evalScore d;
     explainBtn_disabled := explainBtn_disabled d; explainBtn_text := explainBtn_text d;
     apiKeyModal_active := v; autoExplainCheckbox := autoExplainCheckbox d;
     turnText := turnText d; fenDisplay := fenDisplay d |}.

(** The user ticks or unticks [#autoExplainCheckbox]. *)
Definition dom_autoExplain (v : bool) (d : Dom) : Dom :=
  {| engineDepth := engineDepth d; moveList := moveList d; listId := listId d;
     evalScore := evalScore d;
     explainBtn_disabled := explainBtn_disabled d; explainBtn_text := explainBtn_text d;
     apiKeyModal_active := apiKeyModal_active d; autoExplainCheckbox := v;
     turnText := turnText d; fenDisplay := fenDisplay d |}.

Definition dom_turn (text fen : string) (d : Dom) : Dom :=
  {| engineDepth := engineDepth d; moveList := moveList d; listId := listId d; evalScore := evalScore d;
     explainBtn_disabled := explainBtn_disabled d; explainBtn_text := explainBtn_text d;
     apiKeyModal_active := apiKeyModal_active d; autoExplainCheckbox := autoExplainCheckbox d;
     turnText := text; fenDisplay := fen |}.

Definition page (f : Dom -> Dom) (a : App) : App := set_dom (f (dom a)) a.

(** *** Effects and timers *)

Definition emit (e : Effect) (a : App) : App :=
  let r := rt a in
  set_rt {| clock := clock r; timers := timers r; nextTimer := nextTimer r;
            effects := effects r ++ [e] |} a.

(** [stockfish.postMessage(msg)]. *)
Definition postMessage (msg : string) (a : App) : App := emit (PostMessage msg) a.

(** [setTimeout(callback, delay)]: the new timer's identifier. *)
Definition setTimeout (delay : N) (a : App) : nat * App :=
  let r := rt a in
  (nextTimer r,
   set_rt {| clock := clock r; timers := timers r ++ [(nextTimer r, (clock r + delay)%N)];
             nextTimer := S (nextTimer r); effects := effects r |} a).

(** [clearTimeout(id)]: nothing happens for a timer that has fired. *)
Definition clearTimeout (id : nat) (a : App) : App :=
  let r := rt a in
  set_rt {| clock := clock r;
            timers := filter (fun t => negb (Nat.eqb (fst t) id)) (timers r);
            nextTimer := nextTimer r; effects := effects r |} a.

(** The commands sent to the engine so far. *)
Definition posted (a : App) : list string :=
  flat_map (fun e => match e with PostMessage m => [m] | _ => [] end) (effects (rt a)).

(** The prompts sent to the messages API so far. *)
Definition requested (a : App) : list string :=
  flat_map (fun e => match e with ClaudeRequest _ p => [p] | _ => [] end) (effects (rt a)).

(** *** The explanation cache *)

(** [getExplanationFromCache(fen, move)]: [None] is [null]. *)
Definition getExplanationFromCache (a : App) (fen move : string) : option string :=
  if negb (supabaseClient a) then None
  else
    let cacheKey := getCacheKey fen move in
    match cache_select cacheKey with
    | Row explanation => Some explanation
    | NoRow => None
    | CacheError => None
    end.

(** [saveExplanationToCache(fen, move, explanation)]: the upsert is sent
    and not awaited; its failure is swallowed. *)
Definition saveExplanationToCache (fen move explanation : string) (a : App) : App :=
  if negb (supabaseClient a) then a
  else
    let cacheKey := getCacheKey fen move in
    emit (CacheUpsert cacheKey fen move explanation) a.

(** *** Display updates *)

Definition updateFenDisplay (a : App) : App :=
  page (fun d => dom_turn (turnText d) (chess_fen (game a)) d) a.

(** [updateDisplay()]: the turn indicator and the FEN field. *)
Definition updateDisplay (a : App) : App :=
  let isWhite := match chess_turn (game a) with White => true | Black => false end in
  let a := page (fun d => dom_turn (if isWhite then "White to move" else "Black to move")
                                   (fenDisplay d) d) a in
  updateFenDisplay a.

(** [board.position(fen)]: the widget keeps the piece placement, the FEN
    up to its first space. *)
Definition board_position (fen : string) (a : App) : App :=
  set_board {| shown := Js.first (Js.split " " fen); highlights := highlights (board a) |} a.

(** [board.start()]. *)
Definition board_start (a : App) : App :=
  set_board {| shown := "rnbqkbnr/pppppppp/8/8/8/8/PPPPPPPP/RNBQKBNR";
               highlights := highlights (board a) |} a.

(** *** Requesting an analysis *)

(** [fetchOpeningData()]: the request to the opening explorer; what it
    displays is outside the analysis code. *)
Definition fetchOpeningData (a : App) : App :=
  emit (OpeningFetch (chess_fen (game a))) a.

(** [(typeof CONFIG !== 'undefined' && CONFIG.engine?.depth) || 18]. *)
Definition configuredDepth : N :=
  match CONFIG with
  | Some c =>
      match cfg_engine c with
      | Some e =>
          match cfg_depth e with
          | Some d => if (d =? 0)%N then 18%N else d
          | None => 18%N
          end
      | None => 18%N
      end
  | None => 18%N
  end.

(** The callback that [analyzePosition] hands to [setTimeout]. *)
Definition analysisCallback (a : App) : App :=
  let a :=
    if stockfish a then
      let a := postMessage "stop" a in
      let a := postMessage ("position fen " ++ chess_fen (game a)) a in
      let depth := configuredDepth in
      postMessage ("go depth " ++ Js.string_of_N depth) a
    else a in
  fetchOpeningData a.

(** [analyzePosition()]. *)
Definition analyzePosition (a : App) : App :=
  let a := set_analysisLines [] a in
  let a := set_currentDepth 0 a in
  let a := page (dom_engineDepth LblAnalyzing) a in
  let a := page (dom_moveList (EmptyState "Analyzing position...")) a in
  let a := match analysisTimeout a with
           | Some t => clearTimeout t a
           | None => a
           end in
  let '(t, a) := setTimeout 100 a in
  set_analysisTimeout (Some t) a.

(** *** Parsing a progress line *)

Import Regex.

(** [/depth (\d+)/] *)
Definition depthRe : regex := (Lit "depth " >> Group 1 (Plus Js.is_digit))%re.
(** [/multipv (\d+)/] *)
Definition multipvRe : regex := (Lit "multipv " >> Group 1 (Plus Js.is_digit))%re.
(** [/score (cp|mate) (-?\d+)/] *)
Definition scoreRe : regex :=
  (Lit "score " >> Group 1 (Alt (Lit "cp") (Lit "mate")) >> Lit " "
     >> Group 2 (Opt (Lit "-") >> Plus Js.is_digit))%re.
(** [/ pv (.+)/] *)
Definition pvRe : regex := (Lit " pv " >> Group 1 (Plus Js.is_dot))%re.

(** The constants that [parseAnalysisLine] computes from its four matches. *)
Record Fields := {
  f_depth : Z;
  f_multipv : Z;
  f_scoreType : string;
  f_scoreValue : Z;
  f_pv : list string
}.

(** The four matches and the [parseInt]s.  [None] is the early [return]: one
    of the patterns does not match.  A group of a successful match is
    defined and [parseInt] of its digits is a number
    (see [parseFields_of_matches]), so the inner [None]s do not arise. *)
Definition parseFields (line : string) : option Fields :=
  match match_first depthRe line, match_first multipvRe line,
        match_first scoreRe line, match_first pvRe line with
  | Some depthMatch, Some multipvMatch, Some scoreMatch, Some pvMatch =>
      match group 1 depthMatch, group 1 multipvMatch,
            group 1 scoreMatch, group 2 scoreMatch, group 1 pvMatch with
      | Some d, Some m, Some ty, Some v, Some p =>
          match Js.parseInt d, Js.parseInt m, Js.parseInt v with
          | Some depth, Some multipv, Some scoreValue =>
              Some {| f_depth := depth; f_multipv := multipv; f_scoreType := ty;
                      f_scoreValue := scoreValue; f_pv := Js.split " " p |}
          | _, _, _ => None
          end
      | _, _, _, _, _ => None
      end
  | _, _, _, _ => None
  end.

(** The [from], [to] and [promotion] of a UCI move string. *)
Definition uci_from (uci : string) : string := Js.substring 0 2 uci.
Definition uci_to (uci : string) : string := Js.substring 2 4 uci.
Definition uci_promotion (uci : string) : option string :=
  if (4 <? String.length uci)%nat then Js.char_at 4 uci else None.

(** The evaluation text of a score, for the player to move. *)
Definition evalScore_of (scoreType : string) (scoreValue : Z) (turn : Color) : string :=
  if String.eqb scoreType "mate" then
    if (0 <? scoreValue)%Z then "M" ++ Js.string_of_Z scoreValue
    else "M" ++ Js.string_of_Z scoreValue
  else
    let cpScore := match turn with White => scoreValue | Black => (- scoreValue)%Z end in
    let evalScore := Js.toFixed2_hundredths cpScore in
    if (0 <? cpScore)%Z then "+" ++ evalScore else evalScore.

(** [parseEval(evalStr)]; [None] is NaN. *)
Definition parseEval (evalStr : string) : option Q :=
  if Js.startsWith evalStr "M" then
    match Js.parseInt (Js.substring_from 1 evalStr) with
    | Some mateIn =>
        Some (inject_Z (if (0 <? mateIn)%Z then 10000 - mateIn else -10000 - mateIn))
    | None => None
    end
  else Js.parseFloat evalStr.

(** The comparator of the sort in [updateAnalysisDisplay],
    [parseEval(b.eval) - parseEval(a.eval)]; [sort] reads NaN as 0. *)
Definition compareMoves (x y : Line) : Q :=
  match parseEval (l_eval x), parseEval (l_eval y) with
  | Some evalA, Some evalB => (evalB - evalA)%Q
  | _, _ => 0%Q
  end.

(** [Array.prototype.sort(cmp)].  The sort is stable, and with a consistent
    comparator every stable sort returns the same array: it is computed
    here by insertion, an element going before the first one it does not
    have to follow. *)
Fixpoint sort_insert {A} (cmp : A -> A -> Q) (x : A) (l : list A) : list A :=
  match l with
  | [] => [x]
  | y :: l' => if Qle_bool (cmp x y) 0 then x :: l else y :: sort_insert cmp x l'
  end.

Definition sort {A} (cmp : A -> A -> Q) (l : list A) : list A :=
  fold_right (sort_insert cmp) [] l.

(** [updateEvalDisplay(evalStr)]: the score text next to the bar. *)
Definition updateEvalDisplay (evalStr : string) (a : App) : App :=
  page (dom_evalScore evalStr) a.

Definition dquote : string := String (ascii_of_nat 34) EmptyString.

(** One rendered candidate. *)
Definition render_item (a : App) (m : Line) : MoveItem :=
  {| item_uci := l_uci m; item_notation := l_move m; item_eval := l_eval m;
     item_explanation :=
       if negb (Js.truthy (apiKey a)) then "Add API key for explanations"
       else "Click " ++ dquote ++ "Explain Moves" ++ dquote ++ " for analysis";
     item_loading := false |}.

(** [updateAnalysisDisplay()]. *)
Definition updateAnalysisDisplay (a : App) : App :=
  let a := page (dom_engineDepth (LblDepth (currentDepth a))) a in
  let moves := sort compareMoves (obj_values (analysisLines a)) in
  match moves with
  | [] => page (dom_moveList (EmptyState "No legal moves")) a
  | best :: _ =>
      let a := set_currentAnalysis moves a in
      let a := updateEvalDisplay (l_eval best) a in
      page (dom_moveList (Items (map (render_item a) moves))) a
  end.

(** [parseAnalysisLine(line)]. *)
Definition parseAnalysisLine (line : string) (a : App) : App :=
  match parseFields line with
  | None => a
  | Some f =>
      let depth := f_depth f in
      let multipv := f_multipv f in
      let pv := f_pv f in
      if (currentDepth a <=? depth)%Z then
        let a := set_currentDepth depth a in
        let tempGame := Chess_new (chess_fen (game a)) in
        let uciMove := Js.first pv in
        match chess_move tempGame (uci_from uciMove) (uci_to uciMove)
                         (uci_promotion uciMove) with
        | None => a
        | Some (san, _) =>
            let evalScore :=
              evalScore_of (f_scoreType f) (f_scoreValue f) (chess_turn (game a)) in
            let a := set_analysisLines
                       (obj_set multipv
                          {| l_move := san; l_uci := uciMove; l_eval := evalScore;
                             l_depth := depth; l_pv := pv |}
                          (analysisLines a)) a in
            if (10 <=? depth)%Z && (depth mod 2 =? 0)%Z then updateAnalysisDisplay a
            else a
        end
      else a
  end.

(** *** Explanations *)

Definition nl : string := String (ascii_of_nat 10) EmptyString.

Definition in_range (lo hi : ascii) (c : ascii) : bool :=
  (nat_of_ascii lo <=? nat_of_ascii c)%nat && (nat_of_ascii c <=? nat_of_ascii hi)%nat.

(** [[KQRBN]?[a-h]?[1-8]?x?[a-h][1-8](?:=[QRBN])?[+#]?] *)
Definition sanRe : regex :=
  (Opt (Class (one_of "KQRBN")) >> Opt (Class (in_range "a" "h"))
     >> Opt (Class (in_range "1" "8")) >> Opt (Lit "x")
     >> Class (in_range "a" "h") >> Class (in_range "1" "8")
     >> Opt (Lit "=" >> Class (one_of "QRBN")) >> Opt (Class (one_of "+#")))%re.

(** The pattern of one line of the reply, anchored at its start: up to two
    asterisks, an optional move number (digits, a dot, white space; group
    1), the move (group 2), up to two asterisks, one or more colons or
    white space, and the rest of the line (group 3). *)
Definition explanationRe : regex :=
  (Opt (Lit "*") >> Opt (Lit "*")
     >> Opt (Group 1 (Plus Js.is_digit >> Lit "." >> Star Js.is_space))
     >> Group 2 sanRe
     >> Opt (Lit "*") >> Opt (Lit "*")
     >> Plus (fun c => Ascii.eqb c ":" || Js.is_space c)
     >> Group 3 (Plus Js.is_dot))%re.

(** [parseExplanations(text)]. *)
Definition parseExplanations (text : string) : StrObj :=
  fold_left
    (fun explanations line =>
       match match_anchored explanationRe line with
       | Some m =>
           match group 2 m, group 3 m with
           | Some move, Some explanation => sobj_set move (Js.trim explanation) explanations
           | _, _ => explanations
           end
       | None => explanations
       end)
    (Js.split (ascii_of_nat 10) text) [].

Fixpoint list_update {A} (i : nat) (x : A) (l : list A) : list A :=
  match l, i with
  | [], _ => []
  | _ :: l', O => x :: l'
  | y :: l', S i' => y :: list_update i' x l'
  end.

(** [document.getElementById(`explanation-${i}`)]. *)
Definition explanation_el (i : nat) (a : App) : option MoveItem :=
  match moveList (dom a) with
  | Items l => nth_error l i
  | EmptyState _ => None
  end.

(** A write to [#explanation-i] under [if (el)]. *)
Definition with_el (i : nat) (f : MoveItem -> MoveItem) (a : App) : App :=
  match moveList (dom a) with
  | Items l =>
      match nth_error l i with
      | Some el => page (dom_moveItems (Items (list_update i (f el) l))) a
      | None => a
      end
  | EmptyState _ => a
  end.

Definition el_text (text : string) (el : MoveItem) : MoveItem :=
  {| item_uci := item_uci el; item_notation := item_notation el; item_eval := item_eval el;
     item_explanation := text; item_loading := item_loading el |}.

Definition el_loading (b : bool) (el : MoveItem) : MoveItem :=
  {| item_uci := item_uci el; item_notation := item_notation el; item_eval := item_eval el;
     item_explanation := item_explanation el; item_loading := b |}.

(** [array.forEach((m, i) => ...)] on the state. *)
Fixpoint forEach_from {A} (i : nat) (f : A -> nat -> App -> App) (l : list A) (a : App) : App :=
  match l with
  | [] => a
  | m :: l' => forEach_from (S i) f l' (f m i a)
  end.

Definition forEach {A} (f : A -> nat -> App -> App) (l : list A) (a : App) : App :=
  forEach_from 0 f l a.

(** The cache loop of [fetchExplanations].  The entries of
    [movesToExplain] are distinct objects, so [indexOf(m)] is the position
    of [m]. *)
Fixpoint checkCache (fen : string) (i : nat) (ms : list Line)
         (acc : App * StrObj * list Line) : App * StrObj * list Line :=
  match ms with
  | [] => acc
  | m :: ms' =>
      let '(a, cachedExplanations, uncachedMoves) := acc in
      let a := with_el i (fun el => el_text "Checking cache..." (el_loading true el)) a in
      let cached := getExplanationFromCache a fen (l_move m) in
      match cached with
      | Some (String c t) =>
          checkCache fen (S i) ms'
            (with_el i (fun el => el_text (String c t) (el_loading false el)) a,
             sobj_set (l_move m) (String c t) cachedExplanations,
             uncachedMoves)
      | _ =>
          checkCache fen (S i) ms'
            (with_el i (el_text "Generating explanation...") a,
             cachedExplanations,
             uncachedMoves ++ [m])
      end
  end.

(** The prompt sent for the moves that have no cached explanation. *)
Definition explanationPrompt (fen turn : string) (uncachedMoves : list Line) : string :=
  let movesStr :=
    String.concat ", "
      (map (fun m => (l_move m ++ " (eval: " ++ l_eval m ++ ")")%string) uncachedMoves) in
  ("You are a chess coach. Analyze this position and explain each candidate move concisely." ++ nl
  ++ nl
  ++ "Position (FEN): " ++ fen ++ nl
  ++ turn ++ " to move." ++ nl
  ++ nl
  ++ "Top engine moves: " ++ movesStr ++ nl
  ++ nl
  ++ "For each move, give a 1-2 sentence explanation of the strategic or tactical idea. Focus on:" ++ nl
  ++ "- What the move accomplishes" ++ nl
  ++ "- Any threats created or prevented" ++ nl
  ++ "- Positional considerations" ++ nl
  ++ nl
  ++ "Format your response as:" ++ nl
  ++ "MOVE: explanation" ++ nl
  ++ "MOVE: explanation" ++ nl
  ++ "..." ++ nl
  ++ nl
  ++ "Be concise and insightful, like a strong club player explaining to an improving student.")%string.

(** [(typeof CONFIG !== 'undefined' && CONFIG.claudeModel) || '...']. *)
Definition configuredModel : string :=
  match CONFIG with
  | Some c =>
      match cfg_claudeModel c with
      | Some (String x m) => String x m
      | _ => "claude-sonnet-4-5-20250929"
      end
  | None => "claude-sonnet-4-5-20250929"
  end.

(** [fetchExplanations()], run from its call to its end with each [await]
    answered at once: the run of the function in which the page handles no
    other event while the function waits for the cache and for the
    messages API.  The function with the page going on meanwhile is
    [startExplanations], [resume] and [proceed] below. *)
Definition fetchExplanations (a : App) : App :=
  if negb (Js.truthy (apiKey a)) then page (dom_apiKeyModal true) a
  else
    match currentAnalysis a with
    | [] => a
    | _ :: _ =>
        let a := page (dom_explainBtn true "Explaining...") a in
        let fen := chess_fen (game a) in
        let turn := match chess_turn (game a) with White => "White" | Black => "Black" end in
        let movesToExplain := firstn 4 (currentAnalysis a) in
        let '(a, cachedExplanations, uncachedMoves) :=
          checkCache fen 0 movesToExplain (a, [], []) in
        match uncachedMoves with
        | [] => page (dom_explainBtn false "Explain Moves") a
        | _ :: _ =>
            let prompt := explanationPrompt fen turn uncachedMoves in
            let model := configuredModel in
            let a := emit (ClaudeRequest model prompt) a in
            let a :=
              match messages_api model prompt with
              | ApiText text =>
                  let newExplanations := parseExplanations text in
                  let a :=
                    fold_left
                      (fun a m =>
                         match sobj_truthy (l_move m) newExplanations with
                         | Some explanation =>
                             saveExplanationToCache fen (l_move m) explanation a
                         | None => a
                         end)
                      uncachedMoves a in
                  let allExplanations := sobj_spread cachedExplanations newExplanations in
                  forEach
                    (fun m i =>
                       with_el i
                         (fun el =>
                            el_text
                              match sobj_truthy (l_move m) allExplanations with
                              | Some e => e
                              | None => "No explanation available"
                              end
                              (el_loading false el)))
                    movesToExplain a
              | ApiFailure =>
                  forEach
                    (fun m i a =>
                       match sobj_truthy (l_move m) cachedExplanations with
                       | None =>
                           with_el i
                             (fun el => el_text "Error fetching explanation" (el_loading false el))
                             a
                       | Some _ => a
                       end)
                    movesToExplain a
              end in
            page (dom_explainBtn false "Explain Moves") a
        end
    end.

(** *** Engine messages *)

(** [finalizeAnalysis()]. *)
Definition finalizeAnalysis (a : App) : App :=
  let a := updateAnalysisDisplay a in
  let autoExplain := autoExplainCheckbox (dom a) in
  if autoExplain && Js.truthy (apiKey a) && (0 <? List.length (currentAnalysis a))%nat
  then fetchExplanations a
  else a.

(** [handleStockfishMessage(event)], [line] being [event.data]. *)
Definition handleStockfishMessage (line : string) (a : App) : App :=
  if Js.startsWith line "info depth" then parseAnalysisLine line a
  else if Js.startsWith line "bestmove" then finalizeAnalysis a
  else a.

(** [initStockfish()] once the worker script is loaded. *)
Definition initStockfish (a : App) : App :=
  let a := set_stockfish true a in
  let a := postMessage "uci" a in
  let multiPV :=
    match CONFIG with
    | Some c =>
        match cfg_engine c with
        | Some e =>
            match cfg_multiPV e with
            | Some n => if (n =? 0)%N then 4%N else n
            | None => 4%N
            end
        | None => 4%N
        end
    | None => 4%N
    end in
  let a := postMessage ("setoption name MultiPV value " ++ Js.string_of_N multiPV) a in
  postMessage "isready" a.

(** *** Board interaction *)

(** [handleMove(source, target)], the [onDrop] of the board. *)
Definition handleMove (source target : string) (a : App) : App :=
  match chess_move (game a) source target (Some "q") with
  | None => a
  | Some (_, g) =>
      let a := set_game g a in
      let a := board_position (chess_fen (game a)) a in
      let a := updateDisplay a in
      analyzePosition a
  end.

Definition newGame (a : App) : App :=
  let a := set_game (chess_reset (game a)) a in
  let a := board_start a in
  let a := updateDisplay a in
  analyzePosition a.

Definition undoMove (a : App) : App :=
  let a := set_game (chess_undo (game a)) a in
  let a := board_position (chess_fen (game a)) a in
  let a := updateDisplay a in
  analyzePosition a.

(** [setFenFromInput()], [value] being the text of [#fenInput].  A FEN
    that the rules engine refuses ends in an alert, whether [load] returns
    false or throws. *)
Definition setFenFromInput (value : string) (a : App) : App :=
  let fen := Js.trim value in
  if negb (Js.truthy fen) then a
  else
    match chess_load (game a) fen with
    | Some g =>
        let a := set_game g a in
        let a := board_position fen a in
        let a := updateDisplay a in
        let a := updateFenDisplay a in
        analyzePosition a
    | None => emit (Alert "Invalid FEN position") a
    end.

(** A square of the board has an element [.square-<name>]. *)
Definition is_square (s : string) : bool :=
  match s with
  | String f (String r EmptyString) => in_range "a" "h" f && in_range "1" "8" r
  | _ => false
  end.

(** [previewMove(uci)]. *)
Definition previewMove (uci : string) (a : App) : App :=
  let a := match previewPosition a with
           | Some _ => a
           | None => set_previewPosition (Some (chess_fen (game a))) a
           end in
  let previewed := match previewPosition a with Some p => p | None => EmptyString end in
  let tempGame := Chess_new previewed in
  let from := uci_from uci in
  let to := uci_to uci in
  let promotion := uci_promotion uci in
  let a := match chess_move tempGame from to promotion with
           | Some (_, g) => board_position (chess_fen g) a
           | None => a
           end in
  set_board {| shown := shown (board a); highlights := filter is_square [from; to] |} a.

(** [clearPreview()]. *)
Definition clearPreview (a : App) : App :=
  let a := match previewPosition a with
           | Some p => set_previewPosition None (board_position p a)
           | None => a
           end in
  set_board {| shown := shown (board a); highlights := [] |} a.

(** [playAnalysisMove(uci)]. *)
Definition playAnalysisMove (uci : string) (a : App) : App :=
  let a := clearPreview a in
  let from := uci_from uci in
  let to := uci_to uci in
  let promotion := uci_promotion uci in
  match chess_move (game a) from to promotion with
  | None => a
  | Some (_, g) =>
      let a := set_game g a in
      let a := board_position (chess_fen (game a)) a in
      let a := updateDisplay a in
      analyzePosition a
  end.

Definition set_apiKey (v : string) (a : App) : App :=
  {| board := board a; game := game a; stockfish := stockfish a;
     currentAnalysis := currentAnalysis a; apiKey := v;
     analysisTimeout := analysisTimeout a; supabaseClient := supabaseClient a;
     analysisLines := analysisLines a; currentDepth := currentDepth a;
     previewPosition := previewPosition a; dom := dom a; rt := rt a |}.

(** *** The key dialog, the Auto box and a worker that does not load *)

(** [saveApiKey()], [value] being the text of [#apiKeyInput]; the second
    component is what is written to [localStorage], if anything. *)
Definition saveApiKey (value : string) (a : App) : App * option string :=
  let a := set_apiKey (Js.trim value) a in
  if Js.truthy (apiKey a) then
    let a := page (dom_apiKeyModal false) a in
    (if (0 <? List.length (currentAnalysis a))%nat then fetchExplanations a else a,
     Some (apiKey a))
  else (a, None).

(** The Skip button of the key dialog. *)
Definition skipApiKey (a : App) : App := page (dom_apiKeyModal false) a.

(** The [catch] block of [initStockfish()]: the script could not be
    fetched or the worker not be created, and [stockfish] is as it was.
    The two paragraphs of the message are kept one per line. *)
Definition initStockfish_failed (message : string) (a : App) : App :=
  let a := page (dom_engineDepth LblUnavailable) a in
  page (dom_moveList (EmptyState ("Failed to load chess engine." ++ nl ++ message))) a.

(** *** The event loop *)

(** What the page reacts to: the user's actions, the worker's messages and
    the outcome of loading the worker.  Left out are [flipBoard], [copyFen],
    the resize listener and [onDragStart]: they touch the orientation and
    the size of the board, the clipboard and the label of the Copy button,
    which the model does not have.  A call of the explanations that an
    event makes is run to its end inside the event, as [fetchExplanations]
    is. *)
Inductive Event :=
| EvDrop (source target : string)
| EvNewGame
| EvUndo
| EvSetFen (value : string)
| EvEnter (uci : string)
| EvLeave
| EvClick (uci : string)
| EvExplain
| EvWorkerLoaded
| EvEngine (line : string)
| EvSaveKey (value : string)
| EvSkipKey
| EvAutoExplain (checked : bool)
| EvWorkerFailed (message : string).

Definition handle (e : Event) (a : App) : App :=
  match e with
  | EvDrop source target => handleMove source target a
  | EvNewGame => newGame a
  | EvUndo => undoMove a
  | EvSetFen value => setFenFromInput value a
  | EvEnter uci => previewMove uci a
  | EvLeave => clearPreview a
  | EvClick uci => playAnalysisMove uci a
  | EvExplain => fetchExplanations a
  | EvWorkerLoaded => initStockfish a
  | EvEngine line => handleStockfishMessage line a
  | EvSaveKey value => fst (saveApiKey value a)
  | EvSkipKey => skipApiKey a
  | EvAutoExplain checked => page (dom_autoExplain checked) a
  | EvWorkerFailed message => initStockfish_failed message a
  end.

(** [dt] milliseconds pass: the timers that are due run, oldest first.  A
    callback sets no timer. *)
Definition advance (dt : N) (a : App) : App :=
  let r := rt a in
  let now := (clock r + dt)%N in
  let due := fun t : nat * N => (snd t <=? now)%N in
  let a := set_rt {| clock := now; timers := filter (fun t => negb (due t)) (timers r);
                     nextTimer := nextTimer r; effects := effects r |} a in
  fold_left (fun a _ => analysisCallback a) (filter due (timers r)) a.

(** An event [dt] milliseconds after the previous one. *)
Definition step (a : App) (e : N * Event) : App := handle (snd e) (advance (fst e) a).

Definition run (a : App) (es : list (N * Event)) : App := fold_left step es a.

End Application.

Arguments App {rules}.

(* ================================================================== *)
(** ** A finite excerpt of the rules engine, for concrete runs *)
(* ================================================================== *)

(** The first moves of a game as chess.js 0.10 answers them: each row of
    [book] is a legal move with its SAN and the FEN after it.  Requests
    outside the excerpt are answered with [null]; the concrete runs below
    only ask for rows of the book and for moves that no chess position
    allows. *)
Module Excerpt.

Definition start : string := "rnbqkbnr/pppppppp/8/8/8/8/PPPPPPPP/RNBQKBNR w KQkq - 0 1".
Definition after_e4 : string := "rnbqkbnr/pppppppp/8/8/4P3/8/PPPP1PPP/RNBQKBNR b KQkq e3 0 1".
Definition after_d4 : string := "rnbqkbnr/pppppppp/8/8/3P4/8/PPP1PPPP/RNBQKBNR b KQkq d3 0 1".
Definition after_Nf3 : string := "rnbqkbnr/pppppppp/8/8/8/5N2/PPPPPPPP/RNBQKB1R b KQkq - 1 1".
Definition after_e4_e5 : string :=
  "rnbqkbnr/pppp1ppp/8/4p3/4P3/8/PPPP1PPP/RNBQKBNR w KQkq e6 0 2".
Definition after_e4_c5 : string :=
  "rnbqkbnr/pp1ppppp/8/2p5/4P3/8/PPPP1PPP/RNBQKBNR w KQkq c6 0 2".
Definition after_e4_e5_Nf3 : string :=
  "rnbqkbnr/pppp1ppp/8/4p3/4P3/5N2/PPPP1PPP/RNBQKB1R b KQkq - 1 2".
Definition after_e4_e5_d4 : string :=
  "rnbqkbnr/pppp1ppp/8/4p3/3PP3/8/PPP2PPP/RNBQKBNR b KQkq d3 0 2".

Record BookRow := { r_fen : string; r_from : string; r_to : string; r_san : string; r_next : string }.

Definition book : list BookRow :=
  [ {| r_fen := start; r_from := "e2"; r_to := "e4"; r_san := "e4"; r_next := after_e4 |};
    {| r_fen := start; r_from := "d2"; r_to := "d4"; r_san := "d4"; r_next := after_d4 |};
    {| r_fen := start; r_from := "g1"; r_to := "f3"; r_san := "Nf3"; r_next := after_Nf3 |};
    {| r_fen := after_e4; r_from := "e7"; r_to := "e5"; r_san := "e5"; r_next := after_e4_e5 |};
    {| r_fen := after_e4; r_from := "c7"; r_to := "c5"; r_san := "c5"; r_next := after_e4_c5 |};
    {| r_fen := after_e4_e5; r_from := "g1"; r_to := "f3"; r_san := "Nf3";
       r_next := after_e4_e5_Nf3 |};
    {| r_fen := after_e4_e5; r_from := "d2"; r_to := "d4"; r_san := "d4";
       r_next := after_e4_e5_d4 |} ].

Definition positions : list string :=
  [start; after_e4; after_d4; after_Nf3; after_e4_e5; after_e4_c5;
   after_e4_e5_Nf3; after_e4_e5_d4].

(** A game: its position and the earlier ones, latest first. *)
Record Game := { position : string; history : list string }.

Definition game_of (fen : string) : Game := {| position := fen; history := [] |}.

Definition side (fen : string) : Color :=
  match Js.split " " fen with
  | _ :: "b" :: _ => Black
  | _ => White
  end.

Definition play (g : Game) (from to : string) (promotion : option string)
  : option (string * Game) :=
  match find (fun r => String.eqb (r_fen r) (position g) && String.eqb (r_from r) from
                         && String.eqb (r_to r) to) book with
  | Some r => Some (r_san r, {| position := r_next r; history := position g :: history g |})
  | None => None
  end.

Definition take_back (g : Game) : Game :=
  match history g with
  | p :: h => {| position := p; history := h |}
  | [] => g
  end.

Definition load_fen (g : Game) (fen : string) : option Game :=
  if existsb (String.eqb fen) positions then Some (game_of fen) else None.

#[export] Instance rules : RulesEngine := {|
  Chess := Game;
  Chess_new := game_of;
  chess_fen := position;
  chess_turn := fun g => side (position g);
  chess_move := play;
  chess_reset := fun _ => game_of start;
  chess_undo := take_back;
  chess_load := load_fen
|}.

(** No configuration file, an empty cache, a service that is down. *)
Definition offline : Services := {|
  CONFIG := None;
  cache_select := fun _ => NoRow;
  messages_api := fun _ _ => ApiFailure
|}.

Definition blank_dom : Dom := {|
  engineDepth := LblAnalyzing;
  moveList := EmptyState "Analyzing position...";
  listId := 0;
  evalScore := "0.00";
  explainBtn_disabled := false;
  explainBtn_text := "Explain Moves";
  apiKeyModal_active := false;
  autoExplainCheckbox := false;
  turnText := "White to move";
  fenDisplay := start
|}.

(** The page at [fen] with the worker running and nothing pending. *)
Definition page_at (fen : string) : App := {|
  board := {| shown := Js.first (Js.split " " fen); highlights := [] |};
  game := game_of fen;
  stockfish := true;
  currentAnalysis := [];
  apiKey := "sk-test";
  analysisTimeout := None;
  supabaseClient := true;
  analysisLines := [];
  currentDepth := 0;
  previewPosition := None;
  dom := blank_dom;
  rt := {| clock := 0; timers := []; nextTimer := 1; effects := [] |}
|}.

End Excerpt.

(* ================================================================== *)
(** ** Vocabulary of the properties *)
(* ================================================================== *)

(** [b] is the board-layout field of [fen]: what comes before the first
    space, or all of [fen] when it has no space. *)
Definition board_layout_field (fen b : string) : Prop :=
  Js.all_chars (fun c => negb (Ascii.eqb c " ")) b = true
  /\ (fen = b \/ exists rest, fen = (b ++ String " " rest)%string).

Section Vocabulary.

Context {rules : RulesEngine} {services : Services}.

(** A message of the worker together with the request it answers:
    [origin] is the number of analysis requests the engine had received
    when it printed the line.  The handler is given [data] only. *)
Record EngineMsg := { origin : nat; data : string }.

Definition deliver (m : EngineMsg) (a : App) : App :=
  handleStockfishMessage (data m) a.

(** The analysis requests sent so far: one [go] command each. *)
Definition requests (a : App) : nat :=
  List.length (filter (fun m => Js.startsWith m "go depth") (posted a)).

(** A run of worker messages. *)
Definition messages (ls : list string) (a : App) : App :=
  fold_left (fun a l => handleStockfishMessage l a) ls a.

(** The move is legal in the current position, as [parseAnalysisLine]
    asks a scratch copy of the game. *)
Definition legal_now (uci : string) (a : App) : bool :=
  match chess_move (Chess_new (chess_fen (game a)))
                   (uci_from uci) (uci_to uci) (uci_promotion uci) with
  | Some _ => true
  | None => false
  end.

(** What the page shows of the analysis: the depth label, the candidate
    list, the score text and the ranked list handed to the explanations. *)
Definition published (a : App) : DepthLabel * MoveList * string * list Line :=
  (engineDepth (dom a), moveList (dom a), evalScore (dom a), currentAnalysis a).

(** The entry that an accepted line stores under its rank. *)
Definition entry_of (f : Fields) (san : string) (turn : Color) : Line :=
  {| l_move := san; l_uci := Js.first (f_pv f);
     l_eval := evalScore_of (f_scoreType f) (f_scoreValue f) turn;
     l_depth := f_depth f; l_pv := f_pv f |}.

(** The centipawn score from the point of view of the side to move. *)
Definition flipped (v : Z) (turn : Color) : Z :=
  match turn with White => v | Black => (- v)%Z end.

(** A text with exactly two decimals: some text without a point, a
    point, and two digits. *)
Definition two_decimal_places (s : string) : Prop :=
  exists ip d1 d2,
    s = (ip ++ String "." (String d1 (String d2 EmptyString)))%string
    /\ Js.all_chars (fun c => negb (Ascii.eqb c ".")) ip = true
    /\ Js.is_digit d1 = true /\ Js.is_digit d2 = true.

(** The event changes the position: its handler reaches
    [analyzePosition].  A drop or a click does when the move is legal, a
    FEN when the rules engine takes it, undo and new game always. *)
Definition position_changed (e : Event) (a : App) : bool :=
  match e with
  | EvDrop source target =>
      match chess_move (game a) source target (Some "q") with Some _ => true | None => false end
  | EvNewGame => true
  | EvUndo => true
  | EvSetFen value =>
      Js.truthy (Js.trim value)
      && match chess_load (game a) (Js.trim value) with Some _ => true | None => false end
  | EvClick uci =>
      match chess_move (game a) (uci_from uci) (uci_to uci) (uci_promotion uci) with
      | Some _ => true
      | None => false
      end
  | _ => false
  end.

(** Position changes in quick succession: each one changes the position
    and comes less than 100 ms after the one before. *)
Fixpoint rapid (a : App) (es : list (N * Event)) : Prop :=
  match es with
  | [] => True
  | e :: es' =>
      (fst e < 100)%N
      /\ position_changed (snd e) (advance (fst e) a) = true
      /\ rapid (step a e) es'
  end.

(** The only timer that can be pending is the one [analysisTimeout]
    remembers, as it is after any run from a page without timers. *)
Definition one_timer (a : App) : Prop :=
  forall t, In t (timers (rt a)) -> analysisTimeout a = Some (fst t).

(** The timer is set and will be due in 100 ms. *)
Definition armed (a : App) : Prop :=
  stockfish a = true
  /\ exists t, analysisTimeout a = Some t
               /\ timers (rt a) = [(t, (clock (rt a) + 100)%N)].

(** The request that [analyzePosition] sends for a position. *)
Definition analysis_request (fen : string) : list string :=
  ["stop"; ("position fen " ++ fen)%string;
   ("go depth " ++ Js.string_of_N configuredDepth)%string].

(** The number that the sort of the ranked list compares. *)
Definition value (evalStr : string) : Q :=
  match parseEval evalStr with Some q => q | None => 0%Q end.

Definition score (e : Line) : Q := value (l_eval e).

(** The ranked list of the accumulated lines, as
    [updateAnalysisDisplay] computes it. *)
Definition ranked (lines : IntObj Line) : list Line :=
  sort compareMoves (obj_values lines).

(** An entry as [parseAnalysisLine] writes it: its evaluation is the text
    of some score. *)
Definition written (e : Line) : Prop :=
  exists scoreType scoreValue turn, l_eval e = evalScore_of scoreType scoreValue turn.

(** The lines that progress lines have accumulated since the last
    [analyzePosition]. *)
Inductive accumulated : IntObj Line -> Prop :=
| acc_empty : accumulated []
| acc_line o k e : accumulated o -> written e -> accumulated (obj_set k e o).

(** [x] is ranked before [y]: a higher score, or the same score and a
    lower rank. *)
Definition before (x y : Z * Line) : Prop :=
  (score (snd y) < score (snd x))%Q
  \/ ((score (snd y) == score (snd x))%Q /\ (fst x < fst y)%Z).

(** The sort of [updateAnalysisDisplay] on the lines with their ranks. *)
Definition sort_ranked (lines : IntObj Line) : IntObj Line :=
  sort (fun x y => compareMoves (snd x) (snd y)) lines.

End Vocabulary.

Section PipelineVocabulary.

Context {rules : RulesEngine} {services : Services}.

(** The cached explanation that [fetchExplanations] accepts for a move in
    the current position: one that is found and is not empty. *)
Definition cache_hit (a : App) (move : string) : option string :=
  match getExplanationFromCache a (chess_fen (game a)) move with
  | Some (String c t) => Some (String c t)
  | _ => None
  end.

Definition is_uncached (a : App) (m : Line) : bool :=
  match cache_hit a (l_move m) with Some _ => false | None => true end.

(** The text of [#explanation-i], when the element exists. *)
Definition explanation_text (i : nat) (a : App) : option string :=
  option_map item_explanation (explanation_el i a).

(** [#explanation-i] inside a candidate list, and a write to it. *)
Definition ml_get (i : nat) (ml : MoveList) : option MoveItem :=
  match ml with
  | Items l => nth_error l i
  | EmptyState _ => None
  end.

Definition ml_upd (i : nat) (f : MoveItem -> MoveItem) (ml : MoveList) : MoveList :=
  match ml with
  | Items l =>
      match nth_error l i with
      | Some el => Items (list_update i (f el) l)
      | None => ml
      end
  | EmptyState _ => ml
  end.

(** The writes of a loop over the moves, the move at position [i + k]
    writing to [#explanation-(i+k)] what [g] says, if anything. *)
Fixpoint ml_each {A} (g : A -> option (MoveItem -> MoveItem)) (i : nat) (ms : list A)
         (ml : MoveList) : MoveList :=
  match ms with
  | [] => ml
  | m :: ms' =>
      ml_each g (S i) ms'
        match g m with
        | Some h => ml_upd i h ml
        | None => ml
        end
  end.

(** What stays as it is while explanations are fetched: everything but
    the candidate list, the button, the key dialog and the requests to
    the explanation services. *)
Definition kept (a : App) :=
  (board a, game a, stockfish a, currentAnalysis a, apiKey a, analysisTimeout a,
   supabaseClient a, analysisLines a, currentDepth a, previewPosition a,
   engineDepth (dom a), evalScore (dom a), autoExplainCheckbox (dom a),
   turnText (dom a), fenDisplay (dom a),
   clock (rt a), timers (rt a), nextTimer (rt a), posted a).

(** The write of the cache loop to the element of a move. *)
Definition cache_write (a : App) (m : Line) : option (MoveItem -> MoveItem) :=
  Some (fun el =>
          match cache_hit a (l_move m) with
          | Some s => el_text s (el_loading false (el_text "Checking cache..." (el_loading true el)))
          | None => el_text "Generating explanation..."
                      (el_text "Checking cache..." (el_loading true el))
          end).

(** The cached explanations that the cache loop collects. *)
Fixpoint cache_collect (a : App) (ms : list Line) (c : StrObj) : StrObj :=
  match ms with
  | [] => c
  | m :: ms' =>
      cache_collect a ms'
        match cache_hit a (l_move m) with
        | Some s => sobj_set (l_move m) s c
        | None => c
        end
  end.

(** The final write of a successful run to the element of a move. *)
Definition success_write (all : StrObj) (m : Line) : option (MoveItem -> MoveItem) :=
  Some (fun el =>
          el_text match sobj_truthy (l_move m) all with
                  | Some e => e
                  | None => "No explanation available"
                  end (el_loading false el)).

(** The write of a failed run to the element of a move. *)
Definition failure_write (cached : StrObj) (m : Line) : option (MoveItem -> MoveItem) :=
  match sobj_truthy (l_move m) cached with
  | None => Some (fun el => el_text "Error fetching explanation" (el_loading false el))
  | Some _ => None
  end.

(** The cache upserts of a successful run. *)
Definition save_all (fen : string) (new : StrObj) (uncached : list Line) (a : App) : App :=
  fold_left
    (fun a m =>
       match sobj_truthy (l_move m) new with
       | Some explanation => saveExplanationToCache fen (l_move m) explanation a
       | None => a
       end)
    uncached a.

(** The side to move, as the prompt names it. *)
Definition turn_name (a : App) : string :=
  match chess_turn (game a) with White => "White" | Black => "Black" end.

End PipelineVocabulary.

(* ================================================================== *)
(** ** Concrete runs on the excerpt *)
(* ================================================================== *)

Module Scenario.
Import Excerpt.

(** The cache holds an explanation of 1.e4 in the starting position. *)
Definition e4_cached (key : string) : CacheReply :=
  if String.eqb key "rnbqkbnr/pppppppp/8/8/8/8/PPPPPPPP/RNBQKBNR_e4"
  then Row "Opens center" else NoRow.

(** The service is down. *)
Definition cache_only : Services := {|
  CONFIG := None;
  cache_select := e4_cached;
  messages_api := fun _ _ => ApiFailure
|}.

(** The service answers for the move it was asked about. *)
Definition answers_d4 : Services := {|
  CONFIG := None;
  cache_select := e4_cached;
  messages_api := fun _ _ => ApiText "d4: Claims the centre."
|}.

(** The service answers for both candidates of the position. *)
Definition answers_both : Services := {|
  CONFIG := None;
  cache_select := e4_cached;
  messages_api :=
    fun _ _ => ApiText ("d4: Claims the centre." ++ nl ++ "e4: Frees the bishop.")%string
|}.

Definition progress (depth multipv score pv : string) : string :=
  ("info depth " ++ depth ++ " seldepth 18 multipv " ++ multipv ++ " score " ++ score
     ++ " nodes 90000 nps 600000 time 150 pv " ++ pv)%string.

(** The starting position analysed to depth 12: 1.e4 and 1.d4. *)
Definition two_candidates : App :=
  parseAnalysisLine (progress "12" "2" "cp 25" "d2d4 d7d5 c2c4")
    (parseAnalysisLine (progress "12" "1" "cp 30" "e2e4 e7e5 g1f3") (page_at start)).

(** A line of the analysis of the starting position. *)
Definition late_line : EngineMsg :=
  {| origin := 1; data := progress "14" "1" "cp 25" "d2d4 d7d5 c2c4" |}.

(** A new game is analysed, then 1.e4 e5 is played within 50 ms and the
    second request has gone to the engine. *)
Definition superseded : App :=
  advance (services := offline) 100
    (run (services := offline) (page_at start)
       [(0%N, EvNewGame); (100%N, EvDrop "e2" "e4"); (50%N, EvDrop "e7" "e5")]).

(** A line whose first move no chess position allows. *)
Definition impossible_line : string := progress "12" "1" "cp 20" "e2e5 e7e5".

(** A centipawn score beyond any engine's, and a mate in three. *)
Definition huge_and_mate : App :=
  parseAnalysisLine (progress "12" "2" "mate 3" "d2d4 d7d5")
    (parseAnalysisLine (progress "12" "1" "cp 1000000" "e2e4 e7e5") (page_at start)).

(** Two losing moves: mated in two, mated in five. *)
Definition two_mates : App :=
  parseAnalysisLine (progress "12" "2" "mate -5" "d2d4 d7d5")
    (parseAnalysisLine (progress "12" "1" "mate -2" "e2e4 e7e5") (page_at start)).

(** Three moves in quick succession. *)
Definition burst_events : list (N * Event) :=
  [(40%N, EvDrop "e7" "e5"); (99%N, EvUndo); (0%N, EvClick "e7e5")].

(** The mouse is over a candidate that the position does not allow. *)
Definition over_impossible : App := previewMove "e2e5" (page_at start).

(** The mouse is over 1.e4 and the board previews it. *)
Definition previewing_e4 : App := previewMove "e2e4" (page_at start).

(** Black to move after 1.e4. *)
Definition black_to_move : App := page_at after_e4.

(** The page before the worker script has loaded. *)
Definition no_worker : App := set_stockfish false (page_at start).

(** The fields of [late_line]. *)
Definition late_fields : Fields :=
  {| f_depth := 14; f_multipv := 1; f_scoreType := "cp"; f_scoreValue := 25;
     f_pv := ["d2d4"; "d7d5"; "c2c4"] |}.

(** Black's reply to 1.e4, a third of a pawn worse for White. *)
Definition black_line : string := progress "12" "1" "cp -35" "e7e5 g1f3".

Definition black_fields : Fields :=
  {| f_depth := 12; f_multipv := 1; f_scoreType := "cp"; f_scoreValue := -35;
     f_pv := ["e7e5"; "g1f3"] |}.

(** The two candidates on the page, the analysis finished. *)
Definition finished : App :=
  handleStockfishMessage (services := cache_only) "bestmove e2e4" two_candidates.

(** The entries of the two candidates. *)
Definition e4_line : Line :=
  {| l_move := "e4"; l_uci := "e2e4"; l_eval := "+0.30"; l_depth := 12;
     l_pv := ["e2e4"; "e7e5"; "g1f3"] |}.

Definition d4_line : Line :=
  {| l_move := "d4"; l_uci := "d2d4"; l_eval := "+0.25"; l_depth := 12;
     l_pv := ["d2d4"; "d7d5"; "c2c4"] |}.



(** Two lines for 1.e4 after [two_candidates]: depth 13 with cp 99, depth
    14 with cp 31. *)
Definition e4_odd : string := progress "13" "1" "cp 99" "e2e4 e7e5 g1f3".
Definition e4_even : string := progress "14" "1" "cp 31" "e2e4 e7e5 g1f3".

(** The same line at depth 13. *)
Definition late_odd : EngineMsg :=
  {| origin := 1; data := progress "13" "1" "cp 25" "d2d4 d7d5 c2c4" |}.

Definition late_odd_fields : Fields :=
  {| f_depth := 13; f_multipv := 1; f_scoreType := "cp"; f_scoreValue := 25;
     f_pv := ["d2d4"; "d7d5"; "c2c4"] |}.

(** What the page does while a call of [fetchExplanations] waits for its
    two cache selects and for the messages API: nothing. *)
Definition undisturbed : list (App -> App) := [fun a => a; fun a => a; fun a => a].

(** A deeper line of the same search that names 1.e4 again. *)
Definition e4_deeper : string := progress "14" "1" "cp 30" "e2e4 e7e5 g1f3".

(** A deeper line that puts 1.d4 before 1.e4. *)
Definition d4_deeper : string := progress "14" "2" "cp 40" "d2d4 d7d5 c2c4".

(** The search goes on while the messages API is asked: the worker sends
    [e4_deeper], and the list is drawn again. *)
Definition list_redrawn : list (App -> App) :=
  [fun a => a; fun a => a; parseAnalysisLine e4_deeper].

(** The same with [d4_deeper]: the candidates change places. *)
Definition list_reordered : list (App -> App) :=
  [fun a => a; fun a => a; parseAnalysisLine d4_deeper].

End Scenario.

(* ================================================================== *)
(** ** The rest of the page *)
(* ================================================================== *)

Section Remaining.

Context {rules : RulesEngine} {services : Services}.

Definition set_supabaseClient (v : bool) (a : App) : App :=
  {| board := board a; game := game a; stockfish := stockfish a;
     currentAnalysis := currentAnalysis a; apiKey := apiKey a;
     analysisTimeout := analysisTimeout a; supabaseClient := v;
     analysisLines := analysisLines a; currentDepth := currentDepth a;
     previewPosition := previewPosition a; dom := dom a; rt := rt a |}.

(** [x > y] on numbers. *)
Definition Qgt_bool (x y : Q) : bool := negb (Qle_bool x y).

(** [getEvalClass(evalStr)].  A NaN compares false with everything.  The
    comparisons with 0.3 are made on the exact values; on the texts with
    two decimals they agree with the comparisons of the doubles. *)
Definition getEvalClass (evalStr : string) : string :=
  if Js.startsWith evalStr "M" then
    match Js.parseInt (Js.substring_from 1 evalStr) with
    | Some mateIn => if (0 <? mateIn)%Z then "positive" else "negative"
    | None => "negative"
    end
  else
    match Js.parseFloat evalStr with
    | Some val =>
        if Qgt_bool val (3 # 10) then "positive"
        else if Qgt_bool (- 3 # 10) val then "negative"
        else "neutral"
    | None => "neutral"
    end.

(** [initSupabase()]: the client is created when a URL and a key are
    configured and the library is loaded, which [configured] says. *)
Definition initSupabase (configured : bool) (a : App) : App :=
  if configured then set_supabaseClient true a else a.

(** [initBoard()]: the board at the starting position, and the FEN field. *)
Definition initBoard (a : App) : App :=
  updateFenDisplay
    (set_board {| shown := "rnbqkbnr/pppppppp/8/8/8/8/PPPPPPPP/RNBQKBNR"; highlights := [] |} a).

(** [init()].  [initStockfish()] is started after [initBoard()] and waits
    for the worker script; that it has loaded is the event
    [EvWorkerLoaded]. *)
Definition init (configured : bool) (a : App) : App :=
  let a := initSupabase configured a in
  let a := initBoard a in
  let a := if negb (Js.truthy (apiKey a)) then page (dom_apiKeyModal true) a else a in
  analyzePosition a.

(** One [.move-pair] of [#moveHistory]: the black move is shown when it is
    there. *)
Record MovePair := {
  pair_number : N;
  pair_white : string;
  pair_black : option string
}.

(** The loop of [updateMoveHistory()] from the pair numbered [moveNum]. *)
Fixpoint move_pairs (moveNum : N) (history : list string) : list MovePair :=
  match history with
  | [] => []
  | whiteMove :: [] =>
      [{| pair_number := moveNum; pair_white := whiteMove; pair_black := None |}]
  | whiteMove :: blackMove :: rest =>
      {| pair_number := moveNum; pair_white := whiteMove;
         pair_black := if Js.truthy blackMove then Some blackMove else None |}
      :: move_pairs (moveNum + 1) rest
  end.

(** [#moveHistory]: the placeholder or the pairs. *)
Inductive MoveHistory :=
| NoMoves (msg : string)
| Pairs (rows : list MovePair).

(** [updateMoveHistory()], [history] being [game.history()]. *)
Definition updateMoveHistory (history : list string) : MoveHistory :=
  match history with
  | [] => NoMoves "No moves yet"
  | _ :: _ => Pairs (move_pairs 1 history)
  end.

(** The number in [#moveCount], [Math.floor(history.length / 2) + 1]. *)
Definition fullMoves (history : list string) : N :=
  (N.of_nat (List.length history) / 2 + 1)%N.

(** The moves that the rows of the history show, in order. *)
Definition shown_moves (rows : list MovePair) : list string :=
  flat_map (fun r => pair_white r :: match pair_black r with Some b => [b] | None => [] end)
           rows.

(** At most one timer is pending, and [analysisTimeout] remembers it. *)
Definition single_slot (a : App) : Prop :=
  timers (rt a) = []
  \/ exists t d, analysisTimeout a = Some t /\ timers (rt a) = [(t, d)].

(** The events of the user, the load of the worker apart. *)
Definition worker_load (e : Event) : bool :=
  match e with EvWorkerLoaded => true | _ => false end.

(** The cache writes so far. *)
Definition upserts (a : App) : list (string * string) :=
  flat_map (fun e => match e with
                     | CacheUpsert key _ _ explanation => [(key, explanation)]
                     | _ => []
                     end) (effects (rt a)).

(** The board shows the position of the game. *)
Definition board_in_sync (a : App) : Prop :=
  shown (board a) = Js.first (Js.split " " (chess_fen (game a)))
  /\ fenDisplay (dom a) = chess_fen (game a).

(** What an event of the user leaves alone when it fails. *)
Definition analysis_state (a : App) :=
  (game a, analysisLines a, currentDepth a, currentAnalysis a, analysisTimeout a,
   engineDepth (dom a), moveList (dom a), timers (rt a), posted a, requested a).

(** What the messages of the worker leave alone. *)
Definition beside_analysis (a : App) :=
  (game a, board a, stockfish a, apiKey a, supabaseClient a, analysisTimeout a,
   previewPosition a, autoExplainCheckbox (dom a), turnText (dom a), fenDisplay (dom a),
   apiKeyModal_active (dom a), clock (rt a), timers (rt a), nextTimer (rt a), posted a).

(** Every line is stored under a rank that is not negative, has a depth
    that currentDepth has reached, and starts with a move that is legal in
    the current position, named as the rules engine names it. *)
Definition lines_sound (a : App) : Prop :=
  forall k e, In (k, e) (analysisLines a) ->
    (0 <= k)%Z /\ (l_depth e <= currentDepth a)%Z
    /\ exists g,
         chess_move (Chess_new (chess_fen (game a))) (uci_from (l_uci e)) (uci_to (l_uci e))
                    (uci_promotion (l_uci e)) = Some (l_move e, g).

(** The ranks of the stored lines are in ascending order: one entry per
    rank. *)
Definition ascending_ranks (a : App) : Prop :=
  StronglySorted (fun x y : Z * Line => (fst x < fst y)%Z) (analysisLines a).

(** The game, the worker and the timer of the debounce. *)
Definition schedule (a : App) :=
  (game a, stockfish a, analysisTimeout a, clock (rt a), timers (rt a), nextTimer (rt a)).

(** Events that leave the position as it is and do not load the worker. *)
Fixpoint quiet (a : App) (es : list (N * Event)) : Prop :=
  match es with
  | [] => True
  | e :: es' =>
      position_changed (snd e) (advance (fst e) a) = false
      /\ worker_load (snd e) = false
      /\ quiet (step a e) es'
  end.

(** What [initStockfish] sends when the worker is there. *)
Definition handshake : list string :=
  ["uci"; "setoption name MultiPV value " ++
          Js.string_of_N match CONFIG with
                         | Some c =>
                             match cfg_engine c with
                             | Some e =>
                                 match cfg_multiPV e with
                                 | Some n => if (n =? 0)%N then 4%N else n
                                 | None => 4%N
                                 end
                             | None => 4%N
                             end
                         | None => 4%N
                         end; "isready"]%string.

(** The actions of the user on the board and on the candidates. *)
Definition user_action (e : Event) : bool :=
  match e with
  | EvDrop _ _ | EvNewGame | EvUndo | EvSetFen _ | EvEnter _ | EvLeave | EvClick _ => true
  | EvExplain | EvWorkerLoaded | EvEngine _
  | EvSaveKey _ | EvSkipKey | EvAutoExplain _ | EvWorkerFailed _ => false
  end.

(** The FEN field and the turn indicator show the position of the game. *)
Definition display_in_sync (a : App) : Prop :=
  fenDisplay (dom a) = chess_fen (game a)
  /\ turnText (dom a) = match chess_turn (game a) with
                        | White => "White to move"
                        | Black => "Black to move"
                        end.

(** What the engine is sent in one go: the handshake of [initStockfish],
    or the three commands of the timer of [analyzePosition] for some
    position. *)
Inductive engine_block : list string -> Prop :=
| block_handshake : engine_block handshake
| block_request fen : engine_block (analysis_request fen).

(** The ways in which the user asks for explanations: the button Explain
    Moves, the Save button of the key dialog (which explains the candidates
    at once) and ticking the Auto box. *)
Definition explain_event (e : Event) : bool :=
  match e with
  | EvExplain | EvSaveKey _ | EvAutoExplain true => true
  | _ => false
  end.

End Remaining.

(* ================================================================== *)
(** ** The shape of what a pattern matches *)
(* ================================================================== *)

Module Shape.
Import Regex.

(** The pattern matches the empty text. *)
Fixpoint nullable (r : regex) : bool :=
  match r with
  | Lit l => match l with EmptyString => true | String _ _ => false end
  | Class _ => false
  | Seq r1 r2 => nullable r1 && nullable r2
  | Alt r1 r2 => nullable r1 || nullable r2
  | Opt _ => true
  | Star _ => true
  | Plus _ => false
  | Group _ r1 => nullable r1
  end.

(** The characters that a match of the pattern can start with. *)
Fixpoint first_char (r : regex) (a : ascii) : bool :=
  match r with
  | Lit l => match l with EmptyString => false | String b _ => Ascii.eqb b a end
  | Class p => p a
  | Seq r1 r2 => first_char r1 a || (nullable r1 && first_char r2 a)
  | Alt r1 r2 => first_char r1 a || first_char r2 a
  | Opt r1 => first_char r1 a
  | Star p => p a
  | Plus p => p a
  | Group _ r1 => first_char r1 a
  end.

(** The numbers of the groups of the pattern. *)
Fixpoint groups (r : regex) : list nat :=
  match r with
  | Lit _ | Class _ | Star _ | Plus _ => []
  | Seq r1 r2 | Alt r1 r2 => groups r1 ++ groups r2
  | Opt r1 => groups r1
  | Group n r1 => n :: groups r1
  end.

(** A text that the pattern can match, as far as its first character
    tells. *)
Definition head_ok (r : regex) (pre : string) : Prop :=
  match pre with
  | EmptyString => nullable r = true
  | String a _ => first_char r a = true
  end.

End Shape.

(* ================================================================== *)
(** ** More runs on the excerpt *)
(* ================================================================== *)

Module Session.
Import Excerpt.

(** A new game, then 1.e4 e5 played 100 ms later, 50 ms apart. *)
Definition visit : list (N * Event) :=
  [(0%N, EvNewGame); (100%N, EvDrop "e2" "e4"); (50%N, EvDrop "e7" "e5")].

(** The mouse over a candidate and away, then Explain Moves. *)
Definition browsing : list (N * Event) :=
  [(50%N, EvEnter "e2e4"); (10%N, EvLeave); (5000%N, EvExplain)].

(** A new game, a move and Explain Moves while the worker is missing. *)
Definition unattended : list (N * Event) :=
  [(0%N, EvNewGame); (150%N, EvDrop "e2" "e4"); (200%N, EvExplain)].

(** The starting layout with Black to move. *)
Definition start_black : string := "rnbqkbnr/pppppppp/8/8/8/8/PPPPPPPP/RNBQKBNR b KQkq - 0 1".

Definition start_layout : string := "rnbqkbnr/pppppppp/8/8/8/8/PPPPPPPP/RNBQKBNR".

(** The first three moves of a game. *)
Definition opening : list string := ["e4"; "e5"; "Nf3"].

(** A deeper line for 1.e4 and the end of the search. *)
Definition deeper : list string :=
  [Scenario.progress "14" "1" "cp 28" "e2e4 e7e5 g1f3"; "bestmove e2e4"].

(** The line that first shows 1.e4. *)
Definition first_line : string := Scenario.progress "12" "1" "cp 30" "e2e4 e7e5 g1f3".

(** A reply that explains castling and 1.e4. *)
Definition reply : string := ("O-O: Brings the king to safety." ++ nl ++ "e4: Frees the bishop.")%string.

End Session.

(* ================================================================== *)
(** ** The progress lines of the engine *)
(* ================================================================== *)

(** A progress line as Stockfish 10 prints it for one of the MultiPV
    lines, with an exact score and in the first second of a search (later
    lines have a hashfull field as well): the depth, the rank, the score,
    some statistics and the principal variation. *)
Definition info_line (depth seldepth multipv : N) (scoreType : string) (scoreValue : Z)
           (nodes nps tbhits time : N) (pv : list string) : string :=
  ("info depth " ++ Js.string_of_N depth ++ " seldepth " ++ Js.string_of_N seldepth
   ++ " multipv " ++ Js.string_of_N multipv
   ++ " score " ++ scoreType ++ " " ++ Js.string_of_Z scoreValue
   ++ " nodes " ++ Js.string_of_N nodes ++ " nps " ++ Js.string_of_N nps
   ++ " tbhits " ++ Js.string_of_N tbhits ++ " time " ++ Js.string_of_N time
   ++ " pv " ++ String.concat " " pv)%string.

(** A move of a principal variation: some characters, none of them a
    space or a line break. *)
Definition pv_move (s : string) : Prop :=
  s <> EmptyString
  /\ Js.all_chars (fun c => Js.is_dot c && negb (Ascii.eqb c " ")) s = true.

(** The characters of a printed integer. *)
Definition numeric (c : ascii) : bool := Js.is_digit c || Ascii.eqb c "-".

(* ================================================================== *)
(** ** Runs with Auto-explain and with lines of the engine *)
(* ================================================================== *)

Module Endings.
Import Excerpt.

(** The analysis of the starting position is finished and Auto-explain is
    ticked. *)
Definition auto_on : App :=
  page (fun d =>
          {| engineDepth := engineDepth d; moveList := moveList d; listId := listId d;
             evalScore := evalScore d;
             explainBtn_disabled := explainBtn_disabled d;
             explainBtn_text := explainBtn_text d;
             apiKeyModal_active := apiKeyModal_active d; autoExplainCheckbox := true;
             turnText := turnText d; fenDisplay := fenDisplay d |})
       Scenario.finished.

(** 1.e4 is played on that page. *)
Definition moved : App := handle (services := Scenario.answers_d4) (EvDrop "e2" "e4") auto_on.

(** The line of the engine for 1.e4 at depth 12. *)
Definition e4_info : string :=
  info_line 12 18 1 "cp" 30 90000 600000 0 150 ["e2e4"; "e7e5"; "g1f3"].

Definition e4_pv : list string := ["e2e4"; "e7e5"; "g1f3"].

(** The engine reports, the user closes the key dialog with Skip, leaves
    the Auto box unticked, plays 1.e4 and looks at a candidate, the engine
    reports again: nobody asks for explanations. *)
Definition watching : list (N * Event) :=
  [(0%N, EvEngine "bestmove e2e4"); (5%N, EvSkipKey); (5%N, EvAutoExplain false);
   (10%N, EvDrop "e2" "e4"); (150%N, EvEnter "e7e5");
   (20%N, EvEngine (Scenario.progress "12" "1" "cp -35" "e7e5 g1f3"));
   (500%N, EvEngine "bestmove e7e5")].

(** While a call of the explanations waits for its two cache selects and
    for the messages API: the debounce delay passes, the search of the
    position after 1.e4 starts and reports its first line. *)
Definition new_search (services : Services) : list (App -> App) :=
  [fun a => a; fun a => a;
   fun a => parseAnalysisLine Scenario.black_line (advance (services := services) 150 a)].

End Endings.

(* ================================================================== *)
(** ** The explanations as the asynchronous function they are *)
(* ================================================================== *)

(** [fetchExplanations] is an [async function]: at each [await] that waits
    for the network it returns to the event loop, and the page goes on
    handling the worker's messages, the timers and the user until the answer
    arrives.  It waits for the cache select of each move (when there is a
    cache client; without one [getExplanationFromCache] returns [null] and
    the function goes on before any other event) and for the messages API
    ([await fetch] and [await response.json()], between which the function
    reads and writes nothing).  [fetchExplanations] above is the run in
    which nothing else happens meanwhile. *)
Section Asynchronous.

Context {rules : RulesEngine} {services : Services}.

(** An element [#explanation-i] held in a variable: the list it belongs to
    and its index there. *)
Record ElRef := { el_list : nat; el_index : nat }.

(** [document.getElementById(`explanation-${i}`)]; [None] is [null]. *)
Definition getExplanationEl (i : nat) (a : App) : option ElRef :=
  match explanation_el i a with
  | Some _ => Some {| el_list := listId (dom a); el_index := i |}
  | None => None
  end.

(** A write under [if (el)] through a variable that holds an element: it
    shows on the page when [#moveList] still has that element, and is lost
    when the list has been replaced since. *)
Definition write_el (el : option ElRef) (f : MoveItem -> MoveItem) (a : App) : App :=
  match el with
  | Some r => if Nat.eqb (el_list r) (listId (dom a)) then with_el (el_index r) f a else a
  | None => a
  end.

(** [fen], [turn] and [movesToExplain], fixed when the function is called. *)
Record Call := { c_fen : string; c_turn : string; c_moves : list Line }.

(** What a call made on the page [a] fixes. *)
Definition call_of (a : App) : Call :=
  {| c_fen := chess_fen (game a); c_turn := turn_name a;
     c_moves := firstn 4 (currentAnalysis a) |}.

(** The function while it waits: for the cache select of the move [m] at
    index [i], with [el] and the moves still to look up; or for the
    messages API. *)
Inductive Task :=
| AwaitCache (c : Call) (i : nat) (m : Line) (rest : list Line) (el : option ElRef)
             (cachedExplanations : StrObj) (uncachedMoves : list Line)
| AwaitReply (c : Call) (prompt : string)
             (cachedExplanations : StrObj) (uncachedMoves : list Line).

(** What [getExplanationFromCache] returns once the select has answered. *)
Definition cacheAnswer (fen move : string) : option string :=
  match cache_select (getCacheKey fen move) with
  | Row explanation => Some explanation
  | NoRow => None
  | CacheError => None
  end.

(** The cache loop after [await getExplanationFromCache]. *)
Definition afterLookup (el : option ElRef) (m : Line) (cached : option string)
           (acc : App * StrObj * list Line) : App * StrObj * list Line :=
  let '(a, cachedExplanations, uncachedMoves) := acc in
  match cached with
  | Some (String c t) =>
      (write_el el (fun el => el_text (String c t) (el_loading false el)) a,
       sobj_set (l_move m) (String c t) cachedExplanations,
       uncachedMoves)
  | _ =>
      (write_el el (el_text "Generating explanation...") a,
       cachedExplanations,
       uncachedMoves ++ [m])
  end.

(** The cache loop from the move at index [i], up to the first select it
    has to wait for, or to its end. *)
Fixpoint cacheLoop (c : Call) (i : nat) (ms : list Line)
         (acc : App * StrObj * list Line) : App * (Task + StrObj * list Line) :=
  match ms with
  | [] => let '(a, cachedExplanations, uncachedMoves) := acc in
          (a, inr (cachedExplanations, uncachedMoves))
  | m :: ms' =>
      let '(a, cachedExplanations, uncachedMoves) := acc in
      let el := getExplanationEl i a in
      let a := write_el el (fun el => el_text "Checking cache..." (el_loading true el)) a in
      if negb (supabaseClient a) then
        cacheLoop c (S i) ms' (afterLookup el m None (a, cachedExplanations, uncachedMoves))
      else (a, inl (AwaitCache c i m ms' el cachedExplanations uncachedMoves))
  end.

(** After the cache loop: done when every move was cached, else the request
    is sent. *)
Definition afterCache (c : Call) (r : App * (Task + StrObj * list Line)) : App * option Task :=
  match r with
  | (a, inl t) => (a, Some t)
  | (a, inr (cachedExplanations, uncachedMoves)) =>
      match uncachedMoves with
      | [] => (page (dom_explainBtn false "Explain Moves") a, None)
      | _ :: _ =>
          let prompt := explanationPrompt (c_fen c) (c_turn c) uncachedMoves in
          let model := configuredModel in
          (emit (ClaudeRequest model prompt) a,
           Some (AwaitReply c prompt cachedExplanations uncachedMoves))
      end
  end.

(** A call of [fetchExplanations()], up to its first wait. *)
Definition startExplanations (a : App) : App * option Task :=
  if negb (Js.truthy (apiKey a)) then (page (dom_apiKeyModal true) a, None)
  else
    match currentAnalysis a with
    | [] => (a, None)
    | _ :: _ =>
        let a := page (dom_explainBtn true "Explaining...") a in
        let c := {| c_fen := chess_fen (game a);
                    c_turn := match chess_turn (game a) with
                              | White => "White"
                              | Black => "Black"
                              end;
                    c_moves := firstn 4 (currentAnalysis a) |} in
        afterCache c (cacheLoop c 0 (c_moves c) (a, [], []))
    end.

(** The function goes on when the answer it waits for arrives, the page
    being [a] by then. *)
Definition resume (t : Task) (a : App) : App * option Task :=
  match t with
  | AwaitCache c i m rest el cachedExplanations uncachedMoves =>
      afterCache c
        (cacheLoop c (S i) rest
           (afterLookup el m (cacheAnswer (c_fen c) (l_move m))
              (a, cachedExplanations, uncachedMoves)))
  | AwaitReply c prompt cachedExplanations uncachedMoves =>
      let a :=
        match messages_api configuredModel prompt with
        | ApiText text =>
            let newExplanations := parseExplanations text in
            let a := save_all (c_fen c) newExplanations uncachedMoves a in
            let allExplanations := sobj_spread cachedExplanations newExplanations in
            forEach
              (fun m i =>
                 with_el i
                   (fun el =>
                      el_text
                        match sobj_truthy (l_move m) allExplanations with
                        | Some e => e
                        | None => "No explanation available"
                        end
                        (el_loading false el)))
              (c_moves c) a
        | ApiFailure =>
            forEach
              (fun m i a =>
                 match sobj_truthy (l_move m) cachedExplanations with
                 | None =>
                     with_el i
                       (fun el => el_text "Error fetching explanation" (el_loading false el))
                       a
                 | Some _ => a
                 end)
              (c_moves c) a
        end in
      (page (dom_explainBtn false "Explain Moves") a, None)
  end.

(** The function from a call or a wait to its end: each time it waits,
    the next entry of [meanwhile] is what the page does until the answer
    arrives.  When [meanwhile] runs out the function is left waiting. *)
Fixpoint proceed (meanwhile : list (App -> App)) (s : App * option Task) : App * option Task :=
  match meanwhile, s with
  | w :: ws, (a, Some t) => proceed ws (resume t (w a))
  | _, _ => s
  end.

(** [finalizeAnalysis()], up to the first wait of the explanations. *)
Definition finalizeAnalysis_start (a : App) : App * option Task :=
  let a := updateAnalysisDisplay a in
  let autoExplain := autoExplainCheckbox (dom a) in
  if autoExplain && Js.truthy (apiKey a) && (0 <? List.length (currentAnalysis a))%nat
  then startExplanations a
  else (a, None).

(** [handleStockfishMessage(line)], up to the first wait of the
    explanations. *)
Definition handleStockfishMessage_start (line : string) (a : App) : App * option Task :=
  if Js.startsWith line "info depth" then (parseAnalysisLine line a, None)
  else if Js.startsWith line "bestmove" then finalizeAnalysis_start a
  else (a, None).

(** What happens meanwhile asks for no explanation of its own and leaves
    the cache client as it is. *)
Definition elsewhere (w : App -> App) : Prop :=
  forall x, requested (w x) = requested x /\ supabaseClient (w x) = supabaseClient x.

(** What happens meanwhile does not write the page. *)
Definition off_page (w : App -> App) : Prop := forall x, dom (w x) = dom x.

End Asynchronous.

(* ================================================================== *)
(** ** Facts about strings and numbers *)
(* ================================================================== *)

Module JsFacts.
Import Js.

Lemma split_head_nonempty sep s : split sep s <> [].
Proof. destruct s as [|c s]; simpl; [easy|]. destruct (Ascii.eqb c sep); [easy|]. now destruct (split sep s). Qed.

Lemma first_split_no_sep sep b :
  all_chars (fun c => negb (Ascii.eqb c sep)) b = true -> first (split sep b) = b.
Proof.
  induction b as [|c b IH]; simpl; [reflexivity|].
  intros H. apply andb_prop in H as [Hc Hb].
  apply negb_true_iff in Hc. rewrite Hc.
  specialize (IH Hb). destruct (split sep b) as [|f fs] eqn:E.
  - now apply split_head_nonempty in E.
  - simpl in *. now subst.
Qed.

Lemma first_split_field sep b rest :
  all_chars (fun c => negb (Ascii.eqb c sep)) b = true ->
  first (split sep (b ++ String sep rest)) = b.
Proof.
  induction b as [|c b IH]; simpl.
  - intros _. now rewrite Ascii.eqb_refl.
  - intros H. apply andb_prop in H as [Hc Hb].
    apply negb_true_iff in Hc. rewrite Hc.
    specialize (IH Hb). destruct (split sep (b ++ String sep rest)) as [|f fs] eqn:E.
    + now apply split_head_nonempty in E.
    + simpl in *. now subst.
Qed.

Lemma take_while_all p s : all_chars p s = true -> take_while p s = s.
Proof.
  induction s as [|c s IH]; simpl; [reflexivity|].
  intros H. apply andb_prop in H as [-> Hs]. now rewrite IH.
Qed.

Lemma take_while_stop p s c r :
  all_chars p s = true -> p c = false -> take_while p (s ++ String c r) = s.
Proof.
  induction s as [|d s IH]; simpl; intros H Hc.
  - now rewrite Hc.
  - apply andb_prop in H as [-> Hs]. now rewrite IH.
Qed.

Lemma drop_while_stop p s c r :
  all_chars p s = true -> p c = false -> drop_while p (s ++ String c r) = String c r.
Proof.
  induction s as [|d s IH]; simpl; intros H Hc.
  - now rewrite Hc.
  - apply andb_prop in H as [-> Hs]. now rewrite IH.
Qed.

Lemma uint_digits d : all_chars is_digit (NilEmpty.string_of_uint d) = true.
Proof. induction d; simpl; auto. Qed.

Lemma to_uint_nonnil n : N.to_uint n <> Decimal.Nil.
Proof. destruct n; simpl; [easy|]. apply DecimalPos.Unsigned.to_uint_nonnil. Qed.

Lemma string_of_N_digits n : all_chars is_digit (string_of_N n) = true.
Proof.
  unfold string_of_N, NilZero.string_of_uint.
  destruct (N.to_uint n) eqn:E; try (rewrite <- E; apply uint_digits).
  reflexivity.
Qed.

Lemma string_of_N_truthy n : truthy (string_of_N n) = true.
Proof.
  unfold string_of_N, NilZero.string_of_uint.
  destruct (N.to_uint n); reflexivity.
Qed.

Lemma digits_value_string_of_N n : digits_value (string_of_N n) = Some n.
Proof.
  unfold digits_value, string_of_N.
  rewrite NilZero.usu by apply to_uint_nonnil.
  simpl. now rewrite DecimalN.Unsigned.of_to.
Qed.

Lemma unsigned_int_string_of_N n : unsigned_int (string_of_N n) = Some n.
Proof.
  unfold unsigned_int. rewrite take_while_all by apply string_of_N_digits.
  apply digits_value_string_of_N.
Qed.

Lemma parseInt_digit_start c s :
  is_digit c = true -> parseInt (String c s) = option_map Z.of_N (unsigned_int (String c s)).
Proof.
  destruct c as [[|] [|] [|] [|] [|] [|] [|] [|]]; intros H;
    try discriminate H; reflexivity.
Qed.

Lemma parseFloat_digit_start c s :
  is_digit c = true -> parseFloat (String c s) = unsigned_decimal (String c s).
Proof.
  destruct c as [[|] [|] [|] [|] [|] [|] [|] [|]]; intros H;
    try discriminate H; reflexivity.
Qed.

Lemma startsWith_M_digit_start c s : is_digit c = true -> startsWith (String c s) "M" = false.
Proof.
  destruct c as [[|] [|] [|] [|] [|] [|] [|] [|]]; intros H;
    try discriminate H; reflexivity.
Qed.

(** A printed natural number starts with a digit. *)
Lemma string_of_N_head n : exists c s, string_of_N n = String c s /\ is_digit c = true.
Proof.
  pose proof (string_of_N_digits n) as D. pose proof (string_of_N_truthy n) as T.
  destruct (string_of_N n) as [|c s]; [discriminate|].
  exists c, s. split; [reflexivity|]. simpl in D. now apply andb_prop in D as [? _].
Qed.

Lemma string_of_Z_nonneg z : (0 <= z)%Z -> string_of_Z z = string_of_N (Z.to_N z).
Proof. destruct z; [reflexivity|reflexivity|lia]. Qed.

Lemma string_of_Z_neg p : string_of_Z (Zneg p) = String "-" (string_of_N (Npos p)).
Proof. reflexivity. Qed.

(** Printing an integer and reading it back with [parseInt]. *)
Lemma parseInt_string_of_Z z : parseInt (string_of_Z z) = Some z.
Proof.
  destruct z as [|p|p].
  - reflexivity.
  - rewrite string_of_Z_nonneg by lia.
    destruct (string_of_N_head (Z.to_N (Zpos p))) as (c & s & E & D).
    rewrite E, parseInt_digit_start by exact D. rewrite <- E.
    now rewrite unsigned_int_string_of_N.
  - rewrite string_of_Z_neg. cbn [parseInt].
    now rewrite unsigned_int_string_of_N.
Qed.

Lemma two_digits_value d1 d2 :
  (d1 < 10)%N -> (d2 < 10)%N ->
  let s := String (digit_char d1) (String (digit_char d2) EmptyString) in
  all_chars is_digit s = true /\ digits_or_zero s = (10 * d1 + d2)%N.
Proof.
  intros H1 H2.
  assert (E1 : In d1 [0;1;2;3;4;5;6;7;8;9]%N).
  { destruct d1 as [|p]; [now left|].
    do 10 (destruct p as [p|p|]; try lia; simpl; auto 12). }
  assert (E2 : In d2 [0;1;2;3;4;5;6;7;8;9]%N).
  { destruct d2 as [|p]; [now left|].
    do 10 (destruct p as [p|p|]; try lia; simpl; auto 12). }
  simpl in E1, E2.
  repeat (destruct E1 as [<-|E1]); try contradiction;
    repeat (destruct E2 as [<-|E2]); try contradiction; now vm_compute.
Qed.

(** The value that [parseFloat] reads from the two-decimal rendering of
    [a / 100]. *)
Lemma unsigned_decimal_two_decimals a :
  let s := (string_of_N (a / 100) ++ "."
              ++ String (digit_char ((a mod 100) / 10))
                   (String (digit_char (a mod 10)) EmptyString))%string in
  unsigned_decimal s = Some (Qmake (Z.of_N a) 100).
Proof.
  intros s. subst s. unfold unsigned_decimal.
  assert (Hd : is_digit "." = false) by reflexivity.
  change ("." ++ ?x)%string with (String "." x).
  rewrite take_while_stop, drop_while_stop by (auto using string_of_N_digits).
  assert (B1 : ((a mod 100) / 10 < 10)%N).
  { apply N.Div0.div_lt_upper_bound. pose proof (N.mod_upper_bound a 100). lia. }
  assert (B2 : (a mod 10 < 10)%N) by (apply N.mod_upper_bound; lia).
  destruct (two_digits_value _ _ B1 B2) as [D V].
  rewrite (take_while_all _ _ D), V.
  rewrite string_of_N_truthy. cbn [negb andb].
  unfold digits_or_zero at 1. rewrite digits_value_string_of_N.
  cbn [String.length].
  change (10 ^ N.of_nat 2)%N with 100%N.
  change (Pos.of_nat (N.to_nat 100)) with 100%positive.
  do 2 f_equal.
  f_equal.
  pose proof (N.div_mod a 100 ltac:(lia)) as E1.
  pose proof (N.div_mod (a mod 100) 10 ltac:(lia)) as E2.
  assert (E3 : ((a mod 100) mod 10 = a mod 10)%N).
  { change 100%N with (10 * 10)%N. rewrite N.Div0.mod_mul_r.
    rewrite N.mul_comm, N.Div0.mod_add. apply N.Div0.mod_mod. }
  lia.
Qed.

End JsFacts.

(* ================================================================== *)
(** ** Facts about the patterns of a progress line *)
(* ================================================================== *)

Module RegexFacts.
Import Js Regex JsFacts.

Lemma star_inv {A} p (k : string -> option A) s c :
  star p s k = Some c ->
  exists pre rest, s = (pre ++ rest)%string /\ all_chars p pre = true /\ k rest = Some c.
Proof.
  induction s as [|a s IH]; simpl.
  - intros H. exists EmptyString, EmptyString. auto.
  - destruct (p a) eqn:Pa.
    + destruct (star p s k) as [c'|] eqn:S; simpl.
      * intros [= <-]. destruct (IH eq_refl) as (pre & rest & -> & Hp & Hk).
        exists (String a pre), rest. simpl. rewrite Pa. auto.
      * intros H. exists EmptyString, (String a s). auto.
    + intros H. exists EmptyString, (String a s). auto.
Qed.

Lemma length_append x r : String.length (x ++ r) = (String.length x + String.length r)%nat.
Proof. induction x as [|a x IH]; simpl; [reflexivity|]. now rewrite IH. Qed.

Lemma substring_prefix x r : String.substring 0 (String.length x) (x ++ r) = x.
Proof.
  induction x as [|a x IH]; simpl.
  - now destruct r.
  - now rewrite IH.
Qed.

Lemma consumed_app x r : consumed (x ++ r) r = x.
Proof.
  unfold consumed. rewrite length_append.
  replace (String.length x + String.length r - String.length r)%nat
    with (String.length x) by lia.
  apply substring_prefix.
Qed.

Lemma strip_prefix_app p : forall s rest, strip_prefix p s = Some rest -> s = (p ++ rest)%string.
Proof.
  induction p as [|a p IH]; intros s rest; simpl.
  - now intros [= ->].
  - destruct s as [|b s]; [discriminate|].
    destruct (Ascii.eqb_spec a b) as [->|]; [|discriminate].
    intros H. now rewrite (IH _ _ H).
Qed.

Lemma match_first_inv r : forall s c,
  match_first r s = Some c -> exists s', match_anchored r s' = Some c.
Proof.
  induction s as [|a s IH]; intros c; simpl.
  - destruct (match_anchored r "") eqn:M; [|discriminate].
    intros [= <-]. eauto.
  - destruct (match_anchored r (String a s)) eqn:M.
    + intros [= <-]. eauto.
    + apply IH.
Qed.

Lemma digit_char_parses c d :
  is_digit c = true -> exists d', uint_of_char c (Some d) = Some d'.
Proof.
  destruct c as [[|] [|] [|] [|] [|] [|] [|] [|]]; intros H;
    try discriminate H; eexists; reflexivity.
Qed.

Lemma digits_parse s :
  all_chars is_digit s = true -> exists d, NilEmpty.uint_of_string s = Some d.
Proof.
  induction s as [|c s IH]; simpl.
  - eauto.
  - intros H. apply andb_prop in H as [Hc Hs].
    destruct (IH Hs) as [d ->]. now apply digit_char_parses.
Qed.

(** A non-empty run of digits is a number. *)
Lemma unsigned_int_digits c s :
  is_digit c = true -> all_chars is_digit s = true ->
  exists n, unsigned_int (String c s) = Some n.
Proof.
  intros Hc Hs. unfold unsigned_int.
  rewrite take_while_all by (simpl; now rewrite Hc, Hs).
  unfold digits_value, NilZero.uint_of_string.
  destruct (digits_parse (String c s)) as [d ->]; [simpl; now rewrite Hc, Hs|].
  simpl. eauto.
Qed.

(** The group of a pattern [<literal>(\d+)] holds a number. *)
Lemma number_group lit s c :
  match_first (Lit lit >> Group 1 (Plus is_digit))%re s = Some c ->
  exists d n, group 1 c = Some d /\ parseInt d = Some (Z.of_N n).
Proof.
  intros H. apply match_first_inv in H as [s' H].
  unfold match_anchored in H. cbn [exec] in H.
  destruct (strip_prefix lit s') as [rest|]; [|discriminate].
  destruct rest as [|a t]; [discriminate|].
  destruct (is_digit a) eqn:Da; [|discriminate].
  apply star_inv in H as (pre & r & -> & Hp & [= <-]).
  change (String a (pre ++ r)) with (String a pre ++ r)%string.
  rewrite consumed_app. cbn [group Nat.eqb].
  destruct (unsigned_int_digits a pre Da Hp) as [n Hn].
  exists (String a pre), n. split; [reflexivity|].
  now rewrite parseInt_digit_start, Hn.
Qed.

(** The groups of the score pattern: the kind, and a number. *)
Lemma score_groups s c :
  match_first scoreRe s = Some c ->
  exists ty v z, group 1 c = Some ty /\ (ty = "cp" \/ ty = "mate")
                 /\ group 2 c = Some v /\ parseInt v = Some z.
Proof.
  intros H. apply match_first_inv in H as [s' H].
  unfold match_anchored, scoreRe in H. cbn [exec] in H.
  destruct (strip_prefix "score " s') as [s1|]; [|discriminate].
  assert (K : forall ty s2,
             s1 = (ty ++ s2)%string -> ty = "cp" \/ ty = "mate" ->
             match strip_prefix " " s2 with
             | Some rest =>
                 orelse
                   match strip_prefix "-" rest with
                   | Some rest0 =>
                       match rest0 with
                       | "" => None
                       | String a s'0 =>
                           if is_digit a
                           then star is_digit s'0
                                  (fun rest1 =>
                                     Some [(2, consumed rest rest1); (1, consumed s1 s2)])
                           else None
                       end
                   | None => None
                   end
                   match rest with
                   | "" => None
                   | String a s'0 =>
                       if is_digit a
                       then star is_digit s'0
                              (fun rest0 =>
                                 Some [(2, consumed rest rest0); (1, consumed s1 s2)])
                       else None
                   end
             | None => None
             end = Some c ->
             exists ty v z, group 1 c = Some ty /\ (ty = "cp" \/ ty = "mate")
                            /\ group 2 c = Some v /\ parseInt v = Some z).
  { intros ty s2 -> Hty. rewrite consumed_app.
    destruct (strip_prefix " " s2) as [rest|]; [|discriminate].
    assert (P : forall r0,
               match r0 with
               | "" => None
               | String a s'0 =>
                   if is_digit a
                   then star is_digit s'0
                          (fun rest1 => Some [(2, consumed rest rest1); (1, ty)])
                   else None
               end = Some c ->
               exists ds n rest1, r0 = (ds ++ rest1)%string
                                  /\ unsigned_int ds = Some n
                                  /\ (exists a t, ds = String a t /\ is_digit a = true)
                                  /\ c = [(2, consumed rest rest1); (1, ty)]).
    { intros [|a t]; [discriminate|].
      destruct (is_digit a) eqn:Da; [|discriminate].
      intros X. apply star_inv in X as (pre & r & -> & Hp & [= <-]).
      destruct (unsigned_int_digits a pre Da Hp) as [n Hn].
      exists (String a pre), n, r. repeat split; eauto. }
    destruct (strip_prefix "-" rest) as [r0|] eqn:Minus.
    - apply strip_prefix_app in Minus. subst rest.
      destruct (match r0 with "" => None | String a s'0 => _ end) as [c'|] eqn:First.
      + cbn [orelse]. intros [= <-].
        destruct (P r0 First) as (ds & n & rest1 & -> & Hn & _ & ->).
        exists ty, (String "-" ds), (- Z.of_N n)%Z.
        cbn [group Nat.eqb]. repeat split; auto.
        * f_equal. change ("-" ++ ds ++ rest1)%string with ((String "-" ds) ++ rest1)%string.
          apply consumed_app.
        * cbn [parseInt]. now rewrite Hn.
      + cbn [orelse]. discriminate.
    - cbn [orelse]. intros X.
      destruct (P rest X) as (ds & n & rest1 & -> & Hn & (a & t & -> & Da) & ->).
      exists ty, (String a t), (Z.of_N n).
      cbn [group Nat.eqb]. repeat split; auto.
      * f_equal. apply consumed_app.
      * now rewrite parseInt_digit_start, Hn. }
  match type of H with orelse ?x ?y = _ => destruct x as [c1|] eqn:X1 end.
  - cbn [orelse] in H. injection H as <-.
    destruct (strip_prefix "cp" s1) as [r|] eqn:Cp; [|discriminate].
    apply strip_prefix_app in Cp. eapply K; [exact Cp|now left|exact X1].
  - cbn [orelse] in H.
    destruct (strip_prefix "mate" s1) as [r|] eqn:Mt; [|discriminate].
    apply strip_prefix_app in Mt. eapply K; [exact Mt|now right|exact H].
Qed.

(** The group of the principal variation is defined. *)
Lemma pv_group s c : match_first pvRe s = Some c -> exists p, group 1 c = Some p.
Proof.
  intros H. apply match_first_inv in H as [s' H].
  unfold match_anchored, pvRe in H. cbn [exec] in H.
  destruct (strip_prefix " pv " s') as [rest|]; [|discriminate].
  destruct rest as [|a t]; [discriminate|].
  destruct (is_dot a); [|discriminate].
  apply star_inv in H as (pre & r & _ & _ & [= <-]).
  cbn [group Nat.eqb]. eauto.
Qed.

End RegexFacts.

Section Fields.

Import Regex.

(** The early return of [parseAnalysisLine] is taken exactly when one of
    the four patterns does not match: the groups of a match are defined and
    their digits are numbers. *)
Lemma parseFields_of_matches line :
  parseFields line = None <->
  match_first depthRe line = None \/ match_first multipvRe line = None
  \/ match_first scoreRe line = None \/ match_first pvRe line = None.
Proof.
  unfold parseFields.
  destruct (match_first depthRe line) as [dm|] eqn:D; [|intuition].
  destruct (match_first multipvRe line) as [mm|] eqn:M; [|intuition].
  destruct (match_first scoreRe line) as [sm|] eqn:S; [|intuition].
  destruct (match_first pvRe line) as [pm|] eqn:P; [|intuition].
  destruct (RegexFacts.number_group _ _ _ D) as (d & n1 & -> & ->).
  destruct (RegexFacts.number_group _ _ _ M) as (m & n2 & -> & ->).
  destruct (RegexFacts.score_groups _ _ S) as (ty & v & z & -> & _ & -> & ->).
  destruct (RegexFacts.pv_group _ _ P) as (p & ->).
  split; [discriminate|]. intros [H|[H|[H|H]]]; discriminate.
Qed.

(** The fields of a parsed line: depth and rank are not negative and the
    score is in centipawns or a mate. *)
Lemma parseFields_ranges line f :
  parseFields line = Some f ->
  (0 <= f_depth f)%Z /\ (0 <= f_multipv f)%Z
  /\ (f_scoreType f = "cp" \/ f_scoreType f = "mate").
Proof.
  unfold parseFields.
  destruct (match_first depthRe line) as [dm|] eqn:D; [|discriminate].
  destruct (match_first multipvRe line) as [mm|] eqn:M; [|discriminate].
  destruct (match_first scoreRe line) as [sm|] eqn:S; [|discriminate].
  destruct (match_first pvRe line) as [pm|] eqn:P; [|discriminate].
  destruct (RegexFacts.number_group _ _ _ D) as (d & n1 & -> & ->).
  destruct (RegexFacts.number_group _ _ _ M) as (m & n2 & -> & ->).
  destruct (RegexFacts.score_groups _ _ S) as (ty & v & z & -> & Ty & -> & ->).
  destruct (RegexFacts.pv_group _ _ P) as (p & ->).
  intros [= <-]. cbn. repeat split; try lia. exact Ty.
Qed.

End Fields.

(* ================================================================== *)
(** ** The aggregator: progress lines *)
(* ================================================================== *)

Section Aggregator.

Context {rules : RulesEngine} {services : Services}.

Lemma obj_get_set_same {A} k (v : A) o : obj_get k (obj_set k v o) = Some v.
Proof.
  induction o as [|[k' v'] o IH]; simpl.
  - now rewrite Z.eqb_refl.
  - destruct (k <? k')%Z eqn:L; simpl.
    + now rewrite Z.eqb_refl.
    + destruct (k =? k')%Z eqn:E; simpl; rewrite ?Z.eqb_refl, ?E; auto.
Qed.

(** [updateAnalysisDisplay] writes the page and [currentAnalysis] only. *)
Lemma sort_insert_perm {A} (cmp : A -> A -> Q) x l :
  Permutation (sort_insert cmp x l) (x :: l).
Proof.
  induction l as [|y l IH]; simpl; [reflexivity|].
  destruct (Qle_bool _ _); [reflexivity|].
  rewrite IH. apply perm_swap.
Qed.

Lemma sort_perm {A} (cmp : A -> A -> Q) l : Permutation (sort cmp l) l.
Proof.
  unfold sort. induction l as [|x l IH]; simpl; [reflexivity|].
  rewrite sort_insert_perm. now constructor.
Qed.

Lemma updateAnalysisDisplay_core a :
  let a' := updateAnalysisDisplay a in
  analysisLines a' = analysisLines a /\ currentDepth a' = currentDepth a
  /\ game a' = game a /\ rt a' = rt a /\ board a' = board a
  /\ analysisTimeout a' = analysisTimeout a
  /\ engineDepth (dom a') = LblDepth (currentDepth a).
Proof.
  unfold updateAnalysisDisplay.
  destruct (sort compareMoves (obj_values (analysisLines _))); cbn; auto 10.
Qed.

Lemma parseAnalysisLine_unparsed line a :
  parseFields line = None -> parseAnalysisLine line a = a.
Proof. unfold parseAnalysisLine. now intros ->. Qed.

Lemma parseAnalysisLine_shallow line f a :
  parseFields line = Some f -> (f_depth f < currentDepth a)%Z ->
  parseAnalysisLine line a = a.
Proof.
  unfold parseAnalysisLine. intros -> H.
  apply Z.leb_gt in H. now rewrite H.
Qed.

(** A line whose first move is refused leaves its depth behind. *)
Lemma parseAnalysisLine_illegal line f a :
  parseFields line = Some f -> (currentDepth a <= f_depth f)%Z ->
  legal_now (Js.first (f_pv f)) a = false ->
  parseAnalysisLine line a = set_currentDepth (f_depth f) a.
Proof.
  unfold parseAnalysisLine, legal_now. intros -> H L.
  apply Z.leb_le in H. rewrite H. cbn [game set_currentDepth].
  now destruct (chess_move _ _ _ _).
Qed.

Lemma parseAnalysisLine_accepted line f a san g :
  parseFields line = Some f -> (currentDepth a <= f_depth f)%Z ->
  chess_move (Chess_new (chess_fen (game a))) (uci_from (Js.first (f_pv f)))
             (uci_to (Js.first (f_pv f))) (uci_promotion (Js.first (f_pv f))) = Some (san, g) ->
  let stored :=
    set_analysisLines
      (obj_set (f_multipv f) (entry_of f san (chess_turn (game a))) (analysisLines a))
      (set_currentDepth (f_depth f) a) in
  parseAnalysisLine line a =
    if (10 <=? f_depth f)%Z && (f_depth f mod 2 =? 0)%Z
    then updateAnalysisDisplay stored else stored.
Proof.
  unfold parseAnalysisLine. intros -> H M.
  apply Z.leb_le in H. rewrite H. cbn [game set_currentDepth]. now rewrite M.
Qed.

Lemma obj_get_values {A} k (o : IntObj A) e : obj_get k o = Some e -> In e (obj_values o).
Proof.
  induction o as [|[k' v'] o IH]; simpl; [discriminate|].
  destruct (k =? k')%Z; [intros [= ->]; now left|]. intros H. right. now apply IH.
Qed.

(** A publication shows every stored line: it is in the ranked list handed
    to the explanations and has an element in the candidate list, with its
    move and its evaluation. *)
Lemma shown_entry a k e :
  obj_get k (analysisLines a) = Some e ->
  let a' := updateAnalysisDisplay a in
  In e (currentAnalysis a')
  /\ exists i el, explanation_el i a' = Some el
       /\ item_uci el = l_uci e /\ item_notation el = l_move e /\ item_eval el = l_eval e.
Proof.
  intros G. cbv zeta. unfold updateAnalysisDisplay.
  change (analysisLines (page ?f a)) with (analysisLines a).
  assert (I : In e (sort compareMoves (obj_values (analysisLines a)))).
  { eapply Permutation_in; [symmetry; apply sort_perm|]. eapply obj_get_values; eassumption. }
  destruct (sort compareMoves (obj_values (analysisLines a))) as [|best rest] eqn:E;
    [destruct I|].
  split; [exact I|].
  destruct (In_nth_error _ _ I) as [i Hi].
  exists i. eexists. split.
  - unfold explanation_el. cbn [page set_dom dom dom_moveList moveList].
    apply map_nth_error. exact Hi.
  - cbn. auto.
Qed.

(** An accepted line that is not published leaves the page as it is. *)
Lemma stored_only line f a san g :
  parseFields line = Some f -> (currentDepth a <= f_depth f)%Z ->
  chess_move (Chess_new (chess_fen (game a))) (uci_from (Js.first (f_pv f)))
             (uci_to (Js.first (f_pv f))) (uci_promotion (Js.first (f_pv f))) = Some (san, g) ->
  (f_depth f < 10)%Z \/ (f_depth f mod 2 <> 0)%Z ->
  dom (parseAnalysisLine line a) = dom a
  /\ currentAnalysis (parseAnalysisLine line a) = currentAnalysis a.
Proof.
  intros F D M O. rewrite (parseAnalysisLine_accepted _ _ _ _ _ F D M).
  assert (C : (10 <=? f_depth f)%Z && (f_depth f mod 2 =? 0)%Z = false).
  { destruct O as [O|O].
    - apply andb_false_intro1. now apply Z.leb_gt.
    - apply andb_false_intro2. now apply Z.eqb_neq. }
  rewrite C. split; reflexivity.
Qed.

(** An accepted line of even depth 10 or more is published at once. *)
Lemma stored_and_shown line f a san g :
  parseFields line = Some f -> (currentDepth a <= f_depth f)%Z ->
  chess_move (Chess_new (chess_fen (game a))) (uci_from (Js.first (f_pv f)))
             (uci_to (Js.first (f_pv f))) (uci_promotion (Js.first (f_pv f))) = Some (san, g) ->
  (10 <= f_depth f)%Z -> (f_depth f mod 2 = 0)%Z ->
  let e := entry_of f san (chess_turn (game a)) in
  let a' := parseAnalysisLine line a in
  engineDepth (dom a') = LblDepth (f_depth f)
  /\ In e (currentAnalysis a')
  /\ exists i el, explanation_el i a' = Some el
       /\ item_uci el = l_uci e /\ item_notation el = l_move e /\ item_eval el = l_eval e.
Proof.
  intros F D M T E. cbv zeta. rewrite (parseAnalysisLine_accepted _ _ _ _ _ F D M).
  assert (C : (10 <=? f_depth f)%Z && (f_depth f mod 2 =? 0)%Z = true).
  { apply andb_true_intro. split; [now apply Z.leb_le|now apply Z.eqb_eq]. }
  rewrite C.
  set (stored := set_analysisLines _ _).
  destruct (updateAnalysisDisplay_core stored) as (_ & _ & _ & _ & _ & _ & L).
  split; [exact L|].
  apply (shown_entry stored (f_multipv f)).
  subst stored. cbn [analysisLines set_analysisLines]. apply obj_get_set_same.
Qed.

(** The four outcomes of a progress line. *)
Lemma parseAnalysisLine_cases line a :
  parseAnalysisLine line a = a
  \/ (exists f, parseFields line = Some f /\ (currentDepth a <= f_depth f)%Z
        /\ legal_now (Js.first (f_pv f)) a = false
        /\ parseAnalysisLine line a = set_currentDepth (f_depth f) a)
  \/ (exists f san stored,
        parseFields line = Some f /\ (currentDepth a <= f_depth f)%Z
        /\ legal_now (Js.first (f_pv f)) a = true
        /\ stored = set_analysisLines
             (obj_set (f_multipv f) (entry_of f san (chess_turn (game a))) (analysisLines a))
             (set_currentDepth (f_depth f) a)
        /\ (parseAnalysisLine line a = stored
            \/ parseAnalysisLine line a = updateAnalysisDisplay stored)).
Proof.
  destruct (parseFields line) as [f|] eqn:F.
  2:{ left. now apply parseAnalysisLine_unparsed. }
  destruct (Z.lt_ge_cases (f_depth f) (currentDepth a)) as [S|D].
  { left. eapply parseAnalysisLine_shallow; eauto. }
  right.
  destruct (chess_move (Chess_new (chess_fen (game a))) (uci_from (Js.first (f_pv f)))
              (uci_to (Js.first (f_pv f))) (uci_promotion (Js.first (f_pv f))))
    as [[san g]|] eqn:M.
  - right. exists f, san. eexists. repeat split; eauto.
    + unfold legal_now. now rewrite M.
    + rewrite (parseAnalysisLine_accepted _ _ _ _ _ F D M).
      destruct (_ && _); auto.
  - left. exists f. repeat split; auto.
    + unfold legal_now. now rewrite M.
    + apply parseAnalysisLine_illegal; auto. unfold legal_now. now rewrite M.
Qed.

End Aggregator.

(* ================================================================== *)
(** ** The explanation pipeline *)
(* ================================================================== *)

Section Pipeline.

Context {rules : RulesEngine} {services : Services}.

Lemma page_eta a : page (dom_moveItems (moveList (dom a))) a = a.
Proof. destruct a as [? ? ? ? ? ? ? ? ? ? [] ?]; reflexivity. Qed.

Lemma with_el_page i f a :
  with_el i f a = page (dom_moveItems (ml_upd i f (moveList (dom a)))) a.
Proof.
  unfold with_el, ml_upd. destruct (moveList (dom a)) as [msg|l] eqn:E.
  - now rewrite <- E, page_eta.
  - destruct (nth_error l i); [reflexivity|]. now rewrite <- E, page_eta.
Qed.

Lemma nth_error_update {A} (l : list A) i j x :
  nth_error (list_update i x l) j =
    if Nat.eqb j i then option_map (fun _ => x) (nth_error l j) else nth_error l j.
Proof.
  revert i j. induction l as [|y l IH]; intros [|i] [|j]; simpl; auto.
  now destruct (Nat.eqb j i).
Qed.

Lemma ml_get_upd i j f ml :
  ml_get j (ml_upd i f ml) =
    if Nat.eqb j i then option_map f (ml_get j ml) else ml_get j ml.
Proof.
  destruct ml as [msg|l]; simpl.
  - now destruct (Nat.eqb j i).
  - destruct (nth_error l i) as [el|] eqn:E; simpl.
    + rewrite nth_error_update. destruct (Nat.eqb_spec j i) as [->|]; [|reflexivity].
      now rewrite E.
    + destruct (Nat.eqb_spec j i) as [->|]; [|reflexivity]. now rewrite E.
Qed.

(** The element [j] after a loop of writes: the write of the move at
    position [j], if the loop has one. *)
Lemma ml_get_each {A} (g : A -> option (MoveItem -> MoveItem)) ms : forall i j ml,
  ml_get j (ml_each g i ms ml) =
    match (if (i <=? j)%nat then nth_error ms (j - i) else None) with
    | Some m =>
        match g m with
        | Some h => option_map h (ml_get j ml)
        | None => ml_get j ml
        end
    | None => ml_get j ml
    end.
Proof.
  induction ms as [|m ms IH]; intros i j ml; cbn [ml_each].
  - destruct (i <=? j)%nat; [now destruct (j - i)%nat|reflexivity].
  - rewrite IH.
    assert (E : ml_get j match g m with Some h => ml_upd i h ml | None => ml end
                = if Nat.eqb j i
                  then match g m with
                       | Some h => option_map h (ml_get j ml)
                       | None => ml_get j ml
                       end
                  else ml_get j ml).
    { destruct (g m); [apply ml_get_upd|now destruct (Nat.eqb j i)]. }
    destruct (Nat.lt_trichotomy j i) as [Hlt|[->|Hgt]].
    + rewrite (proj2 (Nat.leb_gt i j)), (proj2 (Nat.leb_gt (S i) j)) by lia.
      rewrite E, (proj2 (Nat.eqb_neq j i)) by lia. reflexivity.
    + rewrite Nat.leb_refl, Nat.sub_diag, (proj2 (Nat.leb_gt (S i) i)) by lia.
      cbn [nth_error]. rewrite E, Nat.eqb_refl. reflexivity.
    + rewrite (proj2 (Nat.leb_le i j)), (proj2 (Nat.leb_le (S i) j)) by lia.
      replace (j - i)%nat with (S (j - S i)) by lia. cbn [nth_error].
      rewrite E, (proj2 (Nat.eqb_neq j i)) by lia. reflexivity.
Qed.

(** A loop whose body writes to the element of its move. *)
Lemma forEach_from_page {A} (f : A -> nat -> App -> App) g :
  (forall m i a, f m i a = match g m with Some h => with_el i h a | None => a end) ->
  forall ms i a,
    forEach_from i f ms a = page (dom_moveItems (ml_each g i ms (moveList (dom a)))) a.
Proof.
  intros Hf. induction ms as [|m ms IH]; intros i a; simpl.
  - now rewrite page_eta.
  - rewrite IH, Hf. destruct (g m); [|reflexivity].
    now rewrite with_el_page.
Qed.

Lemma list_update_twice {A} (l : list A) i x y :
  list_update i y (list_update i x l) = list_update i y l.
Proof. revert i. induction l as [|z l IH]; intros [|i]; simpl; auto. now rewrite IH. Qed.

Lemma ml_upd_twice i f g ml :
  ml_upd i g (ml_upd i f ml) = ml_upd i (fun el => g (f el)) ml.
Proof.
  destruct ml as [msg|l]; simpl; [reflexivity|].
  destruct (nth_error l i) as [el|] eqn:E; simpl.
  - rewrite nth_error_update, Nat.eqb_refl, E. simpl. now rewrite list_update_twice.
  - now rewrite E.
Qed.

Lemma with_el_on_page i f ml a :
  with_el i f (page (dom_moveItems ml) a) = page (dom_moveItems (ml_upd i f ml)) a.
Proof. now rewrite with_el_page. Qed.

(** The cache loop: its writes, the cached explanations and the moves
    left to explain. *)
Lemma checkCache_spec a0 : forall ms i ml c u,
  checkCache (chess_fen (game a0)) i ms (page (dom_moveItems ml) a0, c, u) =
    (page (dom_moveItems (ml_each (cache_write a0) i ms ml)) a0,
     cache_collect a0 ms c,
     u ++ filter (is_uncached a0) ms).
Proof.
  induction ms as [|m ms IH]; intros i ml c u.
  - simpl. now rewrite app_nil_r.
  - cbn [checkCache ml_each cache_collect filter].
    rewrite with_el_on_page.
    unfold is_uncached, cache_write, cache_hit.
    change (getExplanationFromCache (page _ a0)) with (getExplanationFromCache a0).
    destruct (getExplanationFromCache a0 (chess_fen (game a0)) (l_move m)) as [[|ch t]|].
    + rewrite with_el_on_page, ml_upd_twice, IH, <- app_assoc. reflexivity.
    + rewrite with_el_on_page, ml_upd_twice, IH. reflexivity.
    + rewrite with_el_on_page, ml_upd_twice, IH, <- app_assoc. reflexivity.
Qed.

Lemma save_all_dom fen new u : forall a, dom (save_all fen new u a) = dom a.
Proof.
  unfold save_all. induction u as [|m u IH]; intros a; simpl; [reflexivity|].
  rewrite IH. destruct (sobj_truthy _ _); [|reflexivity].
  unfold saveExplanationToCache. now destruct (supabaseClient a).
Qed.

(** [fetchExplanations] with a key and candidates, step by step. *)
Lemma fetchExplanations_run a :
  Js.truthy (apiKey a) = true -> currentAnalysis a <> [] ->
  let moves := firstn 4 (currentAnalysis a) in
  let busy := page (dom_explainBtn true "Explaining...") a in
  let checked := page (dom_moveItems (ml_each (cache_write a) 0 moves (moveList (dom a)))) busy in
  let cached := cache_collect a moves [] in
  let uncached := filter (is_uncached a) moves in
  let prompt := explanationPrompt (chess_fen (game a)) (turn_name a) uncached in
  fetchExplanations a =
    page (dom_explainBtn false "Explain Moves")
      match uncached with
      | [] => checked
      | _ :: _ =>
          let asked := emit (ClaudeRequest configuredModel prompt) checked in
          match messages_api configuredModel prompt with
          | ApiText text =>
              let new := parseExplanations text in
              let saved := save_all (chess_fen (game a)) new uncached asked in
              page (dom_moveItems
                      (ml_each (success_write (sobj_spread cached new)) 0 moves
                         (moveList (dom saved)))) saved
          | ApiFailure =>
              page (dom_moveItems
                      (ml_each (failure_write cached) 0 moves (moveList (dom asked)))) asked
          end
      end.
Proof.
  intros K N. cbv zeta. unfold fetchExplanations. rewrite K. cbn [negb].
  destruct (currentAnalysis a) as [|m0 rest] eqn:E; [contradiction|].
  rewrite <- E.
  set (busy := page (dom_explainBtn true "Explaining...") a).
  set (moves := firstn 4 (currentAnalysis busy)).
  pose proof (checkCache_spec busy moves 0 (moveList (dom busy)) [] []) as H.
  rewrite page_eta in H.
  destruct (checkCache _ _ _ _) as [[a1 c1] u1].
  injection H as -> -> ->.
  change (firstn 4 (currentAnalysis a)) with moves.
  change (filter (is_uncached a) moves) with (filter (is_uncached busy) moves).
  destruct (filter (is_uncached busy) moves) as [|u us]; [reflexivity|].
  f_equal.
  change (explanationPrompt (chess_fen (game a)) (turn_name a) (u :: us))
    with (explanationPrompt (chess_fen (game busy))
            match chess_turn (game busy) with White => "White" | Black => "Black" end
            (u :: us)).
  assert (CW : cache_write busy = cache_write a) by reflexivity.
  assert (CCo : forall ms c, cache_collect busy ms c = cache_collect a ms c).
  { induction ms as [|m ms IHms]; intros c; simpl; [reflexivity|]. apply IHms. }
  destruct (messages_api _ _) as [text|].
  - unfold forEach. erewrite forEach_from_page.
    2:{ intros m i x.
        instantiate (1 := success_write
                            (sobj_spread (cache_collect busy moves []) (parseExplanations text))).
        reflexivity. }
    unfold save_all. rewrite CW, CCo. reflexivity.
  - unfold forEach. erewrite forEach_from_page.
    2:{ intros m i x. instantiate (1 := failure_write (cache_collect busy moves [])).
        unfold failure_write. destruct (sobj_truthy _ _); reflexivity. }
    rewrite CW, CCo. reflexivity.
Qed.
Lemma sobj_get_app k (x y : StrObj) :
  sobj_get k (x ++ y) = match sobj_get k x with Some v => Some v | None => sobj_get k y end.
Proof.
  induction x as [|[k' v] x IH]; simpl; [reflexivity|].
  now destruct (String.eqb k k').
Qed.

(** What the cache loop has collected for a key. *)
Lemma cache_collect_get a k : forall ms c,
  sobj_get k (cache_collect a ms c) =
    match (if existsb (fun m => String.eqb k (l_move m)) ms then cache_hit a k else None) with
    | Some s => Some s
    | None => sobj_get k c
    end.
Proof.
  induction ms as [|m ms IH]; intros c; cbn [cache_collect existsb]; [reflexivity|].
  rewrite IH. destruct (String.eqb_spec k (l_move m)) as [->|Hne]; cbn [orb].
  - destruct (cache_hit a (l_move m)) as [s|] eqn:Hh.
    + destruct (existsb _ ms); cbn [sobj_set sobj_get]; now rewrite ?String.eqb_refl.
    + now destruct (existsb _ ms).
  - destruct (cache_hit a (l_move m)) as [s|]; [|reflexivity].
    cbn [sobj_set sobj_get]. apply String.eqb_neq in Hne. now rewrite Hne.
Qed.

Lemma cache_hit_truthy a k s : cache_hit a k = Some s -> Js.truthy s = true.
Proof.
  unfold cache_hit. destruct (getExplanationFromCache _ _ _) as [[|c t]|]; try discriminate.
  now intros [= <-].
Qed.

Lemma cached_of_move a ms m :
  In m ms -> sobj_truthy (l_move m) (cache_collect a ms []) = cache_hit a (l_move m).
Proof.
  intros Hin. unfold sobj_truthy. rewrite cache_collect_get.
  assert (E : existsb (fun m' => String.eqb (l_move m) (l_move m')) ms = true).
  { apply existsb_exists. exists m. split; [assumption|apply String.eqb_refl]. }
  rewrite E. destruct (cache_hit a (l_move m)) as [s|] eqn:Hh; [|reflexivity].
  now rewrite (cache_hit_truthy _ _ _ Hh).
Qed.

Lemma posted_emit e a :
  posted (emit e a) = posted a ++ match e with PostMessage m => [m] | _ => [] end.
Proof. unfold posted, emit. cbn. rewrite flat_map_app. cbn. now rewrite app_nil_r. Qed.

Lemma requested_emit e a :
  requested (emit e a) = requested a ++ match e with ClaudeRequest _ p => [p] | _ => [] end.
Proof. unfold requested, emit. cbn. rewrite flat_map_app. cbn. now rewrite app_nil_r. Qed.

Lemma kept_emit e a :
  (forall m, e <> PostMessage m) -> kept (emit e a) = kept a.
Proof.
  intros H. unfold kept. rewrite posted_emit.
  destruct e; try (now rewrite app_nil_r). now destruct (H msg).
Qed.

Lemma save_all_kept fen new u : forall a,
  kept (save_all fen new u a) = kept a /\ requested (save_all fen new u a) = requested a.
Proof.
  unfold save_all. induction u as [|m u IH]; intros a; simpl; [auto|].
  destruct (IH match sobj_truthy (l_move m) new with
               | Some explanation => saveExplanationToCache fen (l_move m) explanation a
               | None => a
               end) as [-> ->].
  destruct (sobj_truthy _ _); [|auto].
  unfold saveExplanationToCache. destruct (supabaseClient a); cbn [negb]; [|auto].
  rewrite kept_emit, requested_emit by discriminate. now rewrite app_nil_r.
Qed.

Lemma kept_page_btn b t a : kept (page (dom_explainBtn b t) a) = kept a.
Proof. reflexivity. Qed.

Lemma kept_page_list ml a : kept (page (dom_moveItems ml) a) = kept a.
Proof. reflexivity. Qed.

Lemma requested_page f a : requested (page f a) = requested a.
Proof. reflexivity. Qed.

(** Fetching explanations leaves the game, the analysis and the engine
    alone. *)
Lemma fetchExplanations_kept a : kept (fetchExplanations a) = kept a.
Proof.
  destruct (Js.truthy (apiKey a)) eqn:K.
  2:{ unfold fetchExplanations. now rewrite K. }
  destruct (currentAnalysis a) as [|m0 rest] eqn:E.
  { unfold fetchExplanations. now rewrite K, E. }
  rewrite fetchExplanations_run by (rewrite ?E; easy).
  cbv zeta. rewrite kept_page_btn.
  destruct (filter _ _); [reflexivity|].
  destruct (messages_api _ _); rewrite kept_page_list.
  - rewrite (proj1 (save_all_kept _ _ _ _)). now rewrite kept_emit by discriminate.
  - now rewrite kept_emit by discriminate.
Qed.

(** Saving a key changes the key, the dialog, the candidate list and the
    requests for explanations, and nothing else. *)
Lemma kept_set_apiKey k y z : kept y = kept z -> kept (set_apiKey k y) = kept (set_apiKey k z).
Proof.
  unfold kept, posted.
  cbn [set_apiKey board game stockfish currentAnalysis apiKey analysisTimeout supabaseClient
       analysisLines currentDepth previewPosition dom rt].
  intros [= ]. congruence.
Qed.

Lemma saveApiKey_kept value a :
  kept (set_apiKey (apiKey a) (fst (saveApiKey value a))) = kept a.
Proof.
  unfold saveApiKey. cbn [apiKey set_apiKey].
  destruct (Js.truthy (Js.trim value)); cbn [fst]; [|reflexivity].
  match goal with |- context [if ?c then _ else _] => destruct c end; [|reflexivity].
  match goal with |- context [fetchExplanations ?x] =>
    rewrite (kept_set_apiKey (apiKey a) _ _ (fetchExplanations_kept x)) end.
  reflexivity.
Qed.

(** The requests of one run: none when every move is cached, else one. *)
Lemma fetchExplanations_requested a :
  Js.truthy (apiKey a) = true -> currentAnalysis a <> [] ->
  let uncached := filter (is_uncached a) (firstn 4 (currentAnalysis a)) in
  requested (fetchExplanations a) =
    requested a ++
      match uncached with
      | [] => []
      | _ :: _ => [explanationPrompt (chess_fen (game a)) (turn_name a) uncached]
      end.
Proof.
  intros K N. cbv zeta. rewrite fetchExplanations_run by assumption.
  cbv zeta. rewrite requested_page.
  destruct (filter _ _) as [|u us]; [now rewrite app_nil_r|].
  destruct (messages_api _ _); rewrite requested_page.
  - rewrite (proj2 (save_all_kept _ _ _ _)). now rewrite requested_emit.
  - now rewrite requested_emit.
Qed.

(** The element of a move after the cache loop. *)
Lemma checked_element a i m :
  nth_error (firstn 4 (currentAnalysis a)) i = Some m ->
  ml_get i (ml_each (cache_write a) 0 (firstn 4 (currentAnalysis a)) (moveList (dom a))) =
    option_map
      (fun el =>
         match cache_hit a (l_move m) with
         | Some s => el_text s (el_loading false (el_text "Checking cache..." (el_loading true el)))
         | None => el_text "Generating explanation..."
                     (el_text "Checking cache..." (el_loading true el))
         end)
      (ml_get i (moveList (dom a))).
Proof.
  intros Hm. rewrite ml_get_each. cbn [Nat.leb]. rewrite Nat.sub_0_r, Hm. reflexivity.
Qed.

End Pipeline.

Section PipelineOutcome.

Context {rules : RulesEngine} {services : Services}.

(** The element of a move after a run that got a reply. *)
Lemma explained_element a text i m :
  Js.truthy (apiKey a) = true ->
  let moves := firstn 4 (currentAnalysis a) in
  let uncached := filter (is_uncached a) moves in
  uncached <> [] ->
  messages_api configuredModel
    (explanationPrompt (chess_fen (game a)) (turn_name a) uncached) = ApiText text ->
  nth_error moves i = Some m ->
  explanation_el i a <> None ->
  explanation_text i (fetchExplanations a) =
    Some match sobj_get (l_move m) (parseExplanations text) with
         | Some e => if Js.truthy e then e else "No explanation available"
         | None =>
             match cache_hit a (l_move m) with
             | Some s => s
             | None => "No explanation available"
             end
         end.
Proof.
  intros K moves uncached U R Hm Hel.
  assert (N : currentAnalysis a <> []).
  { intros E. subst uncached moves. rewrite E in U. now apply U. }
  rewrite fetchExplanations_run by assumption. cbv zeta.
  fold moves. fold uncached.
  destruct uncached as [|u us] eqn:EU; [now destruct U|].
  rewrite R.
  change (explanation_text i (page ?f (page (dom_moveItems ?ml) ?x)))
    with (option_map item_explanation (ml_get i ml)).
  rewrite save_all_dom. cbn [emit set_rt dom page set_dom dom_explainBtn dom_moveItems dom_moveList moveList].
  rewrite ml_get_each. cbn [Nat.leb]. rewrite Nat.sub_0_r, Hm.
  unfold success_write. subst moves. rewrite (checked_element _ _ _ Hm).
  unfold explanation_el, ml_get in *.
  destruct (moveList (dom a)) as [msg|l]; [now destruct Hel|].
  destruct (nth_error l i) as [el|]; [|now destruct Hel].
  cbn [option_map]. f_equal.
  unfold sobj_truthy, sobj_spread. rewrite sobj_get_app.
  destruct (sobj_get (l_move m) (parseExplanations text)) as [e|].
  - now destruct (Js.truthy e), (cache_hit a (l_move m)).
  - pose proof (cached_of_move a _ m (nth_error_In _ _ Hm)) as C.
    unfold sobj_truthy in C.
    destruct (cache_hit a (l_move m)) as [s|] eqn:Hh.
    + destruct (sobj_get _ _) as [v|]; [|discriminate].
      destruct (Js.truthy v); [|discriminate]. injection C as ->. reflexivity.
    + destruct (sobj_get _ _) as [v|]; [|reflexivity].
      destruct (Js.truthy v); [discriminate|reflexivity].
Qed.

(** The element of a cached move after a run with nothing to ask. *)
Lemma all_cached_element a i m :
  Js.truthy (apiKey a) = true ->
  let moves := firstn 4 (currentAnalysis a) in
  filter (is_uncached a) moves = [] ->
  nth_error moves i = Some m ->
  explanation_el i a <> None ->
  explanation_text i (fetchExplanations a) = cache_hit a (l_move m).
Proof.
  intros K moves U Hm Hel.
  assert (N : currentAnalysis a <> []).
  { intros E. subst moves. rewrite E in Hm. now destruct i. }
  rewrite fetchExplanations_run by assumption. cbv zeta.
  fold moves. rewrite U.
  change (explanation_text i (page ?f (page (dom_moveItems ?ml) ?x)))
    with (option_map item_explanation (ml_get i ml)).
  subst moves. rewrite (checked_element _ _ _ Hm).
  assert (C : is_uncached a m = false).
  { destruct (is_uncached a m) eqn:I; [|reflexivity].
    assert (In m (filter (is_uncached a) (firstn 4 (currentAnalysis a)))).
    { apply filter_In. split; [eapply nth_error_In; eauto|assumption]. }
    rewrite U in H. destruct H. }
  unfold is_uncached in C.
  unfold explanation_el, ml_get in *.
  destruct (moveList (dom a)) as [msg|l]; [now destruct Hel|].
  destruct (nth_error l i) as [el|]; [|now destruct Hel].
  now destruct (cache_hit a (l_move m)).
Qed.

End PipelineOutcome.

(* ================================================================== *)
(** ** Progress lines and the depth on the page *)
(* ================================================================== *)

Section Depth.

Context {rules : RulesEngine} {services : Services}.

Lemma kept_depth a b :
  kept b = kept a ->
  currentDepth b = currentDepth a /\ analysisLines b = analysisLines a
  /\ engineDepth (dom b) = engineDepth (dom a) /\ currentAnalysis b = currentAnalysis a
  /\ game b = game a.
Proof. unfold kept. intros [= ]. auto. Qed.

(** One message: the depth does not go down, and the label keeps up. *)
Lemma message_depth l a :
  let a' := handleStockfishMessage l a in
  (currentDepth a <= currentDepth a')%Z
  /\ (engineDepth (dom a') = engineDepth (dom a)
      \/ engineDepth (dom a') = LblDepth (currentDepth a')).
Proof.
  cbv zeta. unfold handleStockfishMessage.
  destruct (Js.startsWith l "info depth").
  - destruct (parseAnalysisLine_cases l a) as [->|[(f & F & D & L & ->)|(f & san & st & F & D & L & -> & [->| ->])]].
    + split; [lia|now left].
    + cbn. split; [assumption|now left].
    + cbn. split; [assumption|now left].
    + destruct (updateAnalysisDisplay_core
                  (set_analysisLines
                     (obj_set (f_multipv f) (entry_of f san (chess_turn (game a)))
                        (analysisLines a)) (set_currentDepth (f_depth f) a)))
        as (_ & E & _ & _ & _ & _ & Lb).
      rewrite E, Lb. cbn. split; [assumption|now right].
  - destruct (Js.startsWith l "bestmove"); [|split; [lia|now left]].
    unfold finalizeAnalysis.
    destruct (updateAnalysisDisplay_core a) as (_ & E & _ & _ & _ & _ & Lb).
    destruct (_ && _).
    + destruct (kept_depth _ _ (fetchExplanations_kept (updateAnalysisDisplay a)))
        as (-> & _ & -> & _).
      rewrite E, Lb. split; [lia|now right].
    + rewrite E, Lb. split; [lia|now right].
Qed.

(** A run of messages: the depth does not go down; the label is the one
    from before the run or a depth reached during it. *)
Lemma messages_depth ls : forall a,
  let a' := messages ls a in
  (currentDepth a <= currentDepth a')%Z
  /\ (engineDepth (dom a') = engineDepth (dom a)
      \/ exists d, engineDepth (dom a') = LblDepth d
                   /\ (currentDepth a <= d)%Z /\ (d <= currentDepth a')%Z).
Proof.
  induction ls as [|l ls IH]; intros a; cbn [messages fold_left].
  - split; [lia|now left].
  - destruct (IH (handleStockfishMessage l a)) as [H1 H2].
    destruct (message_depth l a) as [S1 S2].
    fold (messages ls (handleStockfishMessage l a)) in *.
    split; [lia|].
    destruct H2 as [H2|(d & H2 & H3 & H4)].
    + rewrite H2. destruct S2 as [S2|S2]; [now left|].
      right. eexists. split; [exact S2|]. lia.
    + right. exists d. split; [assumption|]. lia.
Qed.

(** What [analyzePosition] leaves: no lines, depth 0, the placeholder. *)
Lemma analyzePosition_clears a :
  let a' := analyzePosition a in
  analysisLines a' = [] /\ currentDepth a' = 0%Z
  /\ engineDepth (dom a') = LblAnalyzing
  /\ moveList (dom a') = EmptyState "Analyzing position..."
  /\ game a' = game a /\ stockfish a' = stockfish a /\ board a' = board a.
Proof.
  cbv zeta. unfold analyzePosition. cbn. destruct (analysisTimeout a); cbn; auto 10.
Qed.

(** The label never shows more than the depth reached. *)
Lemma label_below_depth ls a d :
  engineDepth (dom (messages ls (analyzePosition a))) = LblDepth d ->
  (d <= currentDepth (messages ls (analyzePosition a)))%Z.
Proof.
  destruct (messages_depth ls (analyzePosition a)) as [H1 [H2|(d' & H2 & H3 & H4)]];
    rewrite H2.
  - destruct (analyzePosition_clears a) as (_ & _ & -> & _). discriminate.
  - now intros [= <-].
Qed.

(** C3.  Within the analysis of one position (the messages that follow a
    call of analyzePosition), a parsed progress line changes the entry of
    its rank only if its depth is at least currentDepth, and in that case
    currentDepth becomes its depth; currentDepth never decreases, and a
    depth shown on the page is never lower than one shown before. *)
Theorem depth_never_decreases a ls1 line f ls2 :
  let s1 := messages ls1 (analyzePosition a) in
  let s1' := parseAnalysisLine line s1 in
  let s2 := messages ls2 s1 in
  (parseFields line = Some f ->
     (obj_get (f_multipv f) (analysisLines s1') <> obj_get (f_multipv f) (analysisLines s1) ->
        (currentDepth s1 <= f_depth f)%Z)
     /\ ((currentDepth s1 <= f_depth f)%Z -> currentDepth s1' = f_depth f))
  /\ (currentDepth s1 <= currentDepth s2)%Z
  /\ (forall d1 d2,
        engineDepth (dom s1) = LblDepth d1 -> engineDepth (dom s2) = LblDepth d2 ->
        (d1 <= d2)%Z).
Proof.
  intros s1 s1' s2. split; [|split].
  - intros F. split.
    + intros Hne. destruct (Z.lt_ge_cases (f_depth f) (currentDepth s1)) as [S|D]; [|lia].
      subst s1'. rewrite (parseAnalysisLine_shallow _ _ _ F S) in Hne. now destruct Hne.
    + intros D. subst s1'.
      destruct (chess_move (Chess_new (chess_fen (game s1))) (uci_from (Js.first (f_pv f)))
                  (uci_to (Js.first (f_pv f))) (uci_promotion (Js.first (f_pv f))))
        as [[san g]|] eqn:M.
      * rewrite (parseAnalysisLine_accepted _ _ _ _ _ F D M).
        destruct (_ && _); [|reflexivity].
        now destruct (updateAnalysisDisplay_core
                        (set_analysisLines
                           (obj_set (f_multipv f) (entry_of f san (chess_turn (game s1)))
                              (analysisLines s1)) (set_currentDepth (f_depth f) s1)))
          as (_ & -> & _).
      * rewrite (parseAnalysisLine_illegal _ _ _ F D); [reflexivity|].
        unfold legal_now. now rewrite M.
  - apply (messages_depth ls2 s1).
  - intros d1 d2 L1 L2.
    pose proof (label_below_depth ls1 a d1 L1) as B.
    destruct (messages_depth ls2 s1) as [_ [H|(d & H & H3 & _)]]; fold s2 in H.
    + rewrite H, L1 in L2. injection L2 as <-. lia.
    + rewrite H in L2. injection L2 as <-. fold s1 in B. lia.
Qed.

End Depth.

(* ================================================================== *)
(** ** Late and rejected lines *)
(* ================================================================== *)

Section Staleness.

Context {rules : RulesEngine} {services : Services}.

(** C1, as the code has it.  analyzePosition empties analysisLines and
    sets currentDepth to 0 at once, and the handler treats a progress line
    the same whichever request it answers.  A line does nothing at all when
    a field does not parse or its depth is below currentDepth; it leaves
    analysisLines and what the page shows as they are when its first move
    is not legal in the current position; and otherwise it is stored under
    its rank as a line of the current position, evaluated for the side
    that is to move now.  A stored line of even depth 10 or more is
    published by the same call: the depth label is its depth, and it is in
    the ranked list and has an element in the candidate list.  A stored line
    of any other depth leaves the page as it is. *)
Theorem late_line_handled_like_any a m :
  Js.startsWith (data m) "info depth" = true ->
  (analysisLines (analyzePosition a) = [] /\ currentDepth (analyzePosition a) = 0%Z)
  /\ (forall g, deliver {| origin := g; data := data m |} a = deliver m a)
  /\ ((parseFields (data m) = None
       \/ exists f, parseFields (data m) = Some f /\ (f_depth f < currentDepth a)%Z) ->
      deliver m a = a)
  /\ (forall f, parseFields (data m) = Some f ->
        legal_now (Js.first (f_pv f)) a = false ->
        analysisLines (deliver m a) = analysisLines a
        /\ published (deliver m a) = published a)
  /\ (forall f, parseFields (data m) = Some f -> (currentDepth a <= f_depth f)%Z ->
        legal_now (Js.first (f_pv f)) a = true ->
        exists san,
          obj_get (f_multipv f) (analysisLines (deliver m a))
          = Some (entry_of f san (chess_turn (game a)))
          /\ ((10 <= f_depth f)%Z -> (f_depth f mod 2 = 0)%Z ->
              engineDepth (dom (deliver m a)) = LblDepth (f_depth f)
              /\ In (entry_of f san (chess_turn (game a))) (currentAnalysis (deliver m a))
              /\ exists i el, explanation_el i (deliver m a) = Some el
                   /\ item_uci el = Js.first (f_pv f) /\ item_notation el = san)
          /\ ((f_depth f < 10)%Z \/ (f_depth f mod 2 <> 0)%Z ->
              published (deliver m a) = published a)).
Proof.
  intros P. unfold deliver, handleStockfishMessage. rewrite P.
  split; [|split; [|split; [|split]]].
  - destruct (analyzePosition_clears a) as (-> & -> & _). auto.
  - intros g. cbn [data]. now rewrite P.
  - intros [F|(f & F & S)].
    + now apply parseAnalysisLine_unparsed.
    + eapply parseAnalysisLine_shallow; eauto.
  - intros f F L.
    destruct (Z.lt_ge_cases (f_depth f) (currentDepth a)) as [S|D].
    + now rewrite (parseAnalysisLine_shallow _ _ _ F S).
    + now rewrite (parseAnalysisLine_illegal _ _ _ F D L).
  - intros f F D L. unfold legal_now in L.
    destruct (chess_move _ _ _ _) as [[san g]|] eqn:M; [|discriminate].
    exists san. split; [|split].
    + rewrite (parseAnalysisLine_accepted _ _ _ _ _ F D M).
      destruct (_ && _).
      * destruct (updateAnalysisDisplay_core
                    (set_analysisLines
                       (obj_set (f_multipv f) (entry_of f san (chess_turn (game a)))
                          (analysisLines a)) (set_currentDepth (f_depth f) a)))
          as (-> & _).
        cbn. apply obj_get_set_same.
      * cbn. apply obj_get_set_same.
    + intros T E.
      destruct (stored_and_shown _ _ _ _ _ F D M T E) as (Lb & I & i & el & El & U & N & _).
      split; [exact Lb|]. split; [exact I|].
      exists i, el. auto.
    + intros O. destruct (stored_only _ _ _ _ _ F D M O) as [Dm CA].
      unfold published. now rewrite Dm, CA.
Qed.

End Staleness.

(** C1 fails.  After a new game the engine analyses the starting position;
    1.e4 e5 is played and the request for the new position is sent; the
    engine's line for the starting position, still on its way, starts with
    d2d4, which is legal in the new position too.  The line of request 1
    arrives after request 2: it fills the emptied analysisLines, raises
    currentDepth to 14 and is put on the page as a candidate of the new
    position. *)
Lemma late_line_is_attributed :
  let a := Scenario.superseded in
  let m := Scenario.late_line in
  origin m = 1 /\ requests a = 2
  /\ chess_fen (game a) = Excerpt.after_e4_e5
  /\ analysisLines a = [] /\ currentDepth a = 0%Z
  /\ currentDepth (deliver (services := Excerpt.offline) m a) = 14%Z
  /\ map (fun e => (fst e, l_move (snd e), l_eval (snd e)))
         (analysisLines (deliver (services := Excerpt.offline) m a))
     = [(1%Z, "d4", "+0.25")]
  /\ engineDepth (dom (deliver (services := Excerpt.offline) m a)) = LblDepth 14
  /\ map l_move (currentAnalysis (deliver (services := Excerpt.offline) m a)) = ["d4"].
Proof. vm_compute. repeat split. Qed.

(** C2 on the code: a line whose first move is refused is dropped after
    currentDepth has been raised to its depth.  In the starting position
    with currentDepth 0, the line of depth 12 that starts with e2e5 leaves
    analysisLines empty and currentDepth at 12. *)
Theorem rejected_line_moves_depth :
  let a := Excerpt.page_at Excerpt.start in
  let line := Scenario.impossible_line in
  Js.startsWith line "info depth" = true
  /\ parseFields line <> None
  /\ legal_now "e2e5" a = false
  /\ currentDepth a = 0%Z
  /\ analysisLines (parseAnalysisLine line a) = analysisLines a
  /\ currentDepth (parseAnalysisLine line a) = 12%Z.
Proof. vm_compute. repeat split; discriminate. Qed.

(* ================================================================== *)
(** ** The evaluation shown for a centipawn score *)
(* ================================================================== *)

Module DisplayFacts.
Import Js JsFacts.

Lemma all_chars_app p s t :
  all_chars p (s ++ t) = all_chars p s && all_chars p t.
Proof. induction s as [|c s IH]; simpl; [reflexivity|]. now rewrite IH, andb_assoc. Qed.

Lemma all_chars_weaken (p q : ascii -> bool) s :
  (forall c, p c = true -> q c = true) -> all_chars p s = true -> all_chars q s = true.
Proof.
  intros H. induction s as [|c s IH]; simpl; [reflexivity|].
  intros E. apply andb_prop in E as [E1 E2]. now rewrite (H _ E1), IH.
Qed.

Lemma digit_not_point c : is_digit c = true -> negb (Ascii.eqb c ".") = true.
Proof.
  destruct c as [[|] [|] [|] [|] [|] [|] [|] [|]]; intros H;
    try discriminate H; reflexivity.
Qed.

Lemma digit_char_digit d : (d < 10)%N -> is_digit (digit_char d) = true.
Proof.
  intros H. destruct d as [|p]; [reflexivity|].
  do 4 (destruct p as [p|p|]; try lia; try reflexivity).
Qed.

(** The body of the rendering: digits, a point, two digits. *)
Lemma toFixed2_unsigned a :
  exists ip d1 d2,
    (string_of_N (a / 100) ++ "."
       ++ String (digit_char ((a mod 100) / 10)) (String (digit_char (a mod 10)) ""))%string
    = (ip ++ String "." (String d1 (String d2 "")))%string
    /\ all_chars is_digit ip = true /\ truthy ip = true
    /\ is_digit d1 = true /\ is_digit d2 = true.
Proof.
  exists (string_of_N (a / 100)), (digit_char ((a mod 100) / 10)), (digit_char (a mod 10)).
  split; [reflexivity|].
  split; [apply string_of_N_digits|].
  split; [apply string_of_N_truthy|].
  split; apply digit_char_digit.
  - apply N.Div0.div_lt_upper_bound. pose proof (N.mod_upper_bound a 100). lia.
  - apply N.mod_upper_bound. lia.
Qed.

End DisplayFacts.

Section Display.

Context {rules : RulesEngine}.
Import Js JsFacts DisplayFacts.

(** The text for a centipawn score [w] of the side to move. *)
Lemma evalScore_of_cp v turn :
  evalScore_of "cp" v turn =
    let w := flipped v turn in
    if (0 <? w)%Z then ("+" ++ toFixed2_hundredths w)%string else toFixed2_hundredths w.
Proof. unfold evalScore_of, flipped. cbn. now destruct turn. Qed.

(** Reading the text back gives the score divided by 100. *)
Lemma parseFloat_display w :
  parseFloat (if (0 <? w)%Z then ("+" ++ toFixed2_hundredths w)%string
              else toFixed2_hundredths w)
  = Some (Qmake w 100).
Proof.
  unfold toFixed2_hundredths.
  destruct w as [|p|p].
  - reflexivity.
  - cbn [Z.ltb Z.compare]. cbn [append].
    change (parseFloat (String "+" ?s)) with (unsigned_decimal s).
    rewrite unsigned_decimal_two_decimals. reflexivity.
  - cbn [Z.ltb Z.compare]. cbn [append].
    change (parseFloat (String "-" ?s)) with (option_map Qopp (unsigned_decimal s)).
    rewrite unsigned_decimal_two_decimals. reflexivity.
Qed.

Lemma two_decimals_display w :
  two_decimal_places (if (0 <? w)%Z then ("+" ++ toFixed2_hundredths w)%string
                      else toFixed2_hundredths w).
Proof.
  unfold toFixed2_hundredths, two_decimal_places.
  destruct (toFixed2_unsigned (Z.abs_N w)) as (ip & d1 & d2 & E & D & T & D1 & D2).
  rewrite E.
  assert (P : all_chars (fun c => negb (Ascii.eqb c ".")) ip = true).
  { eapply all_chars_weaken; [apply digit_not_point|exact D]. }
  destruct w as [|p|p]; cbn [Z.ltb Z.compare].
  - exists ip, d1, d2. auto.
  - exists (String "+" ip), d1, d2. cbn. auto.
  - exists (String "-" ip), d1, d2. cbn. auto.
Qed.

Lemma plus_sign_display w :
  startsWith (if (0 <? w)%Z then ("+" ++ toFixed2_hundredths w)%string
              else toFixed2_hundredths w) "+" = true <-> (0 < w)%Z.
Proof.
  unfold toFixed2_hundredths.
  destruct w as [|p|p]; cbn [Z.ltb Z.compare].
  - split; [discriminate|lia].
  - split; [lia|reflexivity].
  - split; [discriminate|lia].
Qed.

(** C9, as the code has it.  An accepted progress line with a centipawn
    score v of less than 100 * 2^46 in absolute value is stored with the
    evaluation of the side to move: with w = v when White is to move and
    w = -v when Black is, the text reads back as w / 100, has exactly two
    decimals, and starts with a plus sign exactly when w is positive.  When
    the depth of the line is even and at least 10 the same call puts that
    text on the page, in the element of the move in the candidate list;
    otherwise the call leaves the page as it is.  Every publication shows
    the stored text of every stored line.  With Black to move, cp -35 is
    shown as +0.35. *)
Theorem centipawn_display a line f san g :
  parseFields line = Some f -> f_scoreType f = "cp" ->
  (Z.abs (f_scoreValue f) < 7036874417766400)%Z ->
  (currentDepth a <= f_depth f)%Z ->
  chess_move (Chess_new (chess_fen (game a))) (uci_from (first (f_pv f)))
             (uci_to (first (f_pv f))) (uci_promotion (first (f_pv f))) = Some (san, g) ->
  let w := flipped (f_scoreValue f) (chess_turn (game a)) in
  let a' := parseAnalysisLine line a in
  let shows_w (s : string) :=
    parseFloat s = Some (Qmake w 100)
    /\ two_decimal_places s
    /\ (startsWith s "+" = true <-> (0 < w)%Z) in
  (exists e, obj_get (f_multipv f) (analysisLines a') = Some e /\ shows_w (l_eval e))
  /\ ((10 <= f_depth f)%Z -> (f_depth f mod 2 = 0)%Z ->
      exists i el, explanation_el i a' = Some el
        /\ item_uci el = first (f_pv f) /\ item_notation el = san
        /\ shows_w (item_eval el))
  /\ ((f_depth f < 10)%Z \/ (f_depth f mod 2 <> 0)%Z -> dom a' = dom a)
  /\ (forall b k e, obj_get k (analysisLines b) = Some e ->
        exists i el, explanation_el i (updateAnalysisDisplay b) = Some el
          /\ item_uci el = l_uci e /\ item_eval el = l_eval e)
  /\ evalScore_of "cp" (-35) Black = "+0.35".
Proof.
  intros F T R D M w a' shows_w.
  assert (S : shows_w (l_eval (entry_of f san (chess_turn (game a))))).
  { subst shows_w. cbn [entry_of l_eval]. rewrite T, evalScore_of_cp. cbv zeta. fold w.
    split; [apply parseFloat_display|].
    split; [apply two_decimals_display|apply plus_sign_display]. }
  split; [|split; [|split; [|split; [|reflexivity]]]].
  - exists (entry_of f san (chess_turn (game a))). split; [|exact S].
    subst a'. rewrite (parseAnalysisLine_accepted _ _ _ _ _ F D M).
    destruct (_ && _).
    + destruct (updateAnalysisDisplay_core
                  (set_analysisLines
                     (obj_set (f_multipv f) (entry_of f san (chess_turn (game a)))
                        (analysisLines a)) (set_currentDepth (f_depth f) a)))
        as (-> & _).
      cbn. apply obj_get_set_same.
    + cbn. apply obj_get_set_same.
  - intros T10 E.
    destruct (stored_and_shown _ _ _ _ _ F D M T10 E) as (_ & _ & i & el & El & U & N & V).
    exists i, el. split; [exact El|]. split; [exact U|]. split; [exact N|].
    rewrite V. exact S.
  - intros O. apply (stored_only _ _ _ _ _ F D M O).
  - intros b k e G. destruct (shown_entry b k e G) as (_ & i & el & El & U & _ & V).
    exists i, el. auto.
Qed.

End Display.

(* ================================================================== *)
(** ** A click on a candidate that is not legal *)
(* ================================================================== *)

Section Click.

Context {rules : RulesEngine}.

(** C10, as the code has it.  A click on a candidate whose move is not
    legal in the current position first clears the hover preview, as every
    click does, and then returns: the game, the analysis, the page and the
    timers and requests are as before; on the board the position saved by
    the preview, if any, is put back and the highlights are removed, so a
    board without a preview and without highlights is also as before. *)
Theorem illegal_click_only_clears_preview a uci :
  chess_move (game a) (uci_from uci) (uci_to uci) (uci_promotion uci) = None ->
  let a' := playAnalysisMove uci a in
  game a' = game a
  /\ analysisLines a' = analysisLines a /\ currentDepth a' = currentDepth a
  /\ currentAnalysis a' = currentAnalysis a
  /\ dom a' = dom a
  /\ analysisTimeout a' = analysisTimeout a /\ rt a' = rt a
  /\ previewPosition a' = None
  /\ board a' = {| shown := match previewPosition a with
                            | Some p => Js.first (Js.split " " p)
                            | None => shown (board a)
                            end;
                   highlights := [] |}
  /\ (previewPosition a = None -> highlights (board a) = [] -> board a' = board a).
Proof.
  intros M a'. subst a'. unfold playAnalysisMove.
  assert (G : game (clearPreview a) = game a).
  { unfold clearPreview. now destruct (previewPosition a). }
  rewrite G, M. unfold clearPreview.
  destruct (previewPosition a) as [p|] eqn:PP; cbn; repeat split; auto;
    intros H1 H2; try discriminate.
  destruct (board a) as [sh hl]. cbn in *. now subst.
Qed.

End Click.

(** C10 fails on the board.  With the mouse over the candidate, its
    squares are highlighted; the click on the move that is not legal
    removes the highlights.  With the mouse over 1.e4 the board previews
    the move; a click on a move that is not legal puts the pieces back. *)
Lemma illegal_click_changes_board :
  (let a := Scenario.over_impossible in
   chess_move (game a) "e2" "e5" None = None
   /\ highlights (board a) = ["e2"; "e5"]
   /\ highlights (board (playAnalysisMove "e2e5" a)) = [])
  /\ (let a := Scenario.previewing_e4 in
      chess_move (game a) "e2" "e5" None = None
      /\ shown (board a) = "rnbqkbnr/pppppppp/8/8/4P3/8/PPPP1PPP/RNBQKBNR"
      /\ shown (board (playAnalysisMove "e2e5" a)) = "rnbqkbnr/pppppppp/8/8/8/8/PPPPPPPP/RNBQKBNR").
Proof. vm_compute. repeat split. Qed.

(* ================================================================== *)
(** ** The debounced request *)
(* ================================================================== *)

Section Debounce.

Context {rules : RulesEngine} {services : Services}.

Lemma clear_one_timer a t :
  one_timer a -> analysisTimeout a = Some t ->
  filter (fun x : nat * N => negb (Nat.eqb (fst x) t)) (timers (rt a)) = [].
Proof.
  intros O T. unfold one_timer in O.
  induction (timers (rt a)) as [|x l IH]; [reflexivity|]. simpl.
  assert (E : fst x = t).
  { specialize (O x (or_introl eq_refl)). rewrite T in O. now injection O. }
  rewrite E, Nat.eqb_refl. simpl. apply IH. intros y Hy. apply O. now right.
Qed.

(** [analyzePosition] replaces the pending timer by a fresh one. *)
Lemma analyzePosition_arms a :
  one_timer a ->
  let a' := analyzePosition a in
  timers (rt a') = [(nextTimer (rt a), (clock (rt a) + 100)%N)]
  /\ analysisTimeout a' = Some (nextTimer (rt a))
  /\ clock (rt a') = clock (rt a) /\ effects (rt a') = effects (rt a)
  /\ stockfish a' = stockfish a /\ game a' = game a.
Proof.
  intros O. cbv zeta. unfold analyzePosition. cbn.
  destruct (analysisTimeout a) as [t|] eqn:T; cbn.
  - rewrite (clear_one_timer a t O T). cbn. auto 10.
  - assert (E : timers (rt a) = []).
    { destruct (timers (rt a)) as [|x l] eqn:X; [reflexivity|].
      specialize (O x). rewrite X in O. specialize (O (or_introl eq_refl)).
      rewrite T in O. discriminate. }
    rewrite E. cbn. auto 10.
Qed.

(** A handler that changes the position ends in [analyzePosition], having
    touched neither the timers nor the effects. *)
Lemma position_changed_analyzes e a :
  position_changed e a = true ->
  exists a1, handle e a = analyzePosition a1
             /\ rt a1 = rt a /\ analysisTimeout a1 = analysisTimeout a
             /\ stockfish a1 = stockfish a.
Proof.
  destruct e; cbn [position_changed handle]; intros H; try discriminate.
  - unfold handleMove. destruct (chess_move _ _ _ _) as [[san g]|]; [|discriminate].
    eexists. split; [reflexivity|]. cbn. auto.
  - unfold newGame. eexists. split; [reflexivity|]. cbn. auto.
  - unfold undoMove. eexists. split; [reflexivity|]. cbn. auto.
  - unfold setFenFromInput. apply andb_prop in H as [H1 H2]. rewrite H1. cbn [negb].
    destruct (chess_load _ _) as [g|]; [|discriminate].
    eexists. split; [reflexivity|]. cbn. auto.
  - unfold playAnalysisMove.
    assert (G : game (clearPreview a) = game a).
    { unfold clearPreview. now destruct (previewPosition a). }
    rewrite G. destruct (chess_move _ _ _ _) as [[san g]|]; [|discriminate].
    eexists. split; [reflexivity|].
    unfold clearPreview. destruct (previewPosition a); cbn; auto.
Qed.

Lemma handle_arms e a :
  one_timer a -> stockfish a = true -> position_changed e a = true ->
  armed (handle e a) /\ posted (handle e a) = posted a
  /\ clock (rt (handle e a)) = clock (rt a).
Proof.
  intros O S P. destruct (position_changed_analyzes e a P) as (a1 & -> & R & T & S1).
  assert (O1 : one_timer a1).
  { unfold one_timer. rewrite R, T. exact O. }
  destruct (analyzePosition_arms a1 O1) as (Ht & Ha & Hc & He & Hs & _).
  unfold armed, posted. rewrite Ht, Ha, Hc, He, Hs, S1, R.
  split; [|auto]. split; [assumption|]. eexists. split; reflexivity.
Qed.

(** Less than 100 ms later the timer has not fired. *)
Lemma advance_early a dt :
  armed a -> (dt < 100)%N ->
  let a' := advance dt a in
  one_timer a' /\ stockfish a' = true /\ posted a' = posted a /\ game a' = game a
  /\ analysisTimeout a' = analysisTimeout a.
Proof.
  intros (S & t & T & Tm) Hdt. cbv zeta. unfold advance. rewrite Tm. cbn [filter snd].
  assert (E : (clock (rt a) + 100 <=? clock (rt a) + dt)%N = false) by (apply N.leb_gt; lia).
  rewrite E. cbn. repeat split; auto.
  unfold one_timer. cbn. intros x [<-|[]]. exact T.
Qed.

(** After 100 ms it fires, once, for the position of that moment. *)
Lemma advance_fires a dt :
  armed a -> (100 <= dt)%N ->
  let a' := advance dt a in
  posted a' = posted a ++ analysis_request (chess_fen (game a))
  /\ timers (rt a') = [] /\ game a' = game a.
Proof.
  intros (S & t & T & Tm) Hdt. cbv zeta. unfold advance. rewrite Tm. cbn [filter snd].
  assert (E : (clock (rt a) + 100 <=? clock (rt a) + dt)%N = true) by (apply N.leb_le; lia).
  rewrite E. cbn [negb fold_left]. unfold analysisCallback. cbn [stockfish set_rt].
  rewrite S. unfold fetchOpeningData, postMessage.
  rewrite !posted_emit. cbn. unfold analysis_request.
  rewrite <- !app_assoc. cbn. repeat split.
Qed.

Lemma rapid_run es : forall a,
  armed a -> rapid a es ->
  armed (run a es) /\ posted (run a es) = posted a.
Proof.
  induction es as [|[dt e] es IH]; intros a A R; cbn [run fold_left].
  - auto.
  - destruct R as (Hdt & P & R). cbn [fst snd] in *.
    destruct (advance_early a dt A Hdt) as (O & S & Po & _).
    destruct (handle_arms e (advance dt a) O S P) as (A1 & P1 & _).
    destruct (IH (step a (dt, e)) A1 R) as (A2 & P2).
    unfold run in *. split; [exact A2|].
    rewrite P2. unfold step. cbn [fst snd]. now rewrite P1.
Qed.

(** C4, as the code has it.  The timer callback talks to the engine only
    when the worker exists.  With the worker running, a position change
    followed by any number of further position changes, each less than
    100 ms after the one before, sends the engine one analysis request,
    100 ms after the last change: stop, the position command with the FEN
    of the last position, and the go command; nothing is sent for the
    positions in between and no timer remains. *)
Theorem debounce_sends_one_request a e es dt :
  stockfish a = true -> one_timer a ->
  position_changed e a = true -> rapid (handle e a) es -> (100 <= dt)%N ->
  let last := run (handle e a) es in
  posted last = posted a
  /\ posted (advance dt last) = posted a ++ analysis_request (chess_fen (game last))
  /\ timers (rt (advance dt last)) = [].
Proof.
  intros S O P R Hdt last.
  destruct (handle_arms e a O S P) as (A & P0 & _).
  destruct (rapid_run es (handle e a) A R) as (A1 & P1). fold last in A1, P1.
  destruct (advance_fires last dt A1 Hdt) as (F & T & _).
  rewrite F, P1, P0. auto.
Qed.

End Debounce.

(* ================================================================== *)
(** ** The ranked list *)
(* ================================================================== *)

Section Ranking.

Context {rules : RulesEngine}.
Import Js JsFacts DisplayFacts.

Lemma digit_not_M c s : is_digit c = true -> startsWith (String c s) "M" = false.
Proof. apply startsWith_M_digit_start. Qed.

(** The number behind the text of a mate score. *)
Lemma parseEval_mate n turn :
  parseEval (evalScore_of "mate" n turn)
  = Some (inject_Z (if (0 <? n)%Z then 10000 - n else -10000 - n)).
Proof.
  unfold evalScore_of. cbn [String.eqb Ascii.eqb Bool.eqb].
  assert (E : (if (0 <? n)%Z then ("M" ++ string_of_Z n)%string
               else ("M" ++ string_of_Z n)%string) = String "M" (string_of_Z n))
    by now destruct (0 <? n)%Z.
  rewrite E. unfold parseEval.
  change (startsWith (String "M" ?s) "M") with true. cbn [substring_from].
  now rewrite parseInt_string_of_Z.
Qed.

(** The number behind the text of a centipawn score. *)
Lemma parseEval_centipawns ty v turn :
  String.eqb ty "mate" = false ->
  parseEval (evalScore_of ty v turn) = Some (Qmake (flipped v turn) 100).
Proof.
  intros T. unfold evalScore_of. rewrite T. fold (flipped v turn).
  set (w := flipped v turn). unfold parseEval.
  assert (M : startsWith (if (0 <? w)%Z then ("+" ++ toFixed2_hundredths w)%string
                          else toFixed2_hundredths w) "M" = false).
  { unfold toFixed2_hundredths.
    destruct (string_of_N_head (Z.abs_N w / 100)) as (c & s & E & D).
    rewrite E. destruct w as [|p|p]; cbn [Z.ltb Z.compare]; try reflexivity.
    cbn [append]. now apply digit_not_M. }
  rewrite M. apply parseFloat_display.
Qed.

Lemma written_scored e : written e -> parseEval (l_eval e) <> None.
Proof.
  intros (ty & v & turn & ->).
  destruct (String.eqb ty "mate") eqn:T.
  - apply String.eqb_eq in T. subst ty. now rewrite parseEval_mate.
  - now rewrite parseEval_centipawns.
Qed.

Lemma compareMoves_scores x y :
  parseEval (l_eval x) <> None -> parseEval (l_eval y) <> None ->
  compareMoves x y = (score y - score x)%Q.
Proof.
  unfold compareMoves, score, value.
  destruct (parseEval (l_eval x)), (parseEval (l_eval y)); easy.
Qed.

Lemma sort_insert_map {A B} (val : B -> A) cmp x l :
  map val (sort_insert (fun a b => cmp (val a) (val b)) x l)
  = sort_insert cmp (val x) (map val l).
Proof.
  induction l as [|y l IH]; simpl; [reflexivity|].
  destruct (Qle_bool _ _); simpl; [reflexivity|]. now rewrite IH.
Qed.

(** Sorting the lines with their ranks sorts the lines. *)
Lemma sort_ranked_values lines : map snd (sort_ranked lines) = ranked lines.
Proof.
  unfold sort_ranked, ranked, sort, obj_values.
  induction lines as [|x l IH]; simpl; [reflexivity|].
  now rewrite sort_insert_map, IH.
Qed.

Lemma before_insert x l :
  parseEval (l_eval (snd x)) <> None ->
  Forall (fun y => parseEval (l_eval (snd y)) <> None) l ->
  Forall (fun y => (fst x < fst y)%Z) l ->
  StronglySorted before l ->
  StronglySorted before (sort_insert (fun a b => compareMoves (snd a) (snd b)) x l).
Proof.
  intros Sx. induction l as [|y l IH]; intros Sl Kl Hs; simpl.
  - repeat constructor.
  - inversion Sl as [|? ? Sy Sl']; subst. inversion Kl as [|? ? Ky Kl']; subst.
    inversion Hs as [|? ? Hs' Hy]; subst.
    rewrite compareMoves_scores by assumption.
    destruct (Qle_bool (score (snd y) - score (snd x)) 0) eqn:C.
    + apply Qle_bool_iff in C. constructor; [assumption|].
      assert (B : forall z, before y z \/ z = y -> (fst x < fst z)%Z -> before x z).
      { intros z Hz Kz. unfold before in *.
        destruct (Qlt_le_dec (score (snd z)) (score (snd x))) as [L|G]; [now left|].
        right. split; [|assumption].
        destruct Hz as [[Hz|[Hz _]]| ->]; lra. }
      constructor.
      * apply B; [now right|assumption].
      * rewrite Forall_forall in *. intros z Hz. apply B; [left; now apply Hy|now apply Kl'].
    + assert (C' : ~ (score (snd y) - score (snd x) <= 0)%Q).
      { intros H. apply Qle_bool_iff in H. congruence. }
      constructor; [now apply IH|].
      rewrite Forall_forall in *. intros z Hz.
      apply (Permutation_in _ (sort_insert_perm _ x l)) in Hz.
      destruct Hz as [<-|Hz]; [|now apply Hy].
      left. lra.
Qed.

Lemma obj_set_keys {A} k (v : A) o x :
  In x (obj_set k v o) -> x = (k, v) \/ In x o.
Proof.
  induction o as [|[k' v'] o IH]; simpl.
  - intros [<-|[]]. now left.
  - destruct (k <? k')%Z; [simpl; intros [<-|H]; auto|].
    destruct (k =? k')%Z; simpl; [intros [<-|H]; auto|].
    intros [<-|H]; [auto|]. destruct (IH H); auto.
Qed.

(** The keys of an object stay in ascending order. *)
Lemma obj_set_ascending {A} k (v : A) o :
  StronglySorted (fun x y => (fst x < fst y)%Z) o ->
  StronglySorted (fun x y => (fst x < fst y)%Z) (obj_set k v o).
Proof.
  induction o as [|[k' v'] o IH]; intros H; simpl.
  - repeat constructor.
  - inversion H as [|? ? Ho Hk]; subst.
    destruct (k <? k')%Z eqn:L.
    + apply Z.ltb_lt in L. constructor; [assumption|].
      constructor; [exact L|]. rewrite Forall_forall in *. intros y Hy.
      specialize (Hk y Hy). cbn in *. lia.
    + destruct (k =? k')%Z eqn:E.
      * apply Z.eqb_eq in E. subst. now constructor.
      * apply Z.ltb_ge in L. apply Z.eqb_neq in E.
        constructor; [now apply IH|].
        rewrite Forall_forall in *. intros y Hy.
        destruct (obj_set_keys _ _ _ _ Hy) as [->|Hy']; [cbn; lia|now apply Hk].
Qed.

Lemma accumulated_inv o :
  accumulated o ->
  StronglySorted (fun x y => (fst x < fst y)%Z) o
  /\ Forall (fun y => parseEval (l_eval (snd y)) <> None) o.
Proof.
  induction 1 as [|o k e Ho [IH1 IH2] We].
  - split; constructor.
  - split; [now apply obj_set_ascending|].
    rewrite Forall_forall in *. intros y Hy.
    destruct (obj_set_keys _ _ _ _ Hy) as [->|Hy']; [now apply written_scored|now apply IH2].
Qed.

(** The lines with their ranks, sorted: higher scores first, equal scores
    by ascending rank. *)
Lemma sort_ranked_sorted o :
  StronglySorted (fun x y => (fst x < fst y)%Z) o ->
  Forall (fun y => parseEval (l_eval (snd y)) <> None) o ->
  StronglySorted before (sort_ranked o).
Proof.
  unfold sort_ranked, sort.
  induction o as [|x o IH]; intros K S; simpl; [constructor|].
  inversion K as [|? ? Ko Kx]; subst. inversion S as [|? ? Sx So]; subst.
  apply before_insert; auto.
  - rewrite Forall_forall in *. intros y Hy. apply So.
    eapply Permutation_in; [apply sort_perm|exact Hy].
  - rewrite Forall_forall in *. intros y Hy. apply Kx.
    eapply Permutation_in; [apply sort_perm|exact Hy].
Qed.

(** Progress lines keep the lines accumulated. *)
Lemma parseAnalysisLine_accumulates line a :
  accumulated (analysisLines a) -> accumulated (analysisLines (parseAnalysisLine line a)).
Proof.
  intros H.
  destruct (parseAnalysisLine_cases line a)
    as [->|[(f & _ & _ & _ & ->)|(f & san & st & _ & _ & _ & -> & [->| ->])]]; auto.
  - cbn. constructor; [assumption|]. unfold written, entry_of. cbn. eauto.
  - destruct (updateAnalysisDisplay_core
                (set_analysisLines
                   (obj_set (f_multipv f) (entry_of f san (chess_turn (game a)))
                      (analysisLines a)) (set_currentDepth (f_depth f) a)))
      as (-> & _).
    cbn. constructor; [assumption|]. unfold written, entry_of. cbn. eauto.
Qed.

(** The order of the published list.  The list that updateAnalysisDisplay
    publishes is the accumulated lines sorted by the number behind their
    evaluation text, higher first, lines with equal numbers in the order of
    [analysisLines] (ascending rank, see [IntObj]).  The number of a
    centipawn score is the flipped score divided by 100; the number of the
    text M<n> is 10000 - n for n > 0 and -10000 - n otherwise, n being the
    number of the engine as it came.  So M<n> with n > 0 is ranked before
    any centipawn score below 10000 - n pawns, M<n> with n < 0 after any
    centipawn score above -10000 - n pawns and after any M<m> with m > 0
    when m - n < 20000; of two texts with positive numbers the smaller
    number is ranked first, and of two with negative numbers the smaller
    number too, which is the longer mate. *)
Theorem ranked_list_order a :
  accumulated (analysisLines a) ->
  let lines := analysisLines a in
  (lines <> [] -> currentAnalysis (updateAnalysisDisplay a) = ranked lines)
  /\ (exists r, Permutation r lines /\ map snd r = ranked lines /\ StronglySorted before r)
  /\ (forall n v t t', (0 < n)%Z -> (flipped v t < 100 * (10000 - n))%Z ->
        (value (evalScore_of "cp" v t) < value (evalScore_of "mate" n t'))%Q)
  /\ (forall n v t t', (n < 0)%Z -> (100 * (-10000 - n) < flipped v t)%Z ->
        (value (evalScore_of "mate" n t') < value (evalScore_of "cp" v t))%Q)
  /\ (forall n m t t', (n < 0)%Z -> (0 < m)%Z -> (m - n < 20000)%Z ->
        (value (evalScore_of "mate" n t) < value (evalScore_of "mate" m t'))%Q)
  /\ (forall n m t t', (0 < n)%Z -> (n < m)%Z ->
        (value (evalScore_of "mate" m t') < value (evalScore_of "mate" n t))%Q)
  /\ (forall n m t t', (n < m)%Z -> (m < 0)%Z ->
        (value (evalScore_of "mate" m t') < value (evalScore_of "mate" n t))%Q).
Proof.
  intros Acc lines.
  assert (V : forall n t, value (evalScore_of "mate" n t)
                          = inject_Z (if (0 <? n)%Z then 10000 - n else -10000 - n)).
  { intros n t. unfold value. now rewrite parseEval_mate. }
  assert (W : forall v t, value (evalScore_of "cp" v t) = Qmake (flipped v t) 100).
  { intros v t. unfold value. now rewrite parseEval_centipawns. }
  split; [|split; [|repeat split]].
  - intros N. unfold updateAnalysisDisplay, ranked. subst lines.
    change (analysisLines (page ?f a)) with (analysisLines a).
    pose proof (sort_perm compareMoves (obj_values (analysisLines a))) as P.
    destruct (sort compareMoves (obj_values (analysisLines a))) as [|b l]; [|reflexivity].
    exfalso. apply N.
    apply Permutation_nil in P. unfold obj_values in P.
    now apply map_eq_nil in P.
  - destruct (accumulated_inv _ Acc) as [K S].
    exists (sort_ranked lines). split; [apply sort_perm|].
    split; [apply sort_ranked_values|now apply sort_ranked_sorted].
  - intros n v t t' Hn Hv. rewrite V, W.
    apply Z.ltb_lt in Hn. rewrite Hn. unfold Qlt, inject_Z. cbn [Qnum Qden]. lia.
  - intros n v t t' Hn Hv. rewrite V, W.
    assert (E : (0 <? n)%Z = false) by (apply Z.ltb_ge; lia).
    rewrite E. unfold Qlt, inject_Z. cbn [Qnum Qden]. lia.
  - intros n m t t' Hn Hm H. rewrite !V.
    assert (E : (0 <? n)%Z = false) by (apply Z.ltb_ge; lia).
    apply Z.ltb_lt in Hm. rewrite E, Hm. unfold Qlt, inject_Z. cbn [Qnum Qden]. lia.
  - intros n m t t' Hn Hm. rewrite !V.
    assert (E : (0 <? m)%Z = true) by (apply Z.ltb_lt; lia).
    apply Z.ltb_lt in Hn. rewrite E, Hn. unfold Qlt, inject_Z. cbn [Qnum Qden]. lia.
  - intros n m t t' Hn Hm. rewrite !V.
    assert (E : (0 <? n)%Z = false) by (apply Z.ltb_ge; lia).
    assert (E' : (0 <? m)%Z = false) by (apply Z.ltb_ge; lia).
    rewrite E, E'. unfold Qlt, inject_Z. cbn [Qnum Qden]. lia.
Qed.

End Ranking.

(* ================================================================== *)
(** ** The cache key *)
(* ================================================================== *)

(** C5.  Two FENs with the same board-layout field give the same cache
    key for a move, whatever follows the first space: the key is that
    field, an underscore and the move. *)
Theorem cache_key_board_only fen1 fen2 move b :
  board_layout_field fen1 b -> board_layout_field fen2 b ->
  getCacheKey fen1 move = getCacheKey fen2 move
  /\ getCacheKey fen1 move = (b ++ "_" ++ move)%string.
Proof.
  assert (K : forall fen, board_layout_field fen b ->
                          getCacheKey fen move = (b ++ "_" ++ move)%string).
  { intros fen [Hb [->|[rest ->]]]; unfold getCacheKey; cbv zeta.
    - now rewrite JsFacts.first_split_no_sep.
    - now rewrite JsFacts.first_split_field. }
  intros H1 H2. split; [|now apply K]. now rewrite (K _ H1), (K _ H2).
Qed.

(* ================================================================== *)
(** ** Concrete instances *)
(* ================================================================== *)

Lemma cache_key_board_only_witness :
  let b := "rnbqkbnr/pppppppp/8/8/4P3/8/PPPP1PPP/RNBQKBNR" in
  let fen2 := "rnbqkbnr/pppppppp/8/8/4P3/8/PPPP1PPP/RNBQKBNR w - - 12 40" in
  board_layout_field Excerpt.after_e4 b /\ board_layout_field fen2 b
  /\ getCacheKey Excerpt.after_e4 "e5" = getCacheKey fen2 "e5".
Proof.
  cbv zeta.
  assert (H1 : board_layout_field Excerpt.after_e4
                 "rnbqkbnr/pppppppp/8/8/4P3/8/PPPP1PPP/RNBQKBNR").
  { split; [reflexivity|]. right. eexists. reflexivity. }
  assert (H2 : board_layout_field
                 "rnbqkbnr/pppppppp/8/8/4P3/8/PPPP1PPP/RNBQKBNR w - - 12 40"
                 "rnbqkbnr/pppppppp/8/8/4P3/8/PPPP1PPP/RNBQKBNR").
  { split; [reflexivity|]. right. eexists. reflexivity. }
  split; [exact H1|]. split; [exact H2|].
  exact (proj1 (cache_key_board_only _ _ "e5" _ H1 H2)).
Defined.

Lemma late_line_handled_like_any_witness :
  let a := Scenario.superseded in
  let m := Scenario.late_line in
  let m' := Scenario.late_odd in
  Js.startsWith (data m) "info depth" = true
  /\ parseFields (data m) = Some Scenario.late_fields
  /\ parseFields (data m') = Some Scenario.late_odd_fields
  /\ legal_now "d2d4" a = true
  /\ (exists san,
        obj_get 1%Z (analysisLines (deliver (services := Excerpt.offline) m a))
        = Some (entry_of Scenario.late_fields san White)
        /\ engineDepth (dom (deliver (services := Excerpt.offline) m a)) = LblDepth 14
        /\ exists i el, explanation_el i (deliver (services := Excerpt.offline) m a) = Some el
             /\ item_uci el = "d2d4" /\ item_notation el = san)
  /\ (exists san,
        obj_get 1%Z (analysisLines (deliver (services := Excerpt.offline) m' a))
        = Some (entry_of Scenario.late_odd_fields san White)
        /\ published (deliver (services := Excerpt.offline) m' a) = published a).
Proof.
  cbv zeta.
  assert (P : Js.startsWith (data Scenario.late_line) "info depth" = true) by reflexivity.
  assert (P' : Js.startsWith (data Scenario.late_odd) "info depth" = true) by reflexivity.
  assert (F : parseFields (data Scenario.late_line) = Some Scenario.late_fields)
    by (vm_compute; reflexivity).
  assert (F' : parseFields (data Scenario.late_odd) = Some Scenario.late_odd_fields)
    by (vm_compute; reflexivity).
  assert (L : legal_now "d2d4" Scenario.superseded = true) by (vm_compute; reflexivity).
  split; [exact P|]. split; [exact F|]. split; [exact F'|]. split; [exact L|].
  destruct (late_line_handled_like_any (services := Excerpt.offline)
              Scenario.superseded Scenario.late_line P) as (_ & _ & _ & _ & H).
  destruct (H Scenario.late_fields F ltac:(vm_compute; discriminate) L)
    as (san & S & Sh & _).
  destruct (Sh ltac:(vm_compute; discriminate) eq_refl) as (Lb & _ & i & el & El & U & N).
  destruct (late_line_handled_like_any (services := Excerpt.offline)
              Scenario.superseded Scenario.late_odd P') as (_ & _ & _ & _ & H').
  destruct (H' Scenario.late_odd_fields F' ltac:(vm_compute; discriminate) L)
    as (san' & S' & _ & Q).
  split.
  - exists san. split; [exact S|]. split; [exact Lb|]. exists i, el. auto.
  - exists san'. split; [exact S'|]. apply Q. right. vm_compute. discriminate.
Defined.

Lemma depth_never_decreases_witness :
  let a := Excerpt.page_at Excerpt.start in
  let ls1 := [Scenario.progress "12" "1" "cp 30" "e2e4 e7e5 g1f3"] in
  let line := data Scenario.late_line in
  let s1 := messages (services := Excerpt.offline) ls1 (analyzePosition a) in
  let s2 := messages (services := Excerpt.offline) [line; "bestmove d2d4"] s1 in
  parseFields line = Some Scenario.late_fields
  /\ (currentDepth s1 <= 14)%Z
  /\ currentDepth (parseAnalysisLine line s1) = 14%Z
  /\ engineDepth (dom s1) = LblDepth 12 /\ engineDepth (dom s2) = LblDepth 14
  /\ (12 <= 14)%Z.
Proof.
  cbv zeta.
  destruct (depth_never_decreases (services := Excerpt.offline)
              (Excerpt.page_at Excerpt.start)
              [Scenario.progress "12" "1" "cp 30" "e2e4 e7e5 g1f3"]
              (data Scenario.late_line) Scenario.late_fields
              [data Scenario.late_line; "bestmove d2d4"]) as (H1 & _ & H3).
  assert (F : parseFields (data Scenario.late_line) = Some Scenario.late_fields)
    by (vm_compute; reflexivity).
  destruct (H1 F) as [_ H2].
  split; [exact F|].
  split; [vm_compute; discriminate|].
  split; [apply H2; vm_compute; discriminate|].
  split; [vm_compute; reflexivity|].
  split; [vm_compute; reflexivity|].
  apply (H3 12%Z 14%Z); vm_compute; reflexivity.
Defined.

Lemma centipawn_display_witness :
  let a := Scenario.black_to_move in
  let a' := parseAnalysisLine Scenario.black_line a in
  chess_turn (game a) = Black
  /\ parseFields Scenario.black_line = Some Scenario.black_fields
  /\ (exists e,
        obj_get 1%Z (analysisLines a') = Some e
        /\ Js.parseFloat (l_eval e) = Some (Qmake 35 100)
        /\ two_decimal_places (l_eval e)
        /\ (Js.startsWith (l_eval e) "+" = true <-> (0 < 35)%Z))
  /\ (exists i el,
        explanation_el i a' = Some el /\ item_uci el = "e7e5" /\ item_notation el = "e5"
        /\ Js.parseFloat (item_eval el) = Some (Qmake 35 100)
        /\ two_decimal_places (item_eval el)
        /\ (Js.startsWith (item_eval el) "+" = true <-> (0 < 35)%Z))
  /\ option_map item_eval (explanation_el 0 a') = Some "+0.35".
Proof.
  cbv zeta. split; [reflexivity|].
  assert (F : parseFields Scenario.black_line = Some Scenario.black_fields)
    by (vm_compute; reflexivity).
  split; [exact F|].
  destruct (centipawn_display Scenario.black_to_move Scenario.black_line
              Scenario.black_fields "e5"
              {| Excerpt.position := Excerpt.after_e4_e5;
                 Excerpt.history := [Excerpt.after_e4] |} F eq_refl
              ltac:(vm_compute; reflexivity) ltac:(vm_compute; discriminate)
              ltac:(vm_compute; reflexivity))
    as (St & Sh & _).
  split; [exact St|]. split; [|vm_compute; reflexivity].
  exact (Sh ltac:(vm_compute; discriminate) eq_refl).
Defined.

(** C9 fails for an accepted line that is not published.  The candidates
    of the starting position are on the page at depth 12, 1.e4 with +0.30.
    The line of depth 13 that gives 1.e4 the score cp 99 is accepted and
    stored, and the page still shows +0.30; the line of depth 14 that gives
    cp 31 replaces it and is published.  The evaluation of the accepted line
    of depth 13 was never displayed. *)
Lemma odd_depth_score_never_displayed :
  let a := Scenario.two_candidates in
  let a1 := parseAnalysisLine Scenario.e4_odd a in
  let a2 := parseAnalysisLine Scenario.e4_even a1 in
  let shown x := match moveList (dom x) with
                 | Items l => map (fun el => (item_notation el, item_eval el)) l
                 | EmptyState _ => []
                 end in
  shown a = [("e4", "+0.30"); ("d4", "+0.25")]
  /\ option_map (fun e => (l_move e, l_eval e, l_depth e)) (obj_get 1%Z (analysisLines a1))
     = Some ("e4", "+0.99", 13%Z)
  /\ currentDepth a1 = 13%Z
  /\ dom a1 = dom a
  /\ shown a2 = [("e4", "+0.31"); ("d4", "+0.25")]
  /\ evalScore (dom a1) = "+0.30" /\ evalScore (dom a2) = "+0.31".
Proof. vm_compute. repeat split. Qed.

Lemma illegal_click_only_clears_preview_witness :
  let a := Excerpt.page_at Excerpt.start in
  let a' := playAnalysisMove "e2e5" a in
  chess_move (game a) (uci_from "e2e5") (uci_to "e2e5") (uci_promotion "e2e5") = None
  /\ game a' = game a /\ dom a' = dom a /\ rt a' = rt a /\ board a' = board a.
Proof.
  cbv zeta. split; [reflexivity|].
  destruct (illegal_click_only_clears_preview (Excerpt.page_at Excerpt.start) "e2e5"
              eq_refl) as (G & _ & _ & _ & D & _ & R & _ & _ & B).
  split; [exact G|]. split; [exact D|]. split; [exact R|].
  apply B; reflexivity.
Defined.

(** C4 fails while the worker is missing: before the engine script has
    loaded, or when it could not be loaded, the timer fires and sends
    nothing. *)
Lemma no_worker_no_request :
  let a := Scenario.no_worker in
  stockfish a = false
  /\ position_changed EvNewGame a = true
  /\ posted (advance (services := Excerpt.offline) 100
               (handle (services := Excerpt.offline) EvNewGame a)) = []
  /\ timers (rt (advance (services := Excerpt.offline) 100
                   (handle (services := Excerpt.offline) EvNewGame a))) = [].
Proof. vm_compute. repeat split. Qed.

Lemma debounce_sends_one_request_witness :
  let a := Excerpt.page_at Excerpt.start in
  let last := run (services := Excerpt.offline)
                (handle (services := Excerpt.offline) (EvDrop "e2" "e4") a)
                Scenario.burst_events in
  stockfish a = true /\ one_timer a
  /\ position_changed (EvDrop "e2" "e4") a = true
  /\ rapid (services := Excerpt.offline)
        (handle (services := Excerpt.offline) (EvDrop "e2" "e4") a) Scenario.burst_events
  /\ chess_fen (game last) = Excerpt.after_e4_e5
  /\ posted (advance (services := Excerpt.offline) 100 last)
     = ["stop"; ("position fen " ++ Excerpt.after_e4_e5)%string; "go depth 18"].
Proof.
  cbv zeta.
  assert (O : one_timer (Excerpt.page_at Excerpt.start)) by (intros t []).
  assert (R : rapid (services := Excerpt.offline)
                (handle (services := Excerpt.offline) (EvDrop "e2" "e4")
                   (Excerpt.page_at Excerpt.start)) Scenario.burst_events).
  { repeat split; vm_compute; reflexivity. }
  split; [reflexivity|]. split; [exact O|]. split; [reflexivity|]. split; [exact R|].
  split; [vm_compute; reflexivity|].
  destruct (debounce_sends_one_request (services := Excerpt.offline)
              (Excerpt.page_at Excerpt.start) (EvDrop "e2" "e4")
              Scenario.burst_events 100 eq_refl O eq_refl R
              ltac:(vm_compute; discriminate)) as (_ & H & _).
  rewrite H. vm_compute. reflexivity.
Defined.

(** C6 fails when the reply names a move that has a cached explanation:
    1.e4 is cached as [Opens center], only 1.d4 is asked for, the reply
    has a line for each of the two moves, and the element of 1.e4 ends
    with the text of the reply. *)
Lemma reply_overrides_cached_text :
  let a := Scenario.finished in
  let a' := fetchExplanations (services := Scenario.answers_both) a in
  map l_move (firstn 4 (currentAnalysis a)) = ["e4"; "d4"]
  /\ cache_hit (services := Scenario.answers_both) a "e4" = Some "Opens center"
  /\ cache_hit (services := Scenario.answers_both) a "d4" = None
  /\ List.length (requested a') = 1
  /\ explanation_text 0 a' = Some "Frees the bishop."
  /\ explanation_text 1 a' = Some "Claims the centre.".
Proof. vm_compute. repeat split. Qed.

(** Two more corners of the order.  A centipawn score of 10000 pawns or
    more is ranked before M3; and of M-2 and M-5 the second is ranked
    first. *)
Lemma mate_order_exceptions :
  map l_eval (currentAnalysis Scenario.huge_and_mate) = ["+10000.00"; "M3"]
  /\ map fst (analysisLines Scenario.huge_and_mate) = [1%Z; 2%Z]
  /\ map l_eval (currentAnalysis Scenario.two_mates) = ["M-5"; "M-2"]
  /\ map (fun e => l_eval (snd e)) (analysisLines Scenario.two_mates) = ["M-2"; "M-5"].
Proof. vm_compute. repeat split. Qed.

Lemma ranked_list_order_witness :
  let a := Scenario.two_candidates in
  accumulated (analysisLines a)
  /\ map l_eval (ranked (analysisLines a)) = ["+0.30"; "+0.25"]
  /\ exists r, Permutation r (analysisLines a) /\ map snd r = ranked (analysisLines a)
               /\ StronglySorted before r.
Proof.
  cbv zeta.
  assert (A : accumulated (analysisLines Scenario.two_candidates)).
  { unfold Scenario.two_candidates.
    do 2 apply parseAnalysisLine_accumulates. constructor. }
  split; [exact A|]. split; [vm_compute; reflexivity|].
  exact (proj1 (proj2 (ranked_list_order Scenario.two_candidates A))).
Defined.


(* ================================================================== *)
(** ** What the worker's messages do and leave alone *)
(* ================================================================== *)

Section Messages.

Context {rules : RulesEngine} {services : Services}.

Lemma updateAnalysisDisplay_beside a :
  beside_analysis (updateAnalysisDisplay a) = beside_analysis a
  /\ effects (rt (updateAnalysisDisplay a)) = effects (rt a).
Proof.
  unfold updateAnalysisDisplay.
  destruct (sort compareMoves (obj_values (analysisLines _))); split; reflexivity.
Qed.

Lemma parseAnalysisLine_beside line a :
  beside_analysis (parseAnalysisLine line a) = beside_analysis a
  /\ effects (rt (parseAnalysisLine line a)) = effects (rt a).
Proof.
  destruct (parseAnalysisLine_cases line a)
    as [->|[(f & _ & _ & _ & ->)|(f & san & st & _ & _ & _ & -> & [->| ->])]];
    try (split; reflexivity).
  destruct (updateAnalysisDisplay_beside
              (set_analysisLines
                 (obj_set (f_multipv f) (entry_of f san (chess_turn (game a)))
                    (analysisLines a)) (set_currentDepth (f_depth f) a))) as [-> ->].
  split; reflexivity.
Qed.

Lemma kept_beside a b :
  kept b = kept a -> apiKeyModal_active (dom b) = apiKeyModal_active (dom a) ->
  beside_analysis b = beside_analysis a.
Proof.
  unfold kept, beside_analysis. intros [= ] M. congruence.
Qed.

Lemma fetchExplanations_modal a :
  Js.truthy (apiKey a) = true ->
  apiKeyModal_active (dom (fetchExplanations a)) = apiKeyModal_active (dom a).
Proof.
  intros K. destruct (currentAnalysis a) as [|m0 rest] eqn:E.
  { unfold fetchExplanations. now rewrite K, E. }
  assert (N : currentAnalysis a <> []) by (rewrite E; discriminate).
  rewrite (fetchExplanations_run a K N). cbv zeta.
  destruct (filter _ _); [reflexivity|].
  destruct (messages_api _ _);
    cbn [page set_dom dom dom_explainBtn dom_moveItems dom_moveList apiKeyModal_active emit set_rt];
    now rewrite ?save_all_dom.
Qed.

Lemma finalizeAnalysis_beside a :
  beside_analysis (finalizeAnalysis a) = beside_analysis a.
Proof.
  unfold finalizeAnalysis.
  destruct (updateAnalysisDisplay_beside a) as [B _].
  destruct (autoExplainCheckbox _ && Js.truthy (apiKey (updateAnalysisDisplay a))
            && _) eqn:C; [|exact B].
  apply andb_prop in C as [C _]. apply andb_prop in C as [_ K].
  rewrite <- B. apply kept_beside; [apply fetchExplanations_kept|].
  now apply fetchExplanations_modal.
Qed.

Lemma message_beside l a :
  beside_analysis (handleStockfishMessage l a) = beside_analysis a.
Proof.
  unfold handleStockfishMessage.
  destruct (Js.startsWith l "info depth"); [apply parseAnalysisLine_beside|].
  destruct (Js.startsWith l "bestmove"); [apply finalizeAnalysis_beside|reflexivity].
Qed.

(** The messages of the worker never talk back to the engine and never
    touch the game, the board, the timers, the key or the preview. *)
Theorem messages_leave_the_rest ls a :
  beside_analysis (messages ls a) = beside_analysis a.
Proof.
  revert a. induction ls as [|l ls IH]; intros a; cbn [messages fold_left]; [reflexivity|].
  fold (messages ls (handleStockfishMessage l a)). rewrite IH. apply message_beside.
Qed.

Lemma message_requested l a :
  autoExplainCheckbox (dom a) && Js.truthy (apiKey a) = false ->
  effects (rt (handleStockfishMessage l a)) = effects (rt a).
Proof.
  intros Off. unfold handleStockfishMessage.
  destruct (Js.startsWith l "info depth"); [apply parseAnalysisLine_beside|].
  destruct (Js.startsWith l "bestmove"); [|reflexivity].
  unfold finalizeAnalysis.
  destruct (updateAnalysisDisplay_beside a) as [B E].
  assert (A : autoExplainCheckbox (dom (updateAnalysisDisplay a))
              && Js.truthy (apiKey (updateAnalysisDisplay a)) = false).
  { unfold beside_analysis in B. injection B as _ _ _ -> _ _ _ -> _. exact Off. }
  rewrite A. exact E.
Qed.

(** Unless the Auto box is ticked and a key is set, the messages of the
    worker cause no effect outside the page: no request for explanations,
    no cache access, nothing posted. *)
Theorem messages_without_auto_explain ls a :
  autoExplainCheckbox (dom a) && Js.truthy (apiKey a) = false ->
  effects (rt (messages ls a)) = effects (rt a).
Proof.
  revert a. induction ls as [|l ls IH]; intros a Off; cbn [messages fold_left];
    [reflexivity|].
  fold (messages ls (handleStockfishMessage l a)).
  rewrite IH; [now apply message_requested|].
  pose proof (message_beside l a) as B.
  unfold beside_analysis in B. injection B as _ _ _ -> _ _ _ -> _. exact Off.
Qed.

End Messages.

(* ================================================================== *)
(** ** The explanations while the page goes on *)
(* ================================================================== *)

Section AsynchronousFacts.

Context {rules : RulesEngine} {services : Services}.

Lemma with_el_fields i f a :
  requested (with_el i f a) = requested a
  /\ supabaseClient (with_el i f a) = supabaseClient a
  /\ listId (dom (with_el i f a)) = listId (dom a)
  /\ kept (with_el i f a) = kept a.
Proof.
  unfold with_el. destruct (moveList (dom a)) as [msg|l]; [auto|].
  destruct (nth_error l i); auto.
Qed.

Lemma with_el_none i f a : explanation_el i a = None -> with_el i f a = a.
Proof.
  unfold explanation_el, with_el. destruct (moveList (dom a)) as [msg|l]; [reflexivity|].
  now intros ->.
Qed.

Lemma with_el_dom i f x y : dom x = dom y -> dom (with_el i f x) = dom (with_el i f y).
Proof.
  intros E. unfold with_el. rewrite E. destruct (moveList (dom y)) as [msg|l]; [exact E|].
  destruct (nth_error l i); [|exact E].
  cbn [page set_dom dom]. now rewrite E.
Qed.

Lemma with_el_exists i f j a :
  explanation_el j (with_el i f a) = None <-> explanation_el j a = None.
Proof.
  rewrite with_el_page. unfold explanation_el.
  cbn [page set_dom dom dom_moveItems moveList].
  change (match ?ml with Items l => nth_error l j | EmptyState _ => None end)
    with (ml_get j ml).
  rewrite ml_get_upd. destruct (Nat.eqb j i); [|reflexivity].
  destruct (ml_get j (moveList (dom a))); cbn; split; congruence.
Qed.

Lemma write_el_fields el f a :
  requested (write_el el f a) = requested a
  /\ supabaseClient (write_el el f a) = supabaseClient a
  /\ kept (write_el el f a) = kept a.
Proof.
  unfold write_el. destruct el as [r|]; [|auto].
  destruct (Nat.eqb _ _); [|auto].
  destruct (with_el_fields (el_index r) f a) as (? & ? & _ & ?). auto.
Qed.

(** A write through a variable, when the list is still the one the element
    was taken from. *)
Lemma write_el_attached i f a x :
  listId (dom x) = listId (dom a) ->
  (explanation_el i x = None <-> explanation_el i a = None) ->
  write_el (getExplanationEl i a) f x = with_el i f x.
Proof.
  intros L E. unfold write_el, getExplanationEl.
  destruct (explanation_el i a) as [el|] eqn:Ea.
  - cbn [el_list el_index]. now rewrite L, Nat.eqb_refl.
  - symmetry. apply with_el_none. now apply E.
Qed.

Lemma getExplanationFromCache_answer a fen move :
  getExplanationFromCache a fen move =
    if supabaseClient a then cacheAnswer fen move else None.
Proof.
  unfold getExplanationFromCache, cacheAnswer. now destruct (supabaseClient a).
Qed.

(** The cache loop while the page goes on: it collects what the run with
    nothing meanwhile collects, and asks for nothing. *)
Lemma cache_phase c : forall ms i x y ca un ws,
  Forall elsewhere ws -> (List.length ms <= List.length ws)%nat ->
  supabaseClient x = supabaseClient y ->
  let r := checkCache (c_fen c) i ms (y, ca, un) in
  exists x' k, (k <= List.length ms)%nat
    /\ proceed ws (afterCache c (cacheLoop c i ms (x, ca, un)))
       = proceed (skipn k ws) (afterCache c (x', inr (snd (fst r), snd r)))
    /\ requested x' = requested x /\ supabaseClient x' = supabaseClient x
    /\ (dom x = dom y -> Forall off_page (firstn k ws) -> dom x' = dom (fst (fst r))).
Proof.
  induction ms as [|m ms IH]; intros i x y ca un ws W Len Cl; cbv zeta.
  - exists x, 0%nat. cbn [checkCache cacheLoop fst snd skipn List.length]. auto.
  - cbn [checkCache cacheLoop].
    set (f1 := fun el => el_text "Checking cache..." (el_loading true el)).
    set (el := getExplanationEl i x).
    set (x1 := write_el el f1 x).
    set (y1 := with_el i f1 y).
    assert (X1 : requested x1 = requested x /\ supabaseClient x1 = supabaseClient x).
    { destruct (write_el_fields el f1 x) as (? & ? & _). auto. }
    destruct X1 as [Rq1 Cl1].
    assert (Y1 : supabaseClient y1 = supabaseClient y)
      by apply (with_el_fields i f1 y).
    assert (A1 : x1 = with_el i f1 x).
    { apply write_el_attached; [reflexivity|tauto]. }
    rewrite getExplanationFromCache_answer, Y1, <- Cl, <- Cl1.
    destruct (supabaseClient x1) eqn:Client; cbn [negb].
    + (* the select is awaited *)
      destruct ws as [|w ws']; [cbn in Len; lia|].
      cbn [afterCache proceed resume].
      inversion W as [|? ? Ww W']; subst.
      destruct (Ww x1) as [Rw Cw].
      assert (Att : dom x = dom y -> off_page w -> forall g,
                 write_el el g (w x1) = with_el i g (w x1)
                 /\ dom (with_el i g (w x1)) = dom (with_el i g y1)).
      { intros D O g. split.
        - apply write_el_attached.
          + rewrite (O x1), A1. apply (with_el_fields i f1 x).
          + unfold explanation_el at 1. rewrite (O x1).
            fold (explanation_el i x1). rewrite A1. apply with_el_exists.
        - apply with_el_dom. rewrite (O x1), A1. now apply with_el_dom. }
      destruct (cacheAnswer (c_fen c) (l_move m)) as [[|ch t]|];
        cbn [afterLookup];
        match goal with
        | |- context [cacheLoop c (S i) ms (write_el el ?g (w x1), ?ca', ?un')] =>
            destruct (IH (S i) (write_el el g (w x1)) (with_el i g y1) ca' un' ws' W'
                        ltac:(cbn in Len; lia)
                        ltac:(rewrite (proj1 (proj2 (write_el_fields el g (w x1)))),
                                (proj1 (proj2 (with_el_fields i g y1))); congruence))
              as (x' & k & Hk & Hp & Hr & Hc & Hd);
            exists x', (S k);
            destruct (write_el_fields el g (w x1)) as (Rg & Cg & _);
            split; [cbn [List.length]; lia|];
            split; [exact Hp|];
            split; [congruence|];
            split; [congruence|];
            intros D O; cbn [firstn] in O; inversion O as [|? ? Ow O']; subst;
            apply Hd; [|assumption];
            destruct (Att D Ow g) as [-> ->]; reflexivity
        end.
    + (* no client: the function goes on at once *)
      cbn [afterLookup].
      set (g := el_text "Generating explanation...").
      destruct (IH (S i) (write_el el g x1) (with_el i g y1) ca (un ++ [m]) ws W
                  ltac:(cbn in Len; lia)
                  ltac:(rewrite (proj1 (proj2 (write_el_fields el g x1))),
                          (proj1 (proj2 (with_el_fields i g y1))); congruence))
        as (x' & k & Hk & Hp & Hr & Hc & Hd).
      exists x', k.
      destruct (write_el_fields el g x1) as (Rg & Cg & _).
      split; [cbn [List.length]; lia|].
      split; [exact Hp|].
      split; [congruence|].
      split; [congruence|].
      intros D O. apply Hd; [|assumption].
      assert (A2 : write_el el g x1 = with_el i g x1).
      { apply write_el_attached.
        - rewrite A1. apply (with_el_fields i f1 x).
        - rewrite A1. apply with_el_exists. }
      rewrite A2. apply with_el_dom. rewrite A1. now apply with_el_dom.
Qed.

(** The function once the API has answered, the page being [b] by then:
    it ends, asks for nothing more, releases the button, and writes by
    index into the list that is shown then. *)
Lemma reply_outcome c prompt cached uncached b :
  let s := resume (AwaitReply c prompt cached uncached) b in
  snd s = None
  /\ requested (fst s) = requested b
  /\ explainBtn_disabled (dom (fst s)) = false
  /\ explainBtn_text (dom (fst s)) = "Explain Moves"
  /\ kept (fst s) = kept b
  /\ (forall i,
        explanation_el i (fst s) =
          match nth_error (c_moves c) i with
          | Some m =>
              match
                match messages_api configuredModel prompt with
                | ApiText text => success_write (sobj_spread cached (parseExplanations text)) m
                | ApiFailure => failure_write cached m
                end
              with
              | Some h => option_map h (explanation_el i b)
              | None => explanation_el i b
              end
          | None => explanation_el i b
          end)
  /\ (forall b', dom b' = dom b ->
        dom (fst (resume (AwaitReply c prompt cached uncached) b')) = dom (fst s)).
Proof.
  cbv zeta. cbn [resume fst snd].
  destruct (messages_api configuredModel prompt) as [text|].
  - unfold forEach.
    assert (E : forall x,
               forEach_from 0
                 (fun m i =>
                    with_el i
                      (fun el =>
                         el_text
                           match sobj_truthy (l_move m)
                                   (sobj_spread cached (parseExplanations text)) with
                           | Some e => e
                           | None => "No explanation available"
                           end
                           (el_loading false el))) (c_moves c) x
               = page (dom_moveItems
                         (ml_each (success_write (sobj_spread cached (parseExplanations text)))
                            0 (c_moves c) (moveList (dom x)))) x).
    { intros x. apply forEach_from_page. intros; reflexivity. }
    rewrite E, save_all_dom.
    split; [reflexivity|]. split.
    { rewrite !requested_page. apply save_all_kept. }
    split; [reflexivity|]. split; [reflexivity|]. split.
    { rewrite kept_page_btn, kept_page_list. apply save_all_kept. }
    split.
    + intros i.
      change (explanation_el i (page ?f (page (dom_moveItems ?ml) ?x))) with (ml_get i ml).
      rewrite ml_get_each. cbn [Nat.leb]. rewrite Nat.sub_0_r. reflexivity.
    + intros b' D. rewrite E, save_all_dom.
      cbn [page set_dom dom]. rewrite !save_all_dom, D. reflexivity.
  - unfold forEach.
    assert (E : forall x,
               forEach_from 0
                 (fun m i a =>
                    match sobj_truthy (l_move m) cached with
                    | None =>
                        with_el i
                          (fun el => el_text "Error fetching explanation" (el_loading false el))
                          a
                    | Some _ => a
                    end) (c_moves c) x
               = page (dom_moveItems
                         (ml_each (failure_write cached) 0 (c_moves c) (moveList (dom x)))) x).
    { intros x. apply forEach_from_page. intros m i a. unfold failure_write.
      now destruct (sobj_truthy _ _). }
    rewrite E.
    split; [reflexivity|]. split; [reflexivity|].
    split; [reflexivity|]. split; [reflexivity|]. split; [reflexivity|].
    split.
    + intros i.
      change (explanation_el i (page ?f (page (dom_moveItems ?ml) ?x))) with (ml_get i ml).
      rewrite ml_get_each. cbn [Nat.leb]. rewrite Nat.sub_0_r. reflexivity.
    + intros b' D. rewrite E. cbn [page set_dom dom]. rewrite D. reflexivity.
Qed.

(** The text that a successful run writes for a move. *)
Lemma reply_text a ms m text :
  In m ms ->
  match sobj_truthy (l_move m) (sobj_spread (cache_collect a ms []) (parseExplanations text)) with
  | Some e => e
  | None => "No explanation available"
  end =
  match sobj_get (l_move m) (parseExplanations text) with
  | Some e => if Js.truthy e then e else "No explanation available"
  | None =>
      match cache_hit a (l_move m) with
      | Some s => s
      | None => "No explanation available"
      end
  end.
Proof.
  intros Hin. unfold sobj_truthy, sobj_spread. rewrite sobj_get_app.
  destruct (sobj_get (l_move m) (parseExplanations text)) as [e|].
  - now destruct (Js.truthy e).
  - pose proof (cached_of_move a ms m Hin) as C.
    unfold sobj_truthy in C.
    destruct (cache_hit a (l_move m)) as [s|] eqn:Hh.
    + destruct (sobj_get _ _) as [v|]; [|discriminate].
      destruct (Js.truthy v); [|discriminate]. injection C as ->. reflexivity.
    + destruct (sobj_get _ _) as [v|]; [|reflexivity].
      destruct (Js.truthy v); [discriminate|reflexivity].
Qed.

(** A run with a key and candidates, whatever the page does meanwhile: with
    every move cached it ends after the cache loop; otherwise it sends one
    request and goes on from the page as it is when the answer arrives. *)
Lemma explanations_run a ws :
  Js.truthy (apiKey a) = true -> currentAnalysis a <> [] ->
  Forall elsewhere ws ->
  (List.length (firstn 4 (currentAnalysis a)) < List.length ws)%nat ->
  let moves := firstn 4 (currentAnalysis a) in
  let c := {| c_fen := chess_fen (game a); c_turn := turn_name a; c_moves := moves |} in
  let cached := cache_collect a moves [] in
  let uncached := filter (is_uncached a) moves in
  let prompt := explanationPrompt (chess_fen (game a)) (turn_name a) uncached in
  match uncached with
  | [] =>
      exists x,
        proceed ws (startExplanations a) = (page (dom_explainBtn false "Explain Moves") x, None)
        /\ requested x = requested a
        /\ (Forall off_page ws ->
            dom (page (dom_explainBtn false "Explain Moves") x) = dom (fetchExplanations a))
  | _ :: _ =>
      exists b,
        proceed ws (startExplanations a) = resume (AwaitReply c prompt cached uncached) b
        /\ requested b = requested a ++ [prompt]
        /\ (Forall off_page ws ->
            dom (fst (resume (AwaitReply c prompt cached uncached) b))
            = dom (fetchExplanations a))
  end.
Proof.
  intros K N W Len. cbv zeta.
  set (moves := firstn 4 (currentAnalysis a)).
  set (c := {| c_fen := chess_fen (game a); c_turn := turn_name a; c_moves := moves |}).
  set (busy := page (dom_explainBtn true "Explaining...") a).
  assert (S0 : startExplanations a = afterCache c (cacheLoop c 0 moves (busy, [], []))).
  { clear - K N. subst c moves busy. unfold startExplanations. rewrite K. cbn [negb].
    destruct (currentAnalysis a) as [|m0 rest] eqn:E at 1; [contradiction|]. reflexivity. }
  fold moves in Len.
  destruct (cache_phase c moves 0 busy busy [] [] ws W ltac:(lia) eq_refl)
    as (x' & k & Hk & Hp & Hr & Hc & Hd).
  cbv zeta in Hp, Hd.
  pose proof (checkCache_spec busy moves 0 (moveList (dom busy)) [] []) as H.
  rewrite page_eta in H.
  change (chess_fen (game busy)) with (c_fen c) in H.
  rewrite H in Hp, Hd. cbn [fst snd app] in Hp, Hd.
  assert (CCo : forall ms c0, cache_collect busy ms c0 = cache_collect a ms c0).
  { induction ms as [|m ms IHms]; intros c0; simpl; [reflexivity|]. apply IHms. }
  rewrite CCo in Hp.
  change (filter (is_uncached busy) moves) with (filter (is_uncached a) moves) in Hp.
  rewrite S0.
  pose proof (fetchExplanations_run a K N) as Run. cbv zeta in Run. fold moves in Run.
  assert (Off : Forall off_page ws -> Forall off_page (firstn k ws)).
  { intros O. apply Forall_forall. intros w Hw. rewrite Forall_forall in O.
    apply O. rewrite <- (firstn_skipn k ws). apply in_or_app. now left. }
  destruct (filter (is_uncached a) moves) as [|u us] eqn:EU.
  - exists x'. cbn [afterCache] in Hp.
    split; [etransitivity; [exact Hp|]; now destruct (skipn k ws)|]. split; [exact Hr|].
    intros O. rewrite Run. cbn [page set_dom dom]. f_equal.
    apply Hd; [reflexivity|auto].
  - cbn [afterCache] in Hp.
    destruct (skipn k ws) as [|w ws'] eqn:Sk.
    { exfalso. assert (L : List.length (skipn k ws) = 0%nat) by now rewrite Sk.
      rewrite length_skipn in L. lia. }
    set (prompt := explanationPrompt (chess_fen (game a)) (turn_name a) (u :: us)).
    change (explanationPrompt (c_fen c) (c_turn c) (u :: us)) with prompt in Hp.
    cbn [proceed] in Hp.
    assert (Ww : elsewhere w /\ (Forall off_page ws -> off_page w)).
    { assert (In w ws).
      { rewrite <- (firstn_skipn k ws), Sk. apply in_or_app. right. now left. }
      split; [now apply (proj1 (Forall_forall _ _) W)|].
      intros O. now apply (proj1 (Forall_forall _ _) O). }
    destruct Ww as [Ww Ow].
    exists (w (emit (ClaudeRequest configuredModel prompt) x')).
    destruct (reply_outcome c prompt (cache_collect a moves []) (u :: us)
                (w (emit (ClaudeRequest configuredModel prompt) x')))
      as (Sn & _ & _ & _ & _ & _ & Dm).
    cbv zeta in Sn, Dm.
    split.
    { etransitivity; [exact Hp|].
      destruct (resume _ _) as [z t]. cbn [snd] in Sn. subst t. now destruct ws'. }
    split.
    { rewrite (proj1 (Ww _)), requested_emit, Hr. reflexivity. }
    intros O. rewrite Run.
    rewrite <- (Dm (emit (ClaudeRequest configuredModel prompt)
                      (page (dom_moveItems (ml_each (cache_write a) 0 moves (moveList (dom a))))
                         busy))).
    2:{ rewrite (Ow O). cbn [emit set_rt dom]. symmetry. apply Hd; [reflexivity|auto]. }
    cbn [resume fst].
    fold prompt.
    destruct (messages_api configuredModel prompt) as [text|].
    + unfold forEach. erewrite forEach_from_page.
      2:{ intros m i x.
          instantiate (1 := success_write
                              (sobj_spread (cache_collect a moves []) (parseExplanations text))).
          reflexivity. }
      reflexivity.
    + unfold forEach. erewrite forEach_from_page.
      2:{ intros m i x. instantiate (1 := failure_write (cache_collect a moves [])).
          unfold failure_write. destruct (sobj_truthy _ _); reflexivity. }
      reflexivity.
Qed.

Lemma write_el_empty el f x msg :
  moveList (dom x) = EmptyState msg -> write_el el f x = x.
Proof.
  intros M. unfold write_el. destruct el as [r|]; [|reflexivity].
  destruct (Nat.eqb _ _); [|reflexivity]. unfold with_el. now rewrite M.
Qed.

(** A call up to its first wait leaves the game, the analysis and the
    engine alone, and a page without candidates as it is. *)
Lemma cacheLoop_first c : forall ms i x ca un,
  let y := fst (afterCache c (cacheLoop c i ms (x, ca, un))) in
  kept y = kept x
  /\ (forall msg, moveList (dom x) = EmptyState msg -> moveList (dom y) = EmptyState msg).
Proof.
  induction ms as [|m ms IH]; intros i x ca un; cbv zeta.
  - cbn [cacheLoop afterCache]. destruct un; cbn [fst]; split; auto.
    now rewrite kept_emit by discriminate.
  - cbn [cacheLoop].
    set (f1 := fun el => el_text "Checking cache..." (el_loading true el)).
    set (el := getExplanationEl i x).
    destruct (write_el_fields el f1 x) as (_ & _ & K1).
    destruct (supabaseClient (write_el el f1 x)); cbn [negb].
    + cbn [afterCache fst]. split; [exact K1|].
      intros msg M. now rewrite (write_el_empty el f1 x msg M).
    + cbn [afterLookup].
      destruct (IH (S i) (write_el el (el_text "Generating explanation...") (write_el el f1 x))
                  ca (un ++ [m])) as [K2 M2].
      destruct (write_el_fields el (el_text "Generating explanation...") (write_el el f1 x))
        as (_ & _ & K3).
      split; [congruence|].
      intros msg M. apply M2.
      now rewrite !(write_el_empty el _ x msg M).
Qed.

Lemma startExplanations_first x :
  let y := fst (startExplanations x) in
  kept y = kept x
  /\ (forall msg, moveList (dom x) = EmptyState msg -> moveList (dom y) = EmptyState msg).
Proof.
  cbv zeta. unfold startExplanations.
  destruct (Js.truthy (apiKey x)); cbn [negb fst]; [|split; auto].
  destruct (currentAnalysis x) as [|m0 rest] eqn:E; [cbn [fst]; split; auto|].
  match goal with |- context [cacheLoop ?c 0 ?ms (?b, [], [])] =>
    destruct (cacheLoop_first c ms 0 b [] []) as [K M] end.
  split; [exact K|]. intros msg Hm. apply M. exact Hm.
Qed.

(** The requests of a call and the texts of a reply, whatever the page does
    meanwhile. *)
Lemma explanations_outcome a ws :
  Js.truthy (apiKey a) = true -> currentAnalysis a <> [] ->
  Forall elsewhere ws ->
  (List.length (firstn 4 (currentAnalysis a)) < List.length ws)%nat ->
  let moves := firstn 4 (currentAnalysis a) in
  let uncached := filter (is_uncached a) moves in
  let prompt := explanationPrompt (chess_fen (game a)) (turn_name a) uncached in
  let s := proceed ws (startExplanations a) in
  snd s = None
  /\ requested (fst s) =
       requested a ++ match uncached with [] => [] | _ :: _ => [prompt] end
  /\ (uncached <> [] ->
      forall text, messages_api configuredModel prompt = ApiText text ->
      forall i m el, nth_error moves i = Some m -> explanation_el i (fst s) = Some el ->
        item_explanation el =
          match sobj_get (l_move m) (parseExplanations text) with
          | Some e => if Js.truthy e then e else "No explanation available"
          | None =>
              match cache_hit a (l_move m) with
              | Some cached => cached
              | None => "No explanation available"
              end
          end).
Proof.
  intros K N W Len moves uncached prompt s.
  pose proof (explanations_run a ws K N W Len) as Run. cbv zeta in Run.
  fold moves in Run. fold uncached in Run. fold prompt in Run. subst s.
  clearbody uncached.
  destruct uncached as [|u us].
  - destruct Run as (x & P & R & _). rewrite P. cbn [fst snd].
    split; [reflexivity|]. split; [now rewrite requested_page, app_nil_r|].
    intros U. now destruct U.
  - destruct Run as (b & P & R & _).
    destruct (reply_outcome {| c_fen := chess_fen (game a); c_turn := turn_name a;
                               c_moves := moves |} prompt (cache_collect a moves [])
                (u :: us) b) as (Sn & Rq & _ & _ & _ & El & _).
    cbv zeta in Sn, Rq, El. rewrite <- P in Sn, Rq, El.
    split; [exact Sn|]. split; [congruence|].
    intros _ text Re i m el Hm Hel. rewrite El in Hel. cbn [c_moves] in Hel.
    rewrite Hm, Re in Hel. cbn [success_write] in Hel.
    destruct (explanation_el i b) as [el0|]; [|discriminate].
    injection Hel as <-. cbn [el_text el_loading item_explanation].
    apply reply_text. eapply nth_error_In; eassumption.
Qed.

(** A progress line of the worker asks for no explanation and leaves the
    cache client alone. *)
Lemma parseAnalysisLine_elsewhere line : elsewhere (parseAnalysisLine line).
Proof.
  intros x. destruct (parseAnalysisLine_beside line x) as [B E].
  unfold requested. rewrite E. split; [reflexivity|].
  unfold beside_analysis in B. now injection B.
Qed.

Lemma nothing_elsewhere : elsewhere (fun a => a).
Proof. intros x. split; reflexivity. Qed.

Lemma nothing_off_page : off_page (fun a => a).
Proof. intros x. reflexivity. Qed.

Lemma uncached_spec a ms m :
  In m (filter (is_uncached a) ms) <-> In m ms /\ cache_hit a (l_move m) = None.
Proof.
  rewrite filter_In. unfold is_uncached.
  destruct (cache_hit a (l_move m)); intuition congruence.
Qed.

Lemma explanation_text_dom i x y : dom x = dom y -> explanation_text i x = explanation_text i y.
Proof. intros E. unfold explanation_text, explanation_el. now rewrite E. Qed.

(** C6, as the code has it.  A call of the pipeline with a key and
    candidates looks at the first four candidates and always comes to its
    end, whatever the page does while it waits, as long as nothing else
    asks for explanations meanwhile.  If each candidate has a cached
    explanation, no request is sent.  Otherwise exactly one request is sent,
    whose prompt lists the candidates without a cached explanation, each
    with its evaluation; and when the reply arrives, the text for the
    candidate at index i (the text that the reply gives for the move if it
    names the move, the cached text of the move otherwise) is written into
    the element at index i of the list that is shown then, [b] being the
    page at that moment.  When nothing has written the page meanwhile, the
    elements are those that were there at the call, and each shows the text
    for its candidate. *)
Theorem explanation_pipeline a meanwhile :
  Js.truthy (apiKey a) = true -> currentAnalysis a <> [] ->
  Forall elsewhere meanwhile ->
  (List.length (firstn 4 (currentAnalysis a)) < List.length meanwhile)%nat ->
  let moves := firstn 4 (currentAnalysis a) in
  let uncached := filter (is_uncached a) moves in
  let prompt := explanationPrompt (chess_fen (game a)) (turn_name a) uncached in
  let a' := fst (proceed meanwhile (startExplanations a)) in
  snd (proceed meanwhile (startExplanations a)) = None
  /\ ((forall m, In m moves -> cache_hit a (l_move m) <> None) ->
      requested a' = requested a
      /\ (Forall off_page meanwhile ->
          forall i m, nth_error moves i = Some m -> explanation_el i a <> None ->
            explanation_text i a' = cache_hit a (l_move m)))
  /\ ((exists m, In m moves /\ cache_hit a (l_move m) = None) ->
      requested a' = requested a ++ [prompt]
      /\ (forall m, In m uncached <-> In m moves /\ cache_hit a (l_move m) = None)
      /\ exists b,
           proceed meanwhile (startExplanations a)
           = resume (AwaitReply (call_of a) prompt (cache_collect a moves []) uncached) b
           /\ requested b = requested a ++ [prompt]
           /\ forall text, messages_api configuredModel prompt = ApiText text ->
              let explained m :=
                match sobj_get (l_move m) (parseExplanations text) with
                | Some e => if Js.truthy e then e else "No explanation available"
                | None =>
                    match cache_hit a (l_move m) with
                    | Some cached => cached
                    | None => "No explanation available"
                    end
                end in
              (forall i,
                 explanation_el i a' =
                   match nth_error moves i with
                   | Some m =>
                       option_map (fun el => el_text (explained m) (el_loading false el))
                         (explanation_el i b)
                   | None => explanation_el i b
                   end)
              /\ (forall i m el, nth_error moves i = Some m -> explanation_el i a' = Some el ->
                    item_explanation el = explained m /\ item_loading el = false)
              /\ (Forall off_page meanwhile ->
                  forall i m, nth_error moves i = Some m -> explanation_el i a <> None ->
                    explanation_text i a' = Some (explained m))).
Proof.
  intros K N W Len moves uncached prompt a'.
  pose proof (explanations_run a meanwhile K N W Len) as Run. cbv zeta in Run.
  fold moves in Run. fold uncached in Run. fold prompt in Run.
  pose proof (uncached_spec a moves) as F. fold uncached in F.
  assert (EU0 : uncached = filter (is_uncached a) moves) by reflexivity.
  clearbody uncached.
  destruct uncached as [|u us].
  - destruct Run as (x & P & R & D).
    split; [subst a'; now rewrite P|]. split.
    + intros _. split; [subst a'; now rewrite P|].
      intros O i m Hm Hel. subst a'. rewrite P. cbn [fst].
      rewrite (explanation_text_dom i _ _ (D O)).
      apply all_cached_element; auto.
    + intros (m0 & Hin & Hn). destruct (proj2 (F m0) (conj Hin Hn)).
  - destruct Run as (b & P & R & D).
    destruct (reply_outcome {| c_fen := chess_fen (game a); c_turn := turn_name a;
                               c_moves := moves |} prompt (cache_collect a moves [])
                (u :: us) b) as (Sn & Rq & _ & _ & _ & El & _).
    cbv zeta in Sn, Rq, El. rewrite <- P in Sn, Rq, El, D. fold a' in Rq, El, D.
    split; [exact Sn|]. split.
    + intros All. destruct (proj1 (F u) (or_introl eq_refl)) as [Hin Hn].
      now destruct (All u Hin).
    + intros _. split; [congruence|]. split; [exact F|].
      exists b. split; [exact P|]. split; [exact R|].
      intros text Re. cbv zeta.
      assert (Each : forall i,
                 explanation_el i a' =
                   match nth_error moves i with
                   | Some m =>
                       option_map
                         (fun el =>
                            el_text
                              match sobj_get (l_move m) (parseExplanations text) with
                              | Some e => if Js.truthy e then e else "No explanation available"
                              | None =>
                                  match cache_hit a (l_move m) with
                                  | Some cached => cached
                                  | None => "No explanation available"
                                  end
                              end (el_loading false el))
                         (explanation_el i b)
                   | None => explanation_el i b
                   end).
      { intros i. rewrite El. cbn [c_moves].
        destruct (nth_error moves i) as [m|] eqn:Hm; [|reflexivity].
        rewrite Re. cbn [success_write].
        now rewrite (reply_text a moves m text (nth_error_In _ _ Hm)). }
      split; [exact Each|]. split.
      * intros i m el Hm Hel. rewrite Each, Hm in Hel.
        destruct (explanation_el i b) as [el0|]; [|discriminate].
        injection Hel as <-. split; reflexivity.
      * intros O i m Hm Hel. rewrite (explanation_text_dom i _ _ (D O)).
        apply explained_element; auto; fold moves; rewrite <- EU0;
          [discriminate|exact Re].
Qed.

(** C7, as the code has it.  When the request to the explanation service
    fails the call still comes to its end, whatever the page does while it
    waits, and releases the button.  The error text is written into the
    element at the index of each candidate that had no cached explanation,
    in the list that is shown then, [b] being the page at that moment;
    nothing is written for the others.  When nothing has written the page
    meanwhile, the element of every candidate shows its cached explanation,
    or the error text if it had none. *)
Theorem failed_request_marks_uncached_only a meanwhile :
  Js.truthy (apiKey a) = true ->
  Forall elsewhere meanwhile ->
  (List.length (firstn 4 (currentAnalysis a)) < List.length meanwhile)%nat ->
  let moves := firstn 4 (currentAnalysis a) in
  let uncached := filter (is_uncached a) moves in
  let prompt := explanationPrompt (chess_fen (game a)) (turn_name a) uncached in
  uncached <> [] ->
  messages_api configuredModel prompt = ApiFailure ->
  let a' := fst (proceed meanwhile (startExplanations a)) in
  snd (proceed meanwhile (startExplanations a)) = None
  /\ explainBtn_disabled (dom a') = false
  /\ explainBtn_text (dom a') = "Explain Moves"
  /\ requested a' = requested a ++ [prompt]
  /\ (exists b,
        proceed meanwhile (startExplanations a)
        = resume (AwaitReply (call_of a) prompt (cache_collect a moves []) uncached) b
        /\ forall i,
             explanation_el i a' =
               match nth_error moves i with
               | Some m =>
                   match cache_hit a (l_move m) with
                   | Some _ => explanation_el i b
                   | None =>
                       option_map
                         (fun el => el_text "Error fetching explanation" (el_loading false el))
                         (explanation_el i b)
                   end
               | None => explanation_el i b
               end)
  /\ (forall i m el, nth_error moves i = Some m -> cache_hit a (l_move m) = None ->
        explanation_el i a' = Some el ->
        item_explanation el = "Error fetching explanation" /\ item_loading el = false)
  /\ (Forall off_page meanwhile ->
      forall i m, nth_error moves i = Some m -> explanation_el i a <> None ->
        explanation_text i a' =
          Some match cache_hit a (l_move m) with
               | Some cached => cached
               | None => "Error fetching explanation"
               end).
Proof.
  intros K W Len moves uncached prompt U Re a'.
  assert (N : currentAnalysis a <> []).
  { intros E. subst uncached moves. rewrite E in U. now apply U. }
  pose proof (explanations_run a meanwhile K N W Len) as Run. cbv zeta in Run.
  fold moves in Run. fold uncached in Run. fold prompt in Run.
  assert (EU0 : uncached = filter (is_uncached a) moves) by reflexivity.
  clearbody uncached.
  destruct uncached as [|u us]; [now destruct U|].
  destruct Run as (b & P & R & D).
  destruct (reply_outcome {| c_fen := chess_fen (game a); c_turn := turn_name a;
                             c_moves := moves |} prompt (cache_collect a moves [])
              (u :: us) b) as (Sn & Rq & B1 & B2 & _ & El & _).
  cbv zeta in Sn, Rq, B1, B2, El. rewrite <- P in Sn, Rq, B1, B2, El, D.
  fold a' in Rq, B1, B2, El, D.
  split; [exact Sn|]. split; [exact B1|]. split; [exact B2|].
  split; [congruence|].
  assert (Each : forall i,
             explanation_el i a' =
               match nth_error moves i with
               | Some m =>
                   match cache_hit a (l_move m) with
                   | Some _ => explanation_el i b
                   | None =>
                       option_map
                         (fun el => el_text "Error fetching explanation" (el_loading false el))
                         (explanation_el i b)
                   end
               | None => explanation_el i b
               end).
  { intros i. rewrite El. cbn [c_moves].
    destruct (nth_error moves i) as [m|] eqn:Hm; [|reflexivity].
    rewrite Re. unfold failure_write.
    rewrite (cached_of_move a moves m (nth_error_In _ _ Hm)).
    now destruct (cache_hit a (l_move m)). }
  split; [exists b; split; [exact P|exact Each]|]. split.
  - intros i m el Hm Hn Hel. rewrite Each, Hm, Hn in Hel.
    destruct (explanation_el i b) as [el0|]; [|discriminate].
    injection Hel as <-. split; reflexivity.
  - intros O i m Hm Hel. rewrite (explanation_text_dom i _ _ (D O)).
    pose proof (fetchExplanations_run a K N) as FR. cbv zeta in FR.
    fold moves in FR. rewrite <- EU0 in FR. fold prompt in FR. rewrite Re in FR.
    rewrite FR.
    change (explanation_text i (page ?f (page (dom_moveItems ?ml) ?x)))
      with (option_map item_explanation (ml_get i ml)).
    cbn [emit set_rt dom page set_dom dom_explainBtn dom_moveItems dom_moveList moveList].
    rewrite ml_get_each. cbn [Nat.leb]. rewrite Nat.sub_0_r, Hm.
    unfold failure_write.
    rewrite (cached_of_move a _ m (nth_error_In _ _ Hm)).
    subst moves. rewrite (checked_element _ _ _ Hm).
    unfold explanation_el, ml_get in *.
    destruct (moveList (dom a)) as [msg|l]; [now destruct Hel|].
    destruct (nth_error l i) as [el|]; [|now destruct Hel].
    now destruct (cache_hit a (l_move m)).
Qed.

End AsynchronousFacts.

Lemma explanation_pipeline_witness :
  let a := Scenario.two_candidates in
  let calm := proceed (services := Scenario.answers_d4) Scenario.undisturbed
                (startExplanations (services := Scenario.answers_d4) a) in
  let busy := proceed (services := Scenario.answers_d4) Scenario.list_reordered
                (startExplanations (services := Scenario.answers_d4) a) in
  Js.truthy (apiKey a) = true /\ currentAnalysis a <> []
  /\ map l_move (firstn 4 (currentAnalysis a)) = ["e4"; "d4"]
  /\ snd calm = None
  /\ requested (fst calm)
     = [explanationPrompt Excerpt.start "White"
          (filter (is_uncached (services := Scenario.answers_d4) a)
             (firstn 4 (currentAnalysis a)))]
  /\ explanation_text 0 (fst calm) = Some "Opens center"
  /\ explanation_text 1 (fst calm) = Some "Claims the centre."
  /\ snd busy = None
  /\ List.length (requested (fst busy)) = 1%nat
  /\ option_map item_notation (explanation_el 0 (fst busy)) = Some "d4"
  /\ (forall el, explanation_el 0 (fst busy) = Some el -> item_explanation el = "Opens center")
  /\ option_map item_notation (explanation_el 1 (fst busy)) = Some "e4"
  /\ (forall el, explanation_el 1 (fst busy) = Some el ->
        item_explanation el = "Claims the centre.").
Proof.
  cbv zeta.
  assert (N : currentAnalysis Scenario.two_candidates <> []) by (vm_compute; discriminate).
  assert (U : exists m, In m (firstn 4 (currentAnalysis Scenario.two_candidates))
                        /\ cache_hit (services := Scenario.answers_d4)
                             Scenario.two_candidates (l_move m) = None).
  { exists Scenario.d4_line. split; [vm_compute; auto|vm_compute; reflexivity]. }
  assert (Calm : Forall elsewhere Scenario.undisturbed
                 /\ Forall off_page Scenario.undisturbed).
  { split; repeat constructor; (apply nothing_elsewhere || apply nothing_off_page). }
  assert (Busy : Forall elsewhere Scenario.list_reordered).
  { repeat constructor;
      (apply nothing_elsewhere || apply (parseAnalysisLine_elsewhere Scenario.d4_deeper)). }
  destruct (explanation_pipeline (services := Scenario.answers_d4)
              Scenario.two_candidates Scenario.undisturbed eq_refl N (proj1 Calm)
              ltac:(vm_compute; lia)) as (S1 & _ & H1).
  destruct (H1 U) as (R1 & _ & b1 & _ & _ & E1).
  destruct (E1 "d4: Claims the centre." eq_refl) as (_ & _ & T1).
  destruct (explanation_pipeline (services := Scenario.answers_d4)
              Scenario.two_candidates Scenario.list_reordered eq_refl N Busy
              ltac:(vm_compute; lia)) as (S2 & _ & H2).
  destruct (H2 U) as (R2 & _ & b2 & _ & _ & E2).
  destruct (E2 "d4: Claims the centre." eq_refl) as (_ & T2 & _).
  split; [reflexivity|]. split; [exact N|]. split; [vm_compute; reflexivity|].
  split; [exact S1|]. split; [exact R1|].
  split.
  { rewrite (T1 (proj2 Calm) 0%nat Scenario.e4_line)
      by (vm_compute; (reflexivity || discriminate)).
    vm_compute. reflexivity. }
  split.
  { rewrite (T1 (proj2 Calm) 1%nat Scenario.d4_line)
      by (vm_compute; (reflexivity || discriminate)).
    vm_compute. reflexivity. }
  split; [exact S2|]. split; [rewrite R2; vm_compute; reflexivity|].
  split; [vm_compute; reflexivity|]. split.
  { intros el Hel.
    rewrite (proj1 (T2 0%nat Scenario.e4_line el ltac:(vm_compute; reflexivity) Hel)).
    vm_compute. reflexivity. }
  split; [vm_compute; reflexivity|].
  intros el Hel.
  rewrite (proj1 (T2 1%nat Scenario.d4_line el ltac:(vm_compute; reflexivity) Hel)).
  vm_compute. reflexivity.
Defined.

Lemma failed_request_marks_uncached_only_witness :
  let a := Scenario.two_candidates in
  let calm := proceed (services := Scenario.cache_only) Scenario.undisturbed
                (startExplanations (services := Scenario.cache_only) a) in
  let busy := proceed (services := Scenario.cache_only) Scenario.list_reordered
                (startExplanations (services := Scenario.cache_only) a) in
  Js.truthy (apiKey a) = true
  /\ map l_move (filter (is_uncached (services := Scenario.cache_only) a)
                   (firstn 4 (currentAnalysis a))) = ["d4"]
  /\ snd calm = None
  /\ explanation_text 0 (fst calm) = Some "Opens center"
  /\ explanation_text 1 (fst calm) = Some "Error fetching explanation"
  /\ explainBtn_disabled (dom (fst calm)) = false
  /\ snd busy = None
  /\ explainBtn_disabled (dom (fst busy)) = false
  /\ (forall el, explanation_el 1 (fst busy) = Some el ->
        item_explanation el = "Error fetching explanation").
Proof.
  cbv zeta.
  assert (Calm : Forall elsewhere Scenario.undisturbed
                 /\ Forall off_page Scenario.undisturbed).
  { split; repeat constructor; (apply nothing_elsewhere || apply nothing_off_page). }
  assert (Busy : Forall elsewhere Scenario.list_reordered).
  { repeat constructor;
      (apply nothing_elsewhere || apply (parseAnalysisLine_elsewhere Scenario.d4_deeper)). }
  destruct (failed_request_marks_uncached_only (services := Scenario.cache_only)
              Scenario.two_candidates Scenario.undisturbed eq_refl (proj1 Calm)
              ltac:(vm_compute; lia) ltac:(vm_compute; discriminate) eq_refl)
    as (S1 & B1 & _ & _ & _ & _ & T1).
  destruct (failed_request_marks_uncached_only (services := Scenario.cache_only)
              Scenario.two_candidates Scenario.list_reordered eq_refl Busy
              ltac:(vm_compute; lia) ltac:(vm_compute; discriminate) eq_refl)
    as (S2 & B2 & _ & _ & _ & T2 & _).
  split; [reflexivity|]. split; [vm_compute; reflexivity|].
  split; [exact S1|]. split.
  { rewrite (T1 (proj2 Calm) 0%nat Scenario.e4_line)
      by (vm_compute; (reflexivity || discriminate)).
    vm_compute. reflexivity. }
  split.
  { rewrite (T1 (proj2 Calm) 1%nat Scenario.d4_line)
      by (vm_compute; (reflexivity || discriminate)).
    vm_compute. reflexivity. }
  split; [exact B1|]. split; [exact S2|]. split; [exact B2|].
  intros el Hel.
  exact (proj1 (T2 1%nat Scenario.d4_line el ltac:(vm_compute; reflexivity)
                  ltac:(vm_compute; reflexivity) Hel)).
Defined.

(** C7 fails when the list is drawn again while the request is pending.
    Explain Moves is pressed while the search is still running; 1.e4 has
    the cached explanation [Opens center], 1.d4 has none and is asked for.
    Before the request fails the worker reports a deeper line and the list
    is drawn again, with new elements.  If the line names 1.e4 again, the
    element of 1.e4 ends with the placeholder text and not with its cached
    explanation.  If the line puts 1.d4 first, the error text, written at
    the old index of 1.d4, ends in the element of 1.e4, the cached move, and
    the element of 1.d4 shows no error. *)
Lemma redrawn_list_loses_cached_text :
  let a := Scenario.two_candidates in
  let placeholder :=
    ("Click " ++ dquote ++ "Explain Moves" ++ dquote ++ " for analysis")%string in
  let redrawn := proceed (services := Scenario.cache_only) Scenario.list_redrawn
                   (startExplanations (services := Scenario.cache_only) a) in
  let reordered := proceed (services := Scenario.cache_only) Scenario.list_reordered
                     (startExplanations (services := Scenario.cache_only) a) in
  map l_move (firstn 4 (currentAnalysis a)) = ["e4"; "d4"]
  /\ cache_hit (services := Scenario.cache_only) a "e4" = Some "Opens center"
  /\ cache_hit (services := Scenario.cache_only) a "d4" = None
  /\ snd redrawn = None
  /\ option_map item_notation (explanation_el 0 (fst redrawn)) = Some "e4"
  /\ explanation_text 0 (fst redrawn) = Some placeholder
  /\ option_map item_notation (explanation_el 1 (fst redrawn)) = Some "d4"
  /\ explanation_text 1 (fst redrawn) = Some "Error fetching explanation"
  /\ snd reordered = None
  /\ option_map item_notation (explanation_el 0 (fst reordered)) = Some "d4"
  /\ explanation_text 0 (fst reordered) = Some placeholder
  /\ option_map item_notation (explanation_el 1 (fst reordered)) = Some "e4"
  /\ explanation_text 1 (fst reordered) = Some "Error fetching explanation".
Proof. vm_compute. repeat split. Qed.

(* ================================================================== *)
(** ** The stored lines during one analysis *)
(* ================================================================== *)

Section StoredLines.

Context {rules : RulesEngine} {services : Services}.

Lemma lines_sound_deeper a d :
  lines_sound a -> (currentDepth a <= d)%Z -> lines_sound (set_currentDepth d a).
Proof.
  intros S D k e Hin. destruct (S k e Hin) as (K & L & M).
  cbn. repeat split; [assumption|lia|assumption].
Qed.

Lemma lines_sound_same a b :
  analysisLines b = analysisLines a -> currentDepth b = currentDepth a -> game b = game a ->
  lines_sound a -> lines_sound b.
Proof. unfold lines_sound. intros -> -> ->. auto. Qed.

Lemma parseAnalysisLine_sound line a :
  lines_sound a /\ ascending_ranks a ->
  lines_sound (parseAnalysisLine line a) /\ ascending_ranks (parseAnalysisLine line a).
Proof.
  intros [S A].
  destruct (parseFields line) as [f|] eqn:F.
  2:{ now rewrite parseAnalysisLine_unparsed. }
  destruct (Z.lt_ge_cases (f_depth f) (currentDepth a)) as [Sh|D].
  { now rewrite (parseAnalysisLine_shallow _ _ _ F Sh). }
  destruct (chess_move (Chess_new (chess_fen (game a))) (uci_from (Js.first (f_pv f)))
              (uci_to (Js.first (f_pv f))) (uci_promotion (Js.first (f_pv f))))
    as [[san g]|] eqn:M.
  2:{ rewrite (parseAnalysisLine_illegal _ _ _ F D) by (unfold legal_now; now rewrite M).
      split; [now apply lines_sound_deeper|exact A]. }
  rewrite (parseAnalysisLine_accepted _ _ _ _ _ F D M). cbv zeta.
  set (stored := set_analysisLines _ _).
  assert (St : lines_sound stored /\ ascending_ranks stored).
  { split.
    - intros k e Hin. cbn in Hin.
      destruct (obj_set_keys _ _ _ _ Hin) as [[= -> ->]|Old].
      + cbn. repeat split; [apply (parseFields_ranges _ _ F)|lia|]. now exists g.
      + destruct (S k e Old) as (K & L & Mv). cbn. repeat split; [assumption|lia|assumption].
    - unfold ascending_ranks. cbn. now apply obj_set_ascending. }
  destruct (_ && _); [|exact St].
  destruct (updateAnalysisDisplay_core stored) as (E1 & E2 & E3 & _).
  destruct St as [S1 A1]. split.
  - now apply (lines_sound_same stored).
  - unfold ascending_ranks. now rewrite E1.
Qed.

Lemma message_sound l a :
  lines_sound a /\ ascending_ranks a ->
  lines_sound (handleStockfishMessage l a) /\ ascending_ranks (handleStockfishMessage l a).
Proof.
  intros H. unfold handleStockfishMessage.
  destruct (Js.startsWith l "info depth"); [now apply parseAnalysisLine_sound|].
  destruct (Js.startsWith l "bestmove"); [|exact H].
  unfold finalizeAnalysis.
  destruct (updateAnalysisDisplay_core a) as (E1 & E2 & E3 & _).
  assert (U : lines_sound (updateAnalysisDisplay a) /\ ascending_ranks (updateAnalysisDisplay a)).
  { destruct H as [S A]. split; [now apply (lines_sound_same a)|].
    unfold ascending_ranks. now rewrite E1. }
  destruct (_ && _); [|exact U].
  destruct (kept_depth _ _ (fetchExplanations_kept (updateAnalysisDisplay a)))
    as (D & L & _ & _ & G).
  destruct U as [S A]. split; [now apply (lines_sound_same (updateAnalysisDisplay a))|].
  unfold ascending_ranks. now rewrite L.
Qed.

(** Whatever the worker sends after analyzePosition, the stored lines
    stay sound: one entry per rank, under a rank that is not negative, with
    a depth that currentDepth has reached, and with a first move that the
    rules engine accepts in the current position and names as stored. *)
Theorem stored_lines_sound ls a :
  let a' := messages ls (analyzePosition a) in
  lines_sound a' /\ ascending_ranks a'.
Proof.
  cbv zeta.
  assert (I : lines_sound (analyzePosition a) /\ ascending_ranks (analyzePosition a)).
  { destruct (analyzePosition_clears a) as (L & _).
    unfold lines_sound, ascending_ranks. rewrite L. split; [intros k e []|constructor]. }
  revert I. generalize (analyzePosition a). clear a.
  induction ls as [|l ls IH]; intros a I; cbn [messages fold_left]; [exact I|].
  apply (IH (handleStockfishMessage l a)). now apply message_sound.
Qed.

(** A progress line rewrites the page (the list of candidates, the depth
    label, the score) and the candidates handed to the explanations only
    when it is parsed, its depth is even and at least 10 and not below
    currentDepth, and its first move is legal. *)
Theorem progress_line_publishes_only_at_even_depth line a :
  dom (parseAnalysisLine line a) <> dom a
  \/ currentAnalysis (parseAnalysisLine line a) <> currentAnalysis a ->
  exists f,
    parseFields line = Some f /\ (10 <= f_depth f)%Z /\ (f_depth f mod 2 = 0)%Z
    /\ (currentDepth a <= f_depth f)%Z /\ legal_now (Js.first (f_pv f)) a = true.
Proof.
  intros Ch.
  destruct (parseFields line) as [f|] eqn:F.
  2:{ rewrite parseAnalysisLine_unparsed in Ch by assumption. now destruct Ch. }
  destruct (Z.lt_ge_cases (f_depth f) (currentDepth a)) as [Sh|D].
  { rewrite (parseAnalysisLine_shallow _ _ _ F Sh) in Ch. now destruct Ch. }
  destruct (legal_now (Js.first (f_pv f)) a) eqn:L.
  2:{ rewrite (parseAnalysisLine_illegal _ _ _ F D L) in Ch. now destruct Ch. }
  unfold legal_now in L.
  destruct (chess_move _ _ _ _) as [[san g]|] eqn:M; [|discriminate].
  rewrite (parseAnalysisLine_accepted _ _ _ _ _ F D M) in Ch. cbv zeta in Ch.
  destruct (10 <=? f_depth f)%Z eqn:T; [|now destruct Ch].
  destruct (f_depth f mod 2 =? 0)%Z eqn:Ev; [|now destruct Ch].
  exists f. split; [reflexivity|]. split; [now apply Z.leb_le|].
  split; [now apply Z.eqb_eq|]. split; [assumption|]. unfold legal_now. now rewrite M.
Qed.

End StoredLines.

(* ================================================================== *)
(** ** The timer and the worker over whole runs *)
(* ================================================================== *)

Section Schedule.

Context {rules : RulesEngine} {services : Services}.

Lemma analysisCallback_schedule a :
  schedule (analysisCallback a) = schedule a
  /\ posted (analysisCallback a) =
       posted a ++ (if stockfish a then analysis_request (chess_fen (game a)) else []).
Proof.
  unfold analysisCallback, fetchOpeningData, postMessage.
  case_eq (stockfish a); intros S; split; try reflexivity.
  - rewrite !posted_emit. cbn. unfold analysis_request. now rewrite <- !app_assoc.
  - rewrite posted_emit. cbn. now rewrite app_nil_r.
Qed.

Lemma callbacks_schedule {X} (l : list X) : forall a,
  schedule (fold_left (fun a _ => analysisCallback a) l a) = schedule a
  /\ (stockfish a = false ->
      posted (fold_left (fun a _ => analysisCallback a) l a) = posted a).
Proof.
  induction l as [|x l IH]; intros a; cbn [fold_left]; [auto|].
  destruct (analysisCallback_schedule a) as [E P].
  destruct (IH (analysisCallback a)) as [E' P']. split; [congruence|].
  intros S. rewrite P'.
  - rewrite P, S. apply app_nil_r.
  - unfold schedule in E. congruence.
Qed.

(** Time passing: the timers that are due are gone, nothing else of the
    schedule changes. *)
Lemma advance_schedule dt a :
  let a' := advance dt a in
  game a' = game a /\ stockfish a' = stockfish a /\ analysisTimeout a' = analysisTimeout a
  /\ timers (rt a') =
       filter (fun t : nat * N => negb (snd t <=? clock (rt a) + dt)%N) (timers (rt a))
  /\ (stockfish a = false -> posted a' = posted a).
Proof.
  cbv zeta. unfold advance.
  match goal with |- context [fold_left _ ?l ?x] =>
    destruct (callbacks_schedule l x) as [E P] end.
  unfold schedule in E. cbn [game stockfish analysisTimeout rt set_rt timers clock] in E.
  repeat split; try congruence. intros S. now rewrite P.
Qed.

Lemma clearPreview_schedule a :
  schedule (clearPreview a) = schedule a /\ effects (rt (clearPreview a)) = effects (rt a).
Proof. unfold clearPreview. now destruct (previewPosition a). Qed.

Lemma previewMove_schedule uci a :
  schedule (previewMove uci a) = schedule a
  /\ effects (rt (previewMove uci a)) = effects (rt a).
Proof.
  unfold previewMove.
  destruct (previewPosition a); cbn; destruct (chess_move _ _ _ _) as [[? ?]|]; split; reflexivity.
Qed.

Lemma kept_schedule a b : kept b = kept a -> schedule b = schedule a /\ posted b = posted a.
Proof. unfold kept, schedule. intros [= ]. split; congruence. Qed.

Lemma beside_schedule a b :
  beside_analysis b = beside_analysis a -> schedule b = schedule a /\ posted b = posted a.
Proof. unfold beside_analysis, schedule. intros [= ]. split; congruence. Qed.

(** An event that does not change the position leaves the game and the
    timers; unless it is the load of the worker, it posts nothing and leaves
    the worker. *)
Lemma handle_quiet e a :
  position_changed e a = false ->
  let a' := handle e a in
  game a' = game a /\ analysisTimeout a' = analysisTimeout a
  /\ timers (rt a') = timers (rt a) /\ clock (rt a') = clock (rt a)
  /\ (worker_load e = false -> stockfish a' = stockfish a /\ posted a' = posted a).
Proof.
  cbv zeta.
  assert (Sch : forall b, schedule b = schedule a /\ posted b = posted a ->
                  game b = game a /\ analysisTimeout b = analysisTimeout a
                  /\ timers (rt b) = timers (rt a) /\ clock (rt b) = clock (rt a)
                  /\ (worker_load e = false -> stockfish b = stockfish a /\ posted b = posted a)).
  { unfold schedule. intros b [E ->]. repeat split; congruence. }
  destruct e as [src tgt| | |v|uci| |uci| | |l|kv| |chk|msg]; cbn [position_changed handle];
    intros H; try discriminate.
  - unfold handleMove. destruct (chess_move _ _ _ _) as [[san g]|]; [discriminate|].
    now apply Sch.
  - unfold setFenFromInput. destruct (Js.truthy (Js.trim v)); cbn [negb andb] in *.
    + destruct (chess_load _ _); [discriminate|]. apply Sch. split; [reflexivity|].
      now rewrite posted_emit, app_nil_r.
    + now apply Sch.
  - apply Sch. destruct (previewMove_schedule uci a) as [E F]. split; [exact E|].
    unfold posted. now rewrite F.
  - apply Sch. destruct (clearPreview_schedule a) as [E F]. split; [exact E|].
    unfold posted. now rewrite F.
  - unfold playAnalysisMove.
    assert (G : game (clearPreview a) = game a)
      by (unfold clearPreview; now destruct (previewPosition a)).
    rewrite G. destruct (chess_move _ _ _ _) as [[san g]|]; [discriminate|].
    apply Sch. destruct (clearPreview_schedule a) as [E F]. split; [exact E|].
    unfold posted. now rewrite F.
  - apply Sch. apply kept_schedule, fetchExplanations_kept.
  - unfold initStockfish, postMessage. cbn [worker_load].
    repeat (split; [reflexivity|]). discriminate.
  - apply Sch. apply beside_schedule, message_beside.
  - apply Sch. pose proof (saveApiKey_kept kv a) as K.
    unfold kept, schedule, posted in *.
    cbn [set_apiKey board game stockfish currentAnalysis apiKey analysisTimeout supabaseClient
         analysisLines currentDepth previewPosition dom rt] in K.
    split; congruence.
  - now apply Sch.
  - now apply Sch.
  - now apply Sch.
Qed.

(** A position change ends in [analyzePosition], which posts nothing and
    keeps the worker, and leaves one timer, the one it remembers. *)
Lemma handle_changed e a :
  position_changed e a = true ->
  let a' := handle e a in
  stockfish a' = stockfish a /\ effects (rt a') = effects (rt a)
  /\ clock (rt a') = clock (rt a)
  /\ (single_slot a ->
      analysisTimeout a' = Some (nextTimer (rt a))
      /\ timers (rt a') = [(nextTimer (rt a), (clock (rt a) + 100)%N)]).
Proof.
  intros P. cbv zeta.
  destruct (position_changed_analyzes e a P) as (a1 & -> & R & T & S).
  rewrite <- S, <- R. clear S.
  assert (F : stockfish (analyzePosition a1) = stockfish a1
              /\ effects (rt (analyzePosition a1)) = effects (rt a1)
              /\ clock (rt (analyzePosition a1)) = clock (rt a1)).
  { unfold analyzePosition. cbn. destruct (analysisTimeout a1); cbn; auto. }
  destruct F as (F1 & F2 & F3).
  split; [exact F1|]. split; [exact F2|]. split; [exact F3|].
  intros H. unfold single_slot in H. rewrite <- R, <- T in H.
  unfold analyzePosition, setTimeout, clearTimeout. cbn.
  destruct H as [E|(t & d & Ht & E)].
  - destruct (analysisTimeout a1); cbn; rewrite E; cbn; auto.
  - rewrite Ht. cbn. rewrite E. cbn. rewrite Nat.eqb_refl. cbn. auto.
Qed.

Lemma advance_single_slot dt a : single_slot a -> single_slot (advance dt a).
Proof.
  intros H. destruct (advance_schedule dt a) as (_ & _ & T & Tm & _).
  unfold single_slot. rewrite T, Tm.
  destruct H as [->|(t & d & Ht & ->)]; [now left|].
  cbn [filter snd]. destruct (negb _); [right; now exists t, d|now left].
Qed.

Lemma handle_single_slot e a : single_slot a -> single_slot (handle e a).
Proof.
  intros H. destruct (position_changed e a) eqn:P.
  - destruct (handle_changed e a P) as (_ & _ & _ & Q). destruct (Q H) as [T Tm].
    right. eauto.
  - destruct (handle_quiet e a P) as (_ & T & Tm & _).
    unfold single_slot. now rewrite T, Tm.
Qed.

(** From a page with at most one pending timer, remembered in
    analysisTimeout (no timer at all when the page is loaded), every run
    of events keeps it so: the debounce never has two timers pending. *)
Theorem debounce_has_one_slot es : forall a,
  single_slot a -> single_slot (run a es) /\ one_timer (run a es).
Proof.
  assert (O : forall a, single_slot a -> one_timer a).
  { intros a [E|(t & d & T & E)] x; rewrite E; [intros []|].
    intros [<-|[]]. exact T. }
  induction es as [|[dt e] es IH]; intros a H; cbn [run fold_left].
  - auto.
  - apply (IH (step a (dt, e))). unfold step. cbn [fst snd].
    now apply handle_single_slot, advance_single_slot.
Qed.

(** Without a worker nothing is ever posted: as long as the worker script
    has not loaded, no run of events sends a command to the engine. *)
Theorem no_worker_nothing_posted es : forall a,
  stockfish a = false ->
  Forall (fun e : N * Event => worker_load (snd e) = false) es ->
  stockfish (run a es) = false /\ posted (run a es) = posted a.
Proof.
  induction es as [|[dt e] es IH]; intros a S W; cbn [run fold_left]; [auto|].
  inversion W as [|? ? We Wes]; subst. cbn [snd] in We.
  destruct (advance_schedule dt a) as (_ & S1 & _ & _ & P1).
  assert (Q : stockfish (step a (dt, e)) = false /\ posted (step a (dt, e)) = posted a).
  { unfold step. cbn [fst snd]. destruct (position_changed e (advance dt a)) eqn:P.
    - destruct (handle_changed e _ P) as (S2 & E2 & _).
      unfold posted at 1. rewrite S2, E2, S1. split; [assumption|]. now apply P1.
    - destruct (handle_quiet e _ P) as (_ & _ & _ & _ & Q). destruct (Q We) as [S2 P2].
      rewrite S2, P2, S1. split; [assumption|]. now apply P1. }
  destruct Q as [S2 P2]. destruct (IH _ S2 Wes) as [S3 P3].
  unfold run in *. now rewrite S3, P3.
Qed.

End Schedule.

(* ================================================================== *)
(** ** What the actions of the user reset and what they keep *)
(* ================================================================== *)

Section Actions.

Context {rules : RulesEngine} {services : Services}.

(** With no timer pending, events that change nothing of the position
    post nothing. *)
Lemma quiet_run es : forall a,
  timers (rt a) = [] -> quiet a es ->
  posted (run a es) = posted a /\ timers (rt (run a es)) = [].
Proof.
  induction es as [|[dt e] es IH]; intros a T Q; cbn [run fold_left]; [auto|].
  destruct Q as (P & W & Q). cbn [fst snd] in *.
  assert (A : posted (advance dt a) = posted a /\ timers (rt (advance dt a)) = []).
  { unfold advance. rewrite T. cbn. auto. }
  destruct A as [A1 A2].
  destruct (handle_quiet e (advance dt a) P) as (_ & _ & Tm & _ & H).
  destruct (H W) as [_ Po].
  assert (T1 : timers (rt (step a (dt, e))) = []).
  { unfold step. cbn [fst snd]. now rewrite Tm. }
  destruct (IH _ T1 Q) as [P2 T2]. unfold run in *. rewrite P2, T2. split; [|reflexivity].
  unfold step. cbn [fst snd]. now rewrite Po.
Qed.

Lemma initStockfish_posts a :
  stockfish (initStockfish a) = true
  /\ posted (initStockfish a) = posted a ++ handshake
  /\ timers (rt (initStockfish a)) = timers (rt a).
Proof.
  unfold initStockfish, postMessage. rewrite !posted_emit.
  change (posted (set_stockfish true a)) with (posted a).
  rewrite <- !app_assoc. cbn. auto.
Qed.

(** When the worker script takes more than 100 ms to load, the timer of
    the first analyzePosition has fired without a worker: the engine gets
    the handshake of initStockfish and no request for the first position,
    until the position changes. *)
Theorem late_worker_misses_first_analysis configured a0 dt es :
  stockfish a0 = false -> timers (rt a0) = [] -> (100 < dt)%N ->
  let loaded := step (init configured a0) (dt, EvWorkerLoaded) in
  quiet loaded es ->
  stockfish loaded = true
  /\ posted (run loaded es) = posted a0 ++ handshake.
Proof.
  intros S T D loaded Q.
  assert (I : stockfish (init configured a0) = false
              /\ effects (rt (init configured a0)) = effects (rt a0)
              /\ timers (rt (init configured a0))
                 = [(nextTimer (rt a0), (clock (rt a0) + 100)%N)]
              /\ clock (rt (init configured a0)) = clock (rt a0)).
  { unfold init, initSupabase, initBoard, analyzePosition, setTimeout, clearTimeout.
    destruct configured; cbn; destruct (Js.truthy (apiKey a0)); cbn;
      destruct (analysisTimeout a0); cbn; rewrite T; cbn; auto. }
  destruct I as (I1 & I2 & I3 & I4).
  assert (A : stockfish (advance dt (init configured a0)) = false
              /\ posted (advance dt (init configured a0)) = posted a0
              /\ timers (rt (advance dt (init configured a0))) = []).
  { destruct (advance_schedule dt (init configured a0)) as (_ & A1 & _ & A2 & A3).
    split; [congruence|]. split.
    - rewrite (A3 I1). unfold posted. now rewrite I2.
    - rewrite A2, I3, I4. cbn [filter snd].
      assert (E : (clock (rt a0) + 100 <=? clock (rt a0) + dt)%N = true)
        by (apply N.leb_le; lia).
      now rewrite E. }
  destruct A as (A1 & A2 & A3).
  assert (L : stockfish loaded = true /\ posted loaded = posted a0 ++ handshake
              /\ timers (rt loaded) = []).
  { subst loaded. unfold step. cbn [fst snd handle].
    destruct (initStockfish_posts (advance dt (init configured a0))) as (L1 & L2 & L3).
    rewrite L1, L2, L3, A2, A3. auto. }
  destruct L as (L1 & L2 & L3). split; [exact L1|].
  destruct (quiet_run es loaded L3 Q) as [P _]. now rewrite P.
Qed.

(** An action of the user that does not change the position (a drop that
    is not a legal move, a FEN that is blank or refused, the mouse over a
    candidate or leaving it, a click on a candidate that is not legal)
    leaves the analysis as it is: the game, the lines, the depth, the
    candidates, the pending timer, and nothing is posted or requested. *)
Theorem failed_action_keeps_analysis e a :
  user_action e = true -> position_changed e a = false ->
  analysis_state (handle e a) = analysis_state a.
Proof.
  destruct e as [src tgt| | |v|uci| |uci| | |l|kv| |chk|msg]; cbn [user_action position_changed handle];
    intros U P; try discriminate.
  - unfold handleMove. now destruct (chess_move _ _ _ _) as [[san g]|].
  - unfold setFenFromInput. destruct (Js.truthy (Js.trim v)); cbn [negb andb] in *;
      [|reflexivity].
    destruct (chess_load _ _); [discriminate|].
    unfold analysis_state. rewrite posted_emit, requested_emit, !app_nil_r. reflexivity.
  - unfold previewMove.
    destruct (previewPosition a); cbn; now destruct (chess_move _ _ _ _) as [[? ?]|].
  - unfold clearPreview. now destruct (previewPosition a).
  - unfold playAnalysisMove.
    assert (G : game (clearPreview a) = game a)
      by (unfold clearPreview; now destruct (previewPosition a)).
    rewrite G. destruct (chess_move _ _ _ _) as [[san g]|]; [discriminate|].
    unfold clearPreview. now destruct (previewPosition a).
Qed.

(** What a position change reaches [analyzePosition] with. *)
Lemma position_changed_reaches e a :
  position_changed e a = true ->
  exists a1, handle e a = analyzePosition a1
             /\ currentAnalysis a1 = currentAnalysis a /\ apiKey a1 = apiKey a
             /\ evalScore (dom a1) = evalScore (dom a)
             /\ supabaseClient a1 = supabaseClient a.
Proof.
  destruct e as [src tgt| | |v|uci| |uci| | |l|kv| |chk|msg]; cbn [position_changed handle];
    intros H; try discriminate.
  - unfold handleMove. destruct (chess_move _ _ _ _) as [[san g]|]; [|discriminate].
    eexists. split; [reflexivity|]. cbn. auto.
  - unfold newGame. eexists. split; [reflexivity|]. cbn. auto.
  - unfold undoMove. eexists. split; [reflexivity|]. cbn. auto.
  - unfold setFenFromInput. apply andb_prop in H as [H1 H2]. rewrite H1. cbn [negb].
    destruct (chess_load _ _) as [g|]; [|discriminate].
    eexists. split; [reflexivity|]. cbn. auto.
  - unfold playAnalysisMove.
    assert (G : game (clearPreview a) = game a)
      by (unfold clearPreview; now destruct (previewPosition a)).
    rewrite G. destruct (chess_move _ _ _ _) as [[san g]|]; [|discriminate].
    eexists. split; [reflexivity|]. unfold clearPreview.
    destruct (previewPosition a); cbn; auto.
Qed.

(** A position change clears the lines and the page, and keeps the
    candidates of the position before in currentAnalysis and its score in
    the score field.  A call of the explanations before the next
    publication therefore finds no element on the page and asks about the
    old candidates with the new position; when the reply arrives, the text
    for the old candidate at index i is written into the element at index i
    of the list that is shown then, whatever that list is. *)
Theorem position_change_keeps_old_candidates e a :
  position_changed e a = true ->
  let a' := handle e a in
  analysisLines a' = [] /\ currentDepth a' = 0%Z
  /\ moveList (dom a') = EmptyState "Analyzing position..."
  /\ currentAnalysis a' = currentAnalysis a
  /\ evalScore (dom a') = evalScore (dom a)
  /\ (forall i, explanation_el i a' = None)
  /\ (Js.truthy (apiKey a) = true -> currentAnalysis a <> [] ->
      forall meanwhile, Forall elsewhere meanwhile ->
      (List.length (firstn 4 (currentAnalysis a)) < List.length meanwhile)%nat ->
      let asked := filter (is_uncached a') (firstn 4 (currentAnalysis a)) in
      let prompt := explanationPrompt (chess_fen (game a')) (turn_name a') asked in
      let s := proceed meanwhile (startExplanations a') in
      snd s = None
      /\ requested (fst s) =
           requested a' ++ match asked with [] => [] | _ :: _ => [prompt] end
      /\ (asked <> [] ->
          forall text, messages_api configuredModel prompt = ApiText text ->
          forall i m el, nth_error (firstn 4 (currentAnalysis a)) i = Some m ->
            explanation_el i (fst s) = Some el ->
            item_explanation el =
              match sobj_get (l_move m) (parseExplanations text) with
              | Some e => if Js.truthy e then e else "No explanation available"
              | None =>
                  match cache_hit a' (l_move m) with
                  | Some cached => cached
                  | None => "No explanation available"
                  end
              end)).
Proof.
  intros P. cbv zeta.
  destruct (position_changed_reaches e a P) as (a1 & -> & C & K & Ev & _).
  destruct (analyzePosition_clears a1) as (L & D & _ & M & _).
  assert (F : currentAnalysis (analyzePosition a1) = currentAnalysis a1
              /\ apiKey (analyzePosition a1) = apiKey a1
              /\ evalScore (dom (analyzePosition a1)) = evalScore (dom a1)).
  { unfold analyzePosition. cbn. destruct (analysisTimeout a1); cbn; auto. }
  destruct F as (F1 & F2 & F3).
  split; [exact L|]. split; [exact D|]. split; [exact M|].
  split; [congruence|]. split; [congruence|]. split.
  - intros i. unfold explanation_el. now rewrite M.
  - intros Key N meanwhile W Len. rewrite <- C, <- F1 in *.
    apply explanations_outcome; congruence.
Qed.

End Actions.

(* ================================================================== *)
(** ** The moves that a reply can explain *)
(* ================================================================== *)

Module ShapeFacts.
Import Js Regex Shape JsFacts RegexFacts.

Lemma append_assoc (x y z : string) : ((x ++ y) ++ z = x ++ (y ++ z))%string.
Proof. induction x as [|a x IH]; cbn; [reflexivity|]. now rewrite IH. Qed.

Lemma head_ok_app r1 r2 pre1 pre2 :
  head_ok r1 pre1 -> head_ok r2 pre2 -> head_ok (Seq r1 r2) (pre1 ++ pre2).
Proof.
  unfold head_ok. destruct pre1 as [|a p1]; cbn.
  - intros ->. destruct pre2 as [|b p2]; cbn; [auto|]. intros ->. apply orb_true_r.
  - intros ->. reflexivity.
Qed.

(** A successful run of a pattern: what it consumed starts as the pattern
    allows, the continuation got the rest, and the captures it added are
    those of its groups. *)
Lemma exec_inv r : forall s c k res,
  exec r s c k = Some res ->
  exists pre rest new,
    s = (pre ++ rest)%string /\ k rest (new ++ c) = Some res /\ head_ok r pre
    /\ Forall (fun x : nat * string => In (fst x) (groups r)) new.
Proof.
  induction r as [l|p|r1 IH1 r2 IH2|r1 IH1 r2 IH2|r1 IH1|p|p|n r1 IH1];
    intros s c k res; cbn [exec].
  - destruct (strip_prefix l s) as [rest|] eqn:E; [|discriminate].
    intros H. exists l, rest, []. split; [now apply strip_prefix_app|].
    split; [exact H|]. split; [|constructor].
    destruct l as [|b l]; cbn; [reflexivity|apply Ascii.eqb_refl].
  - destruct s as [|a s]; [discriminate|]. destruct (p a) eqn:Pa; [|discriminate].
    intros H. exists (String a EmptyString), s, []. cbn. auto.
  - intros H. apply IH1 in H as (pre1 & rest1 & new1 & -> & H & O1 & F1).
    apply IH2 in H as (pre2 & rest2 & new2 & -> & H & O2 & F2).
    exists (pre1 ++ pre2)%string, rest2, (new2 ++ new1).
    split; [now rewrite append_assoc|]. split; [now rewrite <- app_assoc|].
    split; [now apply head_ok_app|].
    apply Forall_app. split; eapply Forall_impl; try eassumption;
      cbn; intros x Hx; apply in_or_app; auto.
  - unfold orelse. destruct (exec r1 s c k) as [res1|] eqn:E1.
    + intros [= <-]. apply IH1 in E1 as (pre & rest & new & -> & H & O & F).
      exists pre, rest, new. repeat split; try assumption.
      * unfold head_ok in *. destruct pre; cbn; rewrite O; reflexivity.
      * eapply Forall_impl; [|exact F]. cbn. intros x Hx. apply in_or_app; auto.
    + intros H. apply IH2 in H as (pre & rest & new & -> & H & O & F).
      exists pre, rest, new. repeat split; try assumption.
      * unfold head_ok in *. destruct pre; cbn; rewrite O; apply orb_true_r.
      * eapply Forall_impl; [|exact F]. cbn. intros x Hx. apply in_or_app; auto.
  - unfold orelse. destruct (exec r1 s c k) as [res1|] eqn:E1.
    + intros [= <-]. apply IH1 in E1 as (pre & rest & new & -> & H & O & F).
      exists pre, rest, new. repeat split; try assumption.
      unfold head_ok in *. destruct pre; cbn; [reflexivity|exact O].
    + intros H. exists EmptyString, s, []. cbn. auto.
  - intros H. apply star_inv in H as (pre & rest & -> & Hp & H).
    exists pre, rest, []. repeat split; try assumption; [|constructor].
    destruct pre as [|a pre]; cbn in *; [reflexivity|].
    now apply andb_prop in Hp as [-> _].
  - destruct s as [|a s]; [discriminate|]. destruct (p a) eqn:Pa; [|discriminate].
    intros H. apply star_inv in H as (pre & rest & -> & Hp & H).
    exists (String a pre), rest, []. cbn. auto.
  - intros H. apply IH1 in H as (pre & rest & new & -> & H & O & F).
    exists pre, rest, ((n, consumed (pre ++ rest) rest) :: new).
    repeat split; try assumption.
    constructor; [now left|]. eapply Forall_impl; [|exact F]. cbn. auto.
Qed.

Lemma group_skip n gs new c :
  Forall (fun x : nat * string => In (fst x) gs) new -> ~ In n gs ->
  group n (new ++ c) = group n c.
Proof.
  intros F N. induction F as [|[m s] new Hm F IH]; cbn; [reflexivity|].
  destruct (Nat.eqb_spec m n) as [->|]; [contradiction|]. exact IH.
Qed.

Lemma no_groups_nil new :
  Forall (fun x : nat * string => In (fst x) []) new -> new = [].
Proof. destruct new as [|x new]; [reflexivity|]. intros F. inversion F as [|? ? []]. Qed.

Lemma exec_seq_inv r1 r2 s c k res :
  exec (Seq r1 r2) s c k = Some res ->
  exists pre rest new,
    s = (pre ++ rest)%string /\ exec r2 rest (new ++ c) k = Some res /\ head_ok r1 pre
    /\ Forall (fun x : nat * string => In (fst x) (groups r1)) new.
Proof. cbn [exec]. apply exec_inv. Qed.

(** The move of a line that the pattern of [parseExplanations] matches
    has the shape of [sanRe]. *)
Lemma explanation_key line m k :
  match_anchored explanationRe line = Some m -> group 2 m = Some k ->
  head_ok sanRe k.
Proof.
  unfold match_anchored, explanationRe. intros H G.
  apply exec_seq_inv in H as (p1 & s1 & n1 & _ & H & _ & F1).
  apply no_groups_nil in F1. subst n1.
  apply exec_seq_inv in H as (p2 & s2 & n2 & _ & H & _ & F2).
  apply no_groups_nil in F2. subst n2.
  apply exec_seq_inv in H as (p3 & s3 & n3 & _ & H & _ & F3).
  match type of H with exec (Seq (Group 2 sanRe) ?R) ?s ?c ?k = _ =>
    change (exec sanRe s c (fun rest c1 => exec R rest ((2, consumed s rest) :: c1) k)
            = Some m) in H end.
  apply exec_inv in H as (pre & rest & new & -> & H & O & F).
  apply no_groups_nil in F. subst new. rewrite consumed_app in H.
  apply exec_inv in H as (preR & restR & newR & _ & H & _ & FR).
  injection H as <-.
  rewrite (group_skip 2 _ _ _ FR) in G by (cbn; intuition discriminate).
  cbn in G. now injection G as <-.
Qed.

Lemma split_app sep t1 t2 :
  split sep (t1 ++ String sep t2) = (split sep t1 ++ split sep t2)%list.
Proof.
  induction t1 as [|c t1 IH]; cbn.
  - now rewrite Ascii.eqb_refl.
  - destruct (Ascii.eqb c sep); [now rewrite IH|].
    rewrite IH. destruct (split sep t1) as [|f fs] eqn:E; [|reflexivity].
    now apply split_head_nonempty in E.
Qed.

End ShapeFacts.

Section Replies.

Import Regex Shape.

Lemma fold_left_adds {A B} (f : list A -> B -> list A) (P : A -> Prop) :
  (forall acc b, f acc b = (f [] b ++ acc)%list) ->
  (forall b x, In x (f [] b) -> P x) ->
  forall l acc,
    fold_left f l acc = (fold_left f l [] ++ acc)%list
    /\ forall x, In x (fold_left f l []) -> P x.
Proof.
  intros Hf HP. induction l as [|b l IH]; intros acc; cbn [fold_left].
  - split; [reflexivity|intros x []].
  - destruct (IH (f acc b)) as [E1 _]. destruct (IH (f [] b)) as [E2 K]. split.
    + rewrite E1, E2, (Hf acc b). now rewrite <- app_assoc.
    + intros x. rewrite E2. intros H. apply in_app_or in H as [H|H]; eauto.
Qed.

(** The lines of a reply add up, and each adds a move of the shape of
    [sanRe]. *)
Lemma parseExplanations_fold (lines : list string) acc :
  let f := fun (explanations : StrObj) line =>
             match match_anchored explanationRe line with
             | Some m =>
                 match group 2 m, group 3 m with
                 | Some move, Some explanation =>
                     sobj_set move (Js.trim explanation) explanations
                 | _, _ => explanations
                 end
             | None => explanations
             end in
  fold_left f lines acc = (fold_left f lines [] ++ acc)%list
  /\ forall x, In x (fold_left f lines []) -> head_ok sanRe (fst x).
Proof.
  intros f. apply fold_left_adds.
  - intros a b. subst f. cbv beta.
    destruct (match_anchored explanationRe b) as [m|]; [|reflexivity].
    destruct (group 2 m) as [mv|]; [|reflexivity].
    now destruct (group 3 m).
  - intros b x. subst f. cbv beta.
    destruct (match_anchored explanationRe b) as [m|] eqn:M; [|intros []].
    destruct (group 2 m) as [mv|] eqn:G2; [|intros []].
    destruct (group 3 m) as [ex|]; [|intros []].
    intros [<-|[]]. cbn [fst]. eapply ShapeFacts.explanation_key; eassumption.
Qed.

Lemma sobj_get_in k o v : sobj_get k o = Some v -> In (k, v) o.
Proof.
  induction o as [|[k' v'] o IH]; cbn; [discriminate|].
  destruct (String.eqb_spec k k') as [->|]; [intros [= ->]; now left|auto].
Qed.

(** The reply is read line by line, and the lines add up: a later line
    for a move overrides an earlier one, and the lines of two texts joined
    by a line break are those of the first and then those of the second. *)
Theorem parseExplanations_joins t1 t2 k :
  parseExplanations (t1 ++ nl ++ t2) = (parseExplanations t2 ++ parseExplanations t1)%list
  /\ sobj_get k (parseExplanations (t1 ++ nl ++ t2)) =
       match sobj_get k (parseExplanations t2) with
       | Some e => Some e
       | None => sobj_get k (parseExplanations t1)
       end.
Proof.
  assert (E : parseExplanations (t1 ++ nl ++ t2)
              = (parseExplanations t2 ++ parseExplanations t1)%list).
  { unfold parseExplanations, nl. cbn [append].
    rewrite ShapeFacts.split_app, fold_left_app.
    apply (proj1 (parseExplanations_fold _ _)). }
  split; [exact E|]. rewrite E. apply sobj_get_app.
Qed.

(** Every move that a reply explains starts like a move in algebraic
    notation: with a piece letter, a file, a rank or x.  Castling, which
    chess.js writes O-O and O-O-O, is never among them: a reply cannot
    explain a castling move. *)
Theorem reply_never_explains_castling text :
  (forall k v, sobj_get k (parseExplanations text) = Some v ->
     exists c rest, k = String c rest
       /\ (one_of "KQRBNx" c || in_range "a" "h" c || in_range "1" "8" c) = true)
  /\ sobj_get "O-O" (parseExplanations text) = None
  /\ sobj_get "O-O-O" (parseExplanations text) = None.
Proof.
  assert (K : forall k v, sobj_get k (parseExplanations text) = Some v ->
              exists c rest, k = String c rest
                /\ (one_of "KQRBNx" c || in_range "a" "h" c || in_range "1" "8" c) = true).
  { intros k v H. apply sobj_get_in in H.
    apply (proj2 (parseExplanations_fold _ [])) in H. cbn [fst] in H.
    destruct k as [|c rest]; [discriminate H|].
    exists c, rest. split; [reflexivity|].
    unfold head_ok in H. revert H. clear.
    destruct c as [[|] [|] [|] [|] [|] [|] [|] [|]]; vm_compute; auto. }
  split; [exact K|]. split.
  - destruct (sobj_get "O-O" _) as [v|] eqn:E; [|reflexivity].
    destruct (K _ _ E) as (c & rest & [= <- _] & H). discriminate H.
  - destruct (sobj_get "O-O-O" _) as [v|] eqn:E; [|reflexivity].
    destruct (K _ _ E) as (c & rest & [= <- _] & H). discriminate H.
Qed.

End Replies.

(* ================================================================== *)
(** ** Keys, classes and the move history *)
(* ================================================================== *)

Section Values.

Import Js JsFacts.

Lemma key_split b1 : forall b2 m1 m2,
  all_chars (fun c => negb (Ascii.eqb c "_")) b1 = true ->
  all_chars (fun c => negb (Ascii.eqb c "_")) b2 = true ->
  (b1 ++ "_" ++ m1 = b2 ++ "_" ++ m2)%string -> b1 = b2 /\ m1 = m2.
Proof.
  induction b1 as [|c b1 IH]; intros [|d b2] m1 m2; cbn.
  - intros _ _ [= ->]. auto.
  - intros _ H [= <- _]. apply andb_prop in H as [H _]. discriminate H.
  - intros H _ [= -> _]. apply andb_prop in H as [H _]. discriminate H.
  - intros H1 H2 [= -> E]. apply andb_prop in H1 as [_ H1]. apply andb_prop in H2 as [_ H2].
    destruct (IH _ _ _ H1 H2 E) as [-> ->]. auto.
Qed.

(** Two cache keys are the same only for the same board layout and the
    same move: the key tells the layout (which holds no underscore) and
    the move apart. *)
Theorem cache_key_tells_board_and_move fen1 fen2 move1 move2 b1 b2 :
  board_layout_field fen1 b1 -> board_layout_field fen2 b2 ->
  all_chars (fun c => negb (Ascii.eqb c "_")) b1 = true ->
  all_chars (fun c => negb (Ascii.eqb c "_")) b2 = true ->
  getCacheKey fen1 move1 = getCacheKey fen2 move2 ->
  b1 = b2 /\ move1 = move2.
Proof.
  assert (K : forall fen b move, board_layout_field fen b ->
                getCacheKey fen move = (b ++ "_" ++ move)%string).
  { intros fen b move [Hb [->|[rest ->]]]; unfold getCacheKey; cbv zeta.
    - now rewrite first_split_no_sep.
    - now rewrite first_split_field. }
  intros F1 F2 U1 U2. rewrite (K _ _ _ F1), (K _ _ _ F2). now apply key_split.
Qed.

Lemma Qgt_hundredths w :
  Qgt_bool (Qmake w 100) (3 # 10) = (30 <? w)%Z
  /\ Qgt_bool (- 3 # 10) (Qmake w 100) = (w <? -30)%Z.
Proof.
  unfold Qgt_bool, Qle_bool. cbn [Qnum Qden]. split.
  - destruct (30 <? w)%Z eqn:E.
    + apply Z.ltb_lt in E. apply negb_true_iff, Z.leb_gt. lia.
    + apply Z.ltb_ge in E. apply negb_false_iff, Z.leb_le. lia.
  - destruct (w <? -30)%Z eqn:E.
    + apply Z.ltb_lt in E. apply negb_true_iff, Z.leb_gt. lia.
    + apply Z.ltb_ge in E. apply negb_false_iff, Z.leb_le. lia.
Qed.

(** The colour class of a stored evaluation.  A mate score is positive
    when the engine's number is positive, negative otherwise, whoever is
    to move; a centipawn score is positive above +0.30 for the side to
    move, negative below -0.30, and neutral in between, both bounds
    included. *)
Theorem eval_class_of_score ty v turn :
  getEvalClass (evalScore_of ty v turn) =
    if String.eqb ty "mate" then (if (0 <? v)%Z then "positive" else "negative")
    else
      let w := flipped v turn in
      if (30 <? w)%Z then "positive" else if (w <? -30)%Z then "negative" else "neutral".
Proof.
  destruct (String.eqb ty "mate") eqn:T.
  - unfold evalScore_of. rewrite T.
    assert (E : (if (0 <? v)%Z then ("M" ++ string_of_Z v)%string
                 else ("M" ++ string_of_Z v)%string) = String "M" (string_of_Z v))
      by now destruct (0 <? v)%Z.
    rewrite E. unfold getEvalClass.
    change (startsWith (String "M" ?s) "M") with true. cbn [substring_from].
    now rewrite parseInt_string_of_Z.
  - cbv zeta. unfold evalScore_of. rewrite T. fold (flipped v turn).
    set (w := flipped v turn). unfold getEvalClass.
    assert (M : startsWith (if (0 <? w)%Z then ("+" ++ toFixed2_hundredths w)%string
                            else toFixed2_hundredths w) "M" = false).
    { unfold toFixed2_hundredths.
      destruct (string_of_N_head (Z.abs_N w / 100)) as (c & s & E & D).
      rewrite E. destruct w as [|p|p]; cbn [Z.ltb Z.compare]; try reflexivity.
      cbn [append]. now apply startsWith_M_digit_start. }
    rewrite M, parseFloat_display.
    destruct (Qgt_hundredths w) as [-> ->]. reflexivity.
Qed.

Lemma move_pairs_facts n : forall history moveNum,
  (List.length history <= n)%nat ->
  Forall (fun m => truthy m = true) history ->
  shown_moves (move_pairs moveNum history) = history
  /\ List.length (move_pairs moveNum history) = Nat.div2 (S (List.length history))
  /\ map pair_number (move_pairs moveNum history)
     = map (fun i => (moveNum + N.of_nat i)%N) (seq 0 (Nat.div2 (S (List.length history)))).
Proof.
  induction n as [|n IH]; intros history moveNum L T.
  - destruct history; [cbn; auto|cbn in L; lia].
  - destruct history as [|w [|b rest]].
    + cbn. auto.
    + cbn. rewrite N.add_0_r. auto.
    + inversion T as [|? ? Tw T1]; subst. inversion T1 as [|? ? Tb Tr]; subst.
      destruct (IH rest (moveNum + 1)%N) as (S1 & S2 & S3); [cbn in L; lia|assumption|].
      cbn [move_pairs]. rewrite Tb.
      cbn [shown_moves flat_map pair_white pair_black app List.length map pair_number].
      fold (shown_moves (move_pairs (moveNum + 1) rest)). rewrite S1, S2, S3.
      split; [reflexivity|]. split; [reflexivity|].
      change (Nat.div2 (S (S (S (List.length rest)))))
        with (S (Nat.div2 (S (List.length rest)))).
      cbn [seq map]. rewrite N.add_0_r. f_equal.
      rewrite <- seq_shift, map_map. apply map_ext. intros i. lia.
Qed.

(** The move history shows every move of the game once and in order, two
    to a row, the rows numbered from 1; the placeholder is shown when no
    move was made. *)
Theorem move_history_shows_the_game history :
  Forall (fun m => truthy m = true) history ->
  match updateMoveHistory history with
  | NoMoves msg => history = [] /\ msg = "No moves yet"
  | Pairs rows =>
      history <> [] /\ shown_moves rows = history
      /\ List.length rows = Nat.div2 (S (List.length history))
      /\ map pair_number rows = map (fun i => N.of_nat (S i)) (seq 0 (List.length rows))
  end.
Proof.
  intros T. unfold updateMoveHistory. destruct history as [|m rest]; [auto|].
  destruct (move_pairs_facts _ (m :: rest) 1%N (le_n _) T) as (S1 & S2 & S3).
  split; [discriminate|]. split; [exact S1|]. split; [exact S2|].
  rewrite S3, S2. apply map_ext. intros i. lia.
Qed.

End Values.

(* ================================================================== *)
(** ** The preview, the cache writes, a publication and the key *)
(* ================================================================== *)

Section Previews.

Context {rules : RulesEngine} {services : Services}.

Lemma previewMove_pending uci a p :
  previewPosition a = Some p ->
  previewPosition (previewMove uci a) = Some p
  /\ analysis_state (previewMove uci a) = analysis_state a
  /\ apiKey (previewMove uci a) = apiKey a.
Proof.
  intros E. unfold previewMove. rewrite E. cbn.
  destruct (chess_move _ _ _ _) as [[? ?]|]; cbn; auto.
Qed.

Lemma previews_pending ucis : forall a p,
  previewPosition a = Some p ->
  previewPosition (fold_left (fun a u => previewMove u a) ucis a) = Some p
  /\ analysis_state (fold_left (fun a u => previewMove u a) ucis a) = analysis_state a.
Proof.
  induction ucis as [|u ucis IH]; intros a p E; cbn [fold_left]; [auto|].
  destruct (previewMove_pending u a p E) as (E1 & S1 & _).
  destruct (IH _ _ E1) as (E2 & S2). split; [exact E2|]. now rewrite S2.
Qed.

(** The mouse passes over any number of candidates and leaves: the board
    shows the position of the game again, without highlights, and the
    game and the analysis were never touched. *)
Theorem preview_round_trip ucis a :
  previewPosition a = None ->
  shown (board a) = Js.first (Js.split " " (chess_fen (game a))) ->
  let hovered := fold_left (fun a u => previewMove u a) ucis a in
  let left := clearPreview hovered in
  shown (board left) = shown (board a) /\ highlights (board left) = []
  /\ previewPosition left = None
  /\ analysis_state hovered = analysis_state a
  /\ analysis_state left = analysis_state a.
Proof.
  intros N B. cbv zeta.
  destruct ucis as [|u ucis]; cbn [fold_left].
  - unfold clearPreview. rewrite N. cbn. auto.
  - assert (P : previewPosition (previewMove u a) = Some (chess_fen (game a))
                /\ analysis_state (previewMove u a) = analysis_state a).
    { unfold previewMove. rewrite N. cbn.
      destruct (chess_move _ _ _ _) as [[? ?]|]; cbn; auto. }
    destruct P as [P S].
    destruct (previews_pending ucis _ _ P) as [P' S'].
    unfold clearPreview. rewrite P'. cbn [board shown highlights set_board previewPosition
      set_previewPosition board_position].
    rewrite B, S', S. repeat (split; [reflexivity|]).
    change (analysis_state (set_board ?b (set_previewPosition None (board_position ?f ?x))))
      with (analysis_state x).
    now rewrite S', S.
Qed.

Lemma upserts_emit e a :
  upserts (emit e a) =
    (upserts a ++ match e with
                  | CacheUpsert key _ _ explanation => [(key, explanation)]
                  | _ => []
                  end)%list.
Proof. unfold upserts, emit. cbn. rewrite flat_map_app. cbn. now rewrite app_nil_r. Qed.

Lemma upserts_save_all fen new u : forall a,
  upserts (save_all fen new u a) =
    (upserts a ++
       if supabaseClient a then
         flat_map (fun m => match sobj_truthy (l_move m) new with
                            | Some e => [(getCacheKey fen (l_move m), e)]
                            | None => []
                            end) u
       else [])%list
  /\ supabaseClient (save_all fen new u a) = supabaseClient a.
Proof.
  unfold save_all. induction u as [|m u IH]; intros a; cbn [fold_left flat_map].
  - split; [|reflexivity]. destruct (supabaseClient a); now rewrite app_nil_r.
  - destruct (IH match sobj_truthy (l_move m) new with
                 | Some explanation => saveExplanationToCache fen (l_move m) explanation a
                 | None => a
                 end) as [E S].
    rewrite E, S. clear E S IH.
    destruct (sobj_truthy (l_move m) new) as [e|]; [|auto].
    unfold saveExplanationToCache. destruct (supabaseClient a) eqn:C; cbn [negb].
    + rewrite upserts_emit. cbn [supabaseClient emit set_rt]. rewrite C.
      split; [|reflexivity]. now rewrite <- app_assoc.
    + rewrite C. auto.
Qed.

(** What an explanation run writes to the cache: the explanations of the
    reply for the moves that were not cached, one upsert each under the
    key of the position and the move, when the reply has a text that is
    not empty for the move; nothing for a cached move, nothing when the
    request fails, nothing without a cache client. *)
Theorem cache_receives_new_explanations a :
  Js.truthy (apiKey a) = true -> currentAnalysis a <> [] ->
  let uncached := filter (is_uncached a) (firstn 4 (currentAnalysis a)) in
  let prompt := explanationPrompt (chess_fen (game a)) (turn_name a) uncached in
  upserts (fetchExplanations a) =
    (upserts a ++
       match uncached, messages_api configuredModel prompt with
       | _ :: _, ApiText text =>
           if supabaseClient a then
             flat_map (fun m => match sobj_truthy (l_move m) (parseExplanations text) with
                                | Some e => [(getCacheKey (chess_fen (game a)) (l_move m), e)]
                                | None => []
                                end) uncached
           else []
       | _, _ => []
       end)%list.
Proof.
  intros K N. cbv zeta. rewrite (fetchExplanations_run a K N). cbv zeta.
  change (upserts (page ?f ?x)) with (upserts x).
  destruct (filter _ _) as [|u us] eqn:U.
  - change (upserts (page ?f ?x)) with (upserts x). now rewrite app_nil_r.
  - destruct (messages_api _ _) as [text|];
      change (upserts (page ?f ?x)) with (upserts x).
    + rewrite (proj1 (upserts_save_all _ _ _ _)), upserts_emit.
      change (upserts (page ?f ?x)) with (upserts x). now rewrite app_nil_r.
    + rewrite upserts_emit.
      change (upserts (page ?f ?x)) with (upserts x). reflexivity.
Qed.

(** A publication with lines shows one element per stored rank, in the
    order of the ranked list, each with its move, its evaluation and the
    placeholder of the explanations: what was explained before is
    overwritten.  The score field shows the evaluation of the first. *)
Theorem publication_resets_explanations a :
  analysisLines a <> [] ->
  let a' := updateAnalysisDisplay a in
  List.length (currentAnalysis a') = List.length (analysisLines a)
  /\ evalScore (dom a') = l_eval (hd (Build_Line "" "" "" 0 []) (currentAnalysis a'))
  /\ forall i m, nth_error (currentAnalysis a') i = Some m ->
       explanation_el i a' =
         Some {| item_uci := l_uci m; item_notation := l_move m; item_eval := l_eval m;
                 item_explanation :=
                   if Js.truthy (apiKey a)
                   then "Click " ++ dquote ++ "Explain Moves" ++ dquote ++ " for analysis"
                   else "Add API key for explanations";
                 item_loading := false |}.
Proof.
  intros NE. cbv zeta. unfold updateAnalysisDisplay.
  change (analysisLines (page ?f a)) with (analysisLines a).
  pose proof (sort_perm compareMoves (obj_values (analysisLines a))) as P.
  destruct (sort compareMoves (obj_values (analysisLines a))) as [|best rest] eqn:S.
  { apply Permutation_nil in P. unfold obj_values in P.
    destruct (analysisLines a); [contradiction|discriminate]. }
  cbn [currentAnalysis set_currentAnalysis page set_dom updateEvalDisplay dom
       dom_moveItems dom_moveList dom_evalScore evalScore hd].
  split.
  - rewrite (Permutation_length P). unfold obj_values. apply length_map.
  - split; [reflexivity|].
    intros i m Hm. unfold explanation_el.
    cbn [dom page set_dom dom_moveItems dom_moveList moveList].
    rewrite (map_nth_error _ _ _ Hm). unfold render_item.
    cbn [apiKey page set_dom updateEvalDisplay set_currentAnalysis].
    now destruct (Js.truthy (apiKey a)).
Qed.

(** Saving a key field that is blank stores nothing and leaves the dialog
    as it is, and the key held in memory is lost: Explain Moves then opens
    the dialog and asks nothing. *)
Theorem blank_key_forgets_the_key value a :
  Js.truthy (Js.trim value) = false ->
  let a' := fst (saveApiKey value a) in
  snd (saveApiKey value a) = None
  /\ apiKey a' = ""
  /\ analysis_state a' = analysis_state a /\ dom a' = dom a
  /\ apiKeyModal_active (dom (fetchExplanations a')) = true
  /\ effects (rt (fetchExplanations a')) = effects (rt a).
Proof.
  intros B. cbv zeta. unfold saveApiKey.
  cbn [apiKey set_apiKey]. rewrite B. cbn [fst snd].
  assert (E : Js.trim value = "") by (destruct (Js.trim value); [reflexivity|discriminate]).
  rewrite E. unfold fetchExplanations. cbn. repeat split.
Qed.

End Previews.

(* ================================================================== *)
(** ** The later properties on concrete runs *)
(* ================================================================== *)

Lemma messages_without_auto_explain_witness :
  let a := Scenario.two_candidates in
  autoExplainCheckbox (dom a) && Js.truthy (apiKey a) = false
  /\ effects (rt (messages (services := Excerpt.offline) Session.deeper a)) = []
  /\ map l_eval (currentAnalysis (messages (services := Excerpt.offline) Session.deeper a))
     = ["+0.28"; "+0.25"].
Proof.
  cbv zeta. split; [reflexivity|]. split.
  - rewrite (messages_without_auto_explain (services := Excerpt.offline)
               Session.deeper Scenario.two_candidates eq_refl).
    reflexivity.
  - vm_compute. reflexivity.
Defined.

Lemma progress_line_publishes_only_at_even_depth_witness :
  let a := Excerpt.page_at Excerpt.start in
  currentAnalysis (parseAnalysisLine Session.first_line a) <> currentAnalysis a
  /\ exists f, parseFields Session.first_line = Some f /\ (10 <= f_depth f)%Z
               /\ (f_depth f mod 2 = 0)%Z /\ (currentDepth a <= f_depth f)%Z
               /\ legal_now (Js.first (f_pv f)) a = true.
Proof.
  cbv zeta.
  assert (C : currentAnalysis (parseAnalysisLine Session.first_line
                                 (Excerpt.page_at Excerpt.start))
              <> currentAnalysis (Excerpt.page_at Excerpt.start))
    by (vm_compute; discriminate).
  split; [exact C|].
  exact (progress_line_publishes_only_at_even_depth Session.first_line
           (Excerpt.page_at Excerpt.start) (or_intror C)).
Defined.

Lemma debounce_has_one_slot_witness :
  let a := Excerpt.page_at Excerpt.start in
  single_slot a
  /\ single_slot (run (services := Excerpt.offline) a Session.visit)
  /\ one_timer (run (services := Excerpt.offline) a Session.visit).
Proof.
  cbv zeta.
  assert (S : single_slot (Excerpt.page_at Excerpt.start)) by (left; reflexivity).
  split; [exact S|].
  exact (debounce_has_one_slot (services := Excerpt.offline) Session.visit
           (Excerpt.page_at Excerpt.start) S).
Defined.

Lemma no_worker_nothing_posted_witness :
  let a := Scenario.no_worker in
  stockfish a = false
  /\ Forall (fun e : N * Event => worker_load (snd e) = false) Session.unattended
  /\ stockfish (run (services := Excerpt.offline) a Session.unattended) = false
  /\ posted (run (services := Excerpt.offline) a Session.unattended) = []
  /\ chess_fen (game (run (services := Excerpt.offline) a Session.unattended))
     = Excerpt.after_e4.
Proof.
  cbv zeta.
  assert (W : Forall (fun e : N * Event => worker_load (snd e) = false) Session.unattended)
    by (repeat constructor).
  split; [reflexivity|]. split; [exact W|].
  destruct (no_worker_nothing_posted (services := Excerpt.offline) Session.unattended
              Scenario.no_worker eq_refl W) as [S P].
  split; [exact S|]. split; [rewrite P; reflexivity|].
  vm_compute. reflexivity.
Defined.

Lemma late_worker_misses_first_analysis_witness :
  let a0 := Scenario.no_worker in
  let loaded := step (services := Excerpt.offline)
                  (init true a0) (150%N, EvWorkerLoaded) in
  stockfish a0 = false /\ timers (rt a0) = [] /\ (100 < 150)%N
  /\ quiet (services := Excerpt.offline) loaded Session.browsing
  /\ stockfish loaded = true
  /\ posted (run (services := Excerpt.offline) loaded Session.browsing)
     = ["uci"; "setoption name MultiPV value 4"; "isready"].
Proof.
  cbv zeta.
  assert (Q : quiet (services := Excerpt.offline)
                (step (services := Excerpt.offline)
                   (init true Scenario.no_worker)
                   (150%N, EvWorkerLoaded)) Session.browsing).
  { repeat split; vm_compute; reflexivity. }
  assert (D : (100 < 150)%N) by (vm_compute; reflexivity).
  split; [reflexivity|]. split; [reflexivity|]. split; [exact D|]. split; [exact Q|].
  destruct (late_worker_misses_first_analysis (services := Excerpt.offline) true
              Scenario.no_worker 150 Session.browsing eq_refl eq_refl D Q) as [S P].
  split; [exact S|]. rewrite P. reflexivity.
Defined.

Lemma failed_action_keeps_analysis_witness :
  let a := Scenario.finished in
  user_action (EvDrop "e2" "e5") = true
  /\ position_changed (EvDrop "e2" "e5") a = false
  /\ analysis_state (handle (services := Excerpt.offline) (EvDrop "e2" "e5") a)
     = analysis_state a.
Proof.
  cbv zeta. split; [reflexivity|]. split; [reflexivity|].
  exact (failed_action_keeps_analysis (services := Excerpt.offline) (EvDrop "e2" "e5")
           Scenario.finished eq_refl eq_refl).
Defined.

Lemma reply_never_explains_castling_witness :
  sobj_get "e4" (parseExplanations Session.reply) = Some "Frees the bishop."
  /\ sobj_get "O-O" (parseExplanations Session.reply) = None.
Proof.
  split; [vm_compute; reflexivity|].
  exact (proj1 (proj2 (reply_never_explains_castling Session.reply))).
Defined.

Lemma cache_key_tells_board_and_move_witness :
  board_layout_field Excerpt.start Session.start_layout
  /\ board_layout_field Session.start_black Session.start_layout
  /\ getCacheKey Excerpt.start "e4" = getCacheKey Session.start_black "e4"
  /\ Session.start_layout = Session.start_layout /\ "e4" = "e4".
Proof.
  assert (F1 : board_layout_field Excerpt.start Session.start_layout).
  { split; [reflexivity|]. right. exists "w KQkq - 0 1". reflexivity. }
  assert (F2 : board_layout_field Session.start_black Session.start_layout).
  { split; [reflexivity|]. right. exists "b KQkq - 0 1". reflexivity. }
  split; [exact F1|]. split; [exact F2|]. split; [reflexivity|].
  exact (cache_key_tells_board_and_move Excerpt.start Session.start_black "e4" "e4"
           Session.start_layout Session.start_layout F1 F2 eq_refl eq_refl eq_refl).
Defined.

Lemma move_history_shows_the_game_witness :
  Forall (fun m => Js.truthy m = true) Session.opening
  /\ match updateMoveHistory Session.opening with
     | NoMoves _ => False
     | Pairs rows =>
         shown_moves rows = ["e4"; "e5"; "Nf3"] /\ map pair_number rows = [1%N; 2%N]
     end.
Proof.
  assert (T : Forall (fun m => Js.truthy m = true) Session.opening)
    by (repeat constructor).
  split; [exact T|].
  pose proof (move_history_shows_the_game Session.opening T) as H.
  destruct (updateMoveHistory Session.opening) as [msg|rows] eqn:E.
  - destruct H as [H _]. discriminate H.
  - destruct H as (_ & S & L & Nm). split; [exact S|].
    rewrite Nm, L. reflexivity.
Defined.

Lemma preview_round_trip_witness :
  let a := Excerpt.page_at Excerpt.start in
  let hovered := fold_left (fun a u => previewMove u a) ["e2e4"; "d2d4"] a in
  previewPosition a = None
  /\ shown (board hovered) = "rnbqkbnr/pppppppp/8/8/3P4/8/PPP1PPPP/RNBQKBNR"
  /\ shown (board (clearPreview hovered)) = Session.start_layout
  /\ highlights (board (clearPreview hovered)) = []
  /\ analysis_state (clearPreview hovered) = analysis_state a.
Proof.
  cbv zeta.
  destruct (preview_round_trip ["e2e4"; "d2d4"] (Excerpt.page_at Excerpt.start)
              eq_refl eq_refl) as (B & H & _ & _ & S).
  split; [reflexivity|]. split; [vm_compute; reflexivity|].
  split; [rewrite B; reflexivity|]. split; [exact H|exact S].
Defined.

Lemma cache_receives_new_explanations_witness :
  let a := Scenario.finished in
  Js.truthy (apiKey a) = true /\ currentAnalysis a <> []
  /\ upserts (fetchExplanations (services := Scenario.answers_both) a)
     = [("rnbqkbnr/pppppppp/8/8/8/8/PPPPPPPP/RNBQKBNR_d4", "Claims the centre.")].
Proof.
  cbv zeta.
  assert (N : currentAnalysis Scenario.finished <> []) by (vm_compute; discriminate).
  split; [reflexivity|]. split; [exact N|].
  rewrite (cache_receives_new_explanations (services := Scenario.answers_both)
             Scenario.finished eq_refl N).
  vm_compute. reflexivity.
Defined.

Lemma publication_resets_explanations_witness :
  let a := fetchExplanations (services := Scenario.answers_both) Scenario.finished in
  analysisLines a <> []
  /\ explanation_text 1 a = Some "Claims the centre."
  /\ explanation_text 1 (updateAnalysisDisplay a)
     = Some ("Click " ++ dquote ++ "Explain Moves" ++ dquote ++ " for analysis")%string.
Proof.
  cbv zeta.
  assert (N : analysisLines (fetchExplanations (services := Scenario.answers_both)
                               Scenario.finished) <> []) by (vm_compute; discriminate).
  split; [exact N|]. split; [vm_compute; reflexivity|].
  destruct (publication_resets_explanations _ N) as (_ & _ & E).
  unfold explanation_text. rewrite (E 1%nat Scenario.d4_line) by (vm_compute; reflexivity).
  vm_compute. reflexivity.
Defined.

Lemma blank_key_forgets_the_key_witness :
  let a := Scenario.finished in
  let a' := fst (saveApiKey (services := Excerpt.offline) "   " a) in
  Js.truthy (Js.trim "   ") = false
  /\ apiKey a = "sk-test" /\ apiKey a' = ""
  /\ apiKeyModal_active (dom (fetchExplanations (services := Excerpt.offline) a')) = true.
Proof.
  cbv zeta.
  destruct (blank_key_forgets_the_key (services := Excerpt.offline) "   "
              Scenario.finished eq_refl) as (_ & K & _ & _ & M & _).
  split; [reflexivity|]. split; [reflexivity|]. split; [exact K|exact M].
Defined.

(* ================================================================== *)
(** ** How an explanation run leaves the page *)
(* ================================================================== *)

Section Tidy.

Context {rules : RulesEngine} {services : Services}.

Lemma uncached_none a ms m :
  filter (is_uncached a) ms = [] -> In m ms -> cache_hit a (l_move m) <> None.
Proof.
  intros F Hin E.
  assert (H : In m (filter (is_uncached a) ms)).
  { apply filter_In. split; [assumption|]. unfold is_uncached. now rewrite E. }
  now rewrite F in H.
Qed.

(** An explanation run with a key and candidates always ends with the
    button enabled again, whatever the cache and the service answer; the
    elements of the first four candidates keep their move and evaluation
    and none of them is left in the loading state; the elements of further
    candidates are not touched. *)
Theorem explanation_run_ends_tidy a :
  Js.truthy (apiKey a) = true -> currentAnalysis a <> [] ->
  let a' := fetchExplanations a in
  explainBtn_disabled (dom a') = false /\ explainBtn_text (dom a') = "Explain Moves"
  /\ (forall i m el,
        nth_error (firstn 4 (currentAnalysis a)) i = Some m -> explanation_el i a = Some el ->
        exists el',
          explanation_el i a' = Some el' /\ item_loading el' = false
          /\ item_uci el' = item_uci el /\ item_notation el' = item_notation el
          /\ item_eval el' = item_eval el)
  /\ (forall i, (4 <= i)%nat -> explanation_el i a' = explanation_el i a).
Proof.
  intros K N. cbv zeta. rewrite (fetchExplanations_run a K N). cbv zeta.
  set (moves := firstn 4 (currentAnalysis a)).
  split; [reflexivity|]. split; [reflexivity|].
  assert (El : forall i x f, explanation_el i (page f x) = ml_get i (moveList (f (dom x)))).
  { intros i x f. unfold explanation_el, ml_get. reflexivity. }
  assert (El0 : forall i, explanation_el i a = ml_get i (moveList (dom a))) by reflexivity.
  assert (Far : forall i, (4 <= i)%nat -> nth_error moves i = None).
  { intros i Hi. apply nth_error_None. subst moves. rewrite length_firstn. lia. }
  split.
  - intros i m el Hm He. rewrite El0 in He. rewrite El.
    destruct (filter (is_uncached a) moves) as [|u us] eqn:U.
    + cbn [dom_explainBtn moveList page set_dom dom dom_moveItems dom_moveList].
      rewrite ml_get_each. cbn [Nat.leb]. rewrite Nat.sub_0_r, Hm. cbn [cache_write].
      rewrite He. cbn [option_map].
      destruct (cache_hit a (l_move m)) as [s|] eqn:C.
      * eexists. split; [reflexivity|]. cbn. auto.
      * exfalso. eapply (uncached_none a moves m U); [|exact C].
        eapply nth_error_In; eassumption.
    + destruct (messages_api _ _) as [text|].
      * cbn [dom_explainBtn moveList page set_dom dom dom_moveItems dom_moveList].
        rewrite save_all_dom.
        cbn [emit set_rt dom moveList page set_dom dom_moveItems dom_moveList].
        rewrite !ml_get_each. cbn [Nat.leb]. rewrite Nat.sub_0_r, Hm.
        cbn [success_write cache_write]. rewrite He. cbn [option_map].
        eexists. split; [reflexivity|]. cbn.
        destruct (cache_hit a (l_move m)); cbn; auto.
      * cbn [dom_explainBtn moveList page set_dom dom dom_moveItems dom_moveList emit set_rt].
        rewrite !ml_get_each. cbn [Nat.leb]. rewrite Nat.sub_0_r, Hm.
        cbn [cache_write]. rewrite He. cbn [option_map].
        unfold failure_write.
        rewrite (cached_of_move a moves m) by (eapply nth_error_In; eassumption).
        destruct (cache_hit a (l_move m)) as [s|]; cbn [option_map];
          (eexists; split; [reflexivity|]; cbn; auto).
  - intros i Hi. rewrite El, El0. specialize (Far i Hi).
    destruct (filter (is_uncached a) moves) as [|u us].
    + cbn [dom_explainBtn moveList page set_dom dom dom_moveItems dom_moveList].
      rewrite ml_get_each. cbn [Nat.leb]. now rewrite Nat.sub_0_r, Far.
    + destruct (messages_api _ _) as [text|].
      * cbn [dom_explainBtn moveList page set_dom dom dom_moveItems dom_moveList].
        rewrite save_all_dom.
        cbn [emit set_rt dom moveList page set_dom dom_moveItems dom_moveList].
        rewrite !ml_get_each. cbn [Nat.leb]. now rewrite Nat.sub_0_r, Far.
      * cbn [dom_explainBtn moveList page set_dom dom dom_moveItems dom_moveList emit set_rt].
        rewrite !ml_get_each. cbn [Nat.leb]. now rewrite Nat.sub_0_r, Far.
Qed.

(** The end of a search with no stored line (the game is over and the
    engine has no move, or the search was stopped by a position change
    before a line of the new position came) shows No legal moves and keeps
    the candidates of the position before.  With Auto-explain on and a
    key, the explanations are then called for those old candidates with
    the position of the game, while the page has no element; when the
    reply arrives, the text for the old candidate at index i is written
    into the element at index i of the list that is shown then. *)
Theorem empty_search_explains_old_candidates l a :
  Js.startsWith l "info depth" = false -> Js.startsWith l "bestmove" = true ->
  analysisLines a = [] ->
  let called := handleStockfishMessage_start l a in
  let shown := updateAnalysisDisplay a in
  moveList (dom shown) = EmptyState "No legal moves"
  /\ currentAnalysis (fst called) = currentAnalysis a
  /\ (forall i, explanation_el i (fst called) = None)
  /\ (autoExplainCheckbox (dom a) = true -> Js.truthy (apiKey a) = true ->
      currentAnalysis a <> [] ->
      forall meanwhile, Forall elsewhere meanwhile ->
      (List.length (firstn 4 (currentAnalysis a)) < List.length meanwhile)%nat ->
      let asked := filter (is_uncached a) (firstn 4 (currentAnalysis a)) in
      let prompt := explanationPrompt (chess_fen (game a)) (turn_name a) asked in
      let s := proceed meanwhile called in
      snd s = None
      /\ requested (fst s) =
           requested a ++ match asked with [] => [] | _ :: _ => [prompt] end
      /\ (asked <> [] ->
          forall text, messages_api configuredModel prompt = ApiText text ->
          forall i m el, nth_error (firstn 4 (currentAnalysis a)) i = Some m ->
            explanation_el i (fst s) = Some el ->
            item_explanation el =
              match sobj_get (l_move m) (parseExplanations text) with
              | Some e => if Js.truthy e then e else "No explanation available"
              | None =>
                  match cache_hit a (l_move m) with
                  | Some cached => cached
                  | None => "No explanation available"
                  end
              end)).
Proof.
  intros I B L. cbv zeta. unfold handleStockfishMessage_start. rewrite I, B.
  unfold finalizeAnalysis_start.
  assert (U : updateAnalysisDisplay a
              = page (dom_moveList (EmptyState "No legal moves"))
                  (page (dom_engineDepth (LblDepth (currentDepth a))) a)).
  { unfold updateAnalysisDisplay.
    change (analysisLines (page ?f a)) with (analysisLines a). now rewrite L. }
  rewrite U. set (shown := page (dom_moveList _) _).
  split; [reflexivity|].
  destruct (autoExplainCheckbox (dom shown) && Js.truthy (apiKey shown)
            && (0 <? List.length (currentAnalysis shown))%nat) eqn:C.
  - apply andb_prop in C as [C C3]. apply andb_prop in C as [C1 C2].
    assert (Nx : currentAnalysis shown <> []).
    { destruct (currentAnalysis shown); [discriminate C3|discriminate]. }
    destruct (startExplanations_first shown) as [Kp Dm].
    destruct (kept_depth _ _ Kp) as (_ & _ & _ & CA & _).
    split; [exact CA|]. split.
    + intros i. unfold explanation_el. now rewrite (Dm "No legal moves" eq_refl).
    + intros _ _ _ meanwhile W Len.
      exact (explanations_outcome shown meanwhile C2 Nx W Len).
  - split; [reflexivity|]. split; [reflexivity|].
    intros A K N. exfalso.
    change (autoExplainCheckbox (dom shown)) with (autoExplainCheckbox (dom a)) in C.
    change (apiKey shown) with (apiKey a) in C.
    change (currentAnalysis shown) with (currentAnalysis a) in C.
    rewrite A, K in C. destruct (currentAnalysis a); [contradiction|discriminate C].
Qed.

End Tidy.

(* ================================================================== *)
(** ** Reading the engine's lines back *)
(* ================================================================== *)

Module ScanFacts.
Import Js Regex JsFacts RegexFacts DisplayFacts.

Lemma mf_skip r c s :
  match_anchored r (String c s) = None -> match_first r (String c s) = match_first r s.
Proof. intros H. cbn [match_first]. now rewrite H. Qed.

Lemma mf_here r s c : match_anchored r s = Some c -> match_first r s = Some c.
Proof. intros H. destruct s; cbn [match_first]; now rewrite H. Qed.

(** A run of characters none of which can start a match is skipped. *)
Lemma mf_skip_run (p : ascii -> bool) r pre s :
  all_chars p pre = true ->
  (forall c t, p c = true -> match_anchored r (String c t) = None) ->
  match_first r (pre ++ s) = match_first r s.
Proof.
  intros A F. induction pre as [|c pre IH]; [reflexivity|].
  cbn in A. apply andb_prop in A as [Pc A].
  cbn [append]. rewrite mf_skip by (now apply F). now apply IH.
Qed.

Lemma lit_head_fails l0 lit r c t :
  Ascii.eqb l0 c = false -> match_anchored (Lit (String l0 lit) >> r)%re (String c t) = None.
Proof. intros E. unfold match_anchored. cbn [exec strip_prefix]. now rewrite E. Qed.

Lemma numeric_not l0 c : numeric l0 = false -> numeric c = true -> Ascii.eqb l0 c = false.
Proof.
  intros H1 H2. destruct (Ascii.eqb_spec l0 c) as [->|]; [congruence|reflexivity].
Qed.

Lemma string_of_N_numeric n : all_chars numeric (string_of_N n) = true.
Proof.
  eapply all_chars_weaken; [|apply string_of_N_digits].
  intros c H. unfold numeric. now rewrite H.
Qed.

Lemma string_of_Z_numeric z : all_chars numeric (string_of_Z z) = true.
Proof.
  destruct z as [|p|p].
  - reflexivity.
  - rewrite string_of_Z_nonneg by lia. apply string_of_N_numeric.
  - rewrite string_of_Z_neg. cbn [all_chars]. now rewrite string_of_N_numeric.
Qed.

Lemma string_of_Z_of_N n : string_of_Z (Z.of_N n) = string_of_N n.
Proof. rewrite string_of_Z_nonneg by lia. now rewrite N2Z.id. Qed.

(** Greedy repetition stops where the class does, when the rest of the
    pattern matches there. *)
Lemma star_greedy {A} p (k : string -> option A) ds rest x :
  all_chars p ds = true ->
  match rest with EmptyString => True | String c _ => p c = false end ->
  k rest = Some x ->
  star p (ds ++ rest) k = Some x.
Proof.
  intros D R K. induction ds as [|c ds IH]; cbn [append].
  - destruct rest as [|c r]; cbn [star]; [exact K|]. now rewrite R.
  - cbn in D. apply andb_prop in D as [Pc D]. cbn [star]. rewrite Pc.
    now rewrite (IH D).
Qed.

Lemma append_nil_r s : (s ++ "")%string = s.
Proof. induction s as [|c s IH]; cbn; [reflexivity|]. now rewrite IH. Qed.

(** A literal followed by a number: the group holds the number. *)
Lemma number_here lit n rest :
  match rest with EmptyString => True | String c _ => is_digit c = false end ->
  match_anchored (Lit lit >> Group 1 (Plus is_digit))%re (lit ++ string_of_N n ++ rest)
  = Some [(1%nat, string_of_N n)].
Proof.
  intros R. unfold match_anchored. cbn [exec].
  assert (S : forall l s, strip_prefix l (l ++ s) = Some s).
  { induction l as [|a l IH]; intros s; cbn; [reflexivity|].
    now rewrite Ascii.eqb_refl. }
  rewrite S.
  destruct (string_of_N_head n) as (c & ds & E & D).
  pose proof (string_of_N_digits n) as Dn. rewrite E in *. cbn in Dn.
  apply andb_prop in Dn as [_ Dn]. cbn [append]. rewrite D.
  erewrite star_greedy; [reflexivity|exact Dn|exact R|].
  change (String c (ds ++ rest)) with (String c ds ++ rest)%string.
  now rewrite consumed_app.
Qed.

Lemma split_no_sep sep s :
  all_chars (fun c => negb (Ascii.eqb c sep)) s = true -> split sep s = [s].
Proof.
  induction s as [|c s IH]; cbn; [reflexivity|].
  intros H. apply andb_prop in H as [Hc Hs]. apply negb_true_iff in Hc.
  now rewrite Hc, (IH Hs).
Qed.

Lemma split_concat sep (pv : list string) :
  pv <> [] ->
  Forall (fun t => all_chars (fun c => negb (Ascii.eqb c sep)) t = true) pv ->
  split sep (String.concat (String sep EmptyString) pv) = pv.
Proof.
  induction pv as [|t pv IH]; [contradiction|]. intros _ F.
  inversion F as [|? ? Ft Fp]; subst.
  destruct pv as [|u pv].
  - cbn. now apply split_no_sep.
  - cbn [String.concat]. cbn [append].
    rewrite ShapeFacts.split_app, (split_no_sep _ _ Ft).
    cbn [app]. f_equal. apply IH; [discriminate|assumption].
Qed.

Lemma concat_dots (pv : list string) :
  Forall pv_move pv -> all_chars is_dot (String.concat " " pv) = true.
Proof.
  induction pv as [|t pv IH]; [reflexivity|]. intros F.
  inversion F as [|? ? [_ Ft] Fp]; subst.
  assert (Dt : all_chars is_dot t = true).
  { eapply all_chars_weaken; [|exact Ft]. cbn. intros c H. now apply andb_prop in H as [-> _]. }
  destruct pv as [|u pv]; [exact Dt|].
  cbn [String.concat]. rewrite all_chars_app, Dt. cbn [append all_chars andb].
  change (is_dot " ") with true. cbn [andb]. now apply IH.
Qed.

Lemma strip_prefix_self l s : strip_prefix l (l ++ s) = Some s.
Proof. induction l as [|a l IH]; cbn; [reflexivity|]. now rewrite Ascii.eqb_refl. Qed.

Lemma exec_lit l r s c k : exec (Lit l >> r)%re (l ++ s) c k = exec r s c k.
Proof. cbn [exec]. now rewrite strip_prefix_self. Qed.

Lemma alt_cp r X c k x :
  exec r X ((1%nat, "cp") :: c) k = Some x ->
  exec (Group 1 (Alt (Lit "cp") (Lit "mate")) >> r)%re ("cp" ++ X) c k = Some x.
Proof.
  intros H. cbn [exec]. rewrite strip_prefix_self, consumed_app, H. reflexivity.
Qed.

Lemma alt_mate r X c k x :
  exec r X ((1%nat, "mate") :: c) k = Some x ->
  exec (Group 1 (Alt (Lit "cp") (Lit "mate")) >> r)%re ("mate" ++ X) c k = Some x.
Proof.
  intros H. cbn [exec].
  change (strip_prefix "cp" ("mate" ++ X)) with (@None string).
  rewrite strip_prefix_self, consumed_app, H. reflexivity.
Qed.

(** A signed number and what follows it. *)
Lemma signed_here v rest c0 :
  match rest with EmptyString => True | String c _ => is_digit c = false end ->
  exec (Group 2 (Opt (Lit "-") >> Plus is_digit))%re (string_of_Z v ++ rest) c0
       (fun _ c => Some c)
  = Some ((2%nat, string_of_Z v) :: c0).
Proof.
  intros R. cbn [exec]. destruct v as [|p|p].
  - change (string_of_Z 0) with "0". cbn [append strip_prefix].
    change (Ascii.eqb "-" "0") with false. cbn [orelse]. change (is_digit "0") with true.
    cbn iota.
    rewrite (star_greedy is_digit _ "" rest ((2%nat, "0") :: c0) eq_refl R); [reflexivity|].
    change (String "0" rest) with ("0" ++ rest)%string. now rewrite consumed_app.
  - rewrite string_of_Z_nonneg by lia.
    destruct (string_of_N_head (Z.to_N (Z.pos p))) as (c & ds & E & D).
    pose proof (string_of_N_digits (Z.to_N (Z.pos p))) as Dn. rewrite E in *.
    cbn in Dn. apply andb_prop in Dn as [_ Dn].
    cbn [append strip_prefix].
    assert (M : Ascii.eqb "-" c = false).
    { destruct (Ascii.eqb_spec "-" c) as [<-|]; [discriminate D|reflexivity]. }
    rewrite M. cbn [orelse]. rewrite D.
    rewrite (star_greedy is_digit _ ds rest ((2%nat, String c ds) :: c0) Dn R);
      [reflexivity|].
    change (String c (ds ++ rest)) with (String c ds ++ rest)%string.
    now rewrite consumed_app.
  - rewrite string_of_Z_neg.
    destruct (string_of_N_head (N.pos p)) as (c & ds & E & D).
    pose proof (string_of_N_digits (N.pos p)) as Dn. rewrite E in *.
    cbn in Dn. apply andb_prop in Dn as [_ Dn].
    cbn [append strip_prefix]. change (Ascii.eqb "-" "-") with true. cbn iota.
    rewrite D.
    rewrite (star_greedy is_digit _ ds rest ((2%nat, String "-" (String c ds)) :: c0) Dn R);
      [reflexivity|].
    change (String "-" (String c (ds ++ rest)))
      with (String "-" (String c ds) ++ rest)%string.
    now rewrite consumed_app.
Qed.

(** The score pattern where the score starts. *)
Lemma score_here ty v rest :
  ty = "cp" \/ ty = "mate" ->
  match rest with EmptyString => True | String c _ => is_digit c = false end ->
  match_anchored scoreRe ("score " ++ ty ++ " " ++ string_of_Z v ++ rest)
  = Some [(2%nat, string_of_Z v); (1%nat, ty)].
Proof.
  intros Ty R. unfold match_anchored, scoreRe. rewrite exec_lit.
  destruct Ty as [-> | ->]; [apply alt_cp|apply alt_mate];
    rewrite exec_lit; now apply signed_here.
Qed.

(** The variation pattern where the variation starts. *)
Lemma pv_here text :
  text <> EmptyString -> all_chars is_dot text = true ->
  match_anchored pvRe (" pv " ++ text) = Some [(1%nat, text)].
Proof.
  intros NE D. unfold match_anchored, pvRe. cbn [exec]. rewrite strip_prefix_self.
  destruct text as [|c t]; [contradiction|]. cbn in D. apply andb_prop in D as [Dc Dt].
  rewrite Dc. rewrite <- (append_nil_r t) at 1.
  rewrite (star_greedy is_dot _ t "" [(1%nat, String c t)] Dt I); [reflexivity|].
  unfold consumed. cbn [String.length]. rewrite Nat.sub_0_r.
  pose proof (substring_prefix (String c t) "") as E.
  rewrite append_nil_r in E. cbn [String.length] in E. now rewrite E.
Qed.

Lemma pv_skip_space_N n rest :
  match_first pvRe (String " " (string_of_N n ++ rest))
  = match_first pvRe (string_of_N n ++ rest).
Proof.
  apply mf_skip. destruct (string_of_N_head n) as (c & ds & E & D). rewrite E.
  unfold match_anchored, pvRe. cbn [exec strip_prefix append].
  change (Ascii.eqb " " " ") with true. cbn iota.
  assert (M : Ascii.eqb "p" c = false).
  { destruct (Ascii.eqb_spec "p" c) as [<-|]; [discriminate D|reflexivity]. }
  now rewrite M.
Qed.

Lemma pv_skip_space_Z z rest :
  match_first pvRe (String " " (string_of_Z z ++ rest))
  = match_first pvRe (string_of_Z z ++ rest).
Proof.
  destruct z as [|p|p].
  - reflexivity.
  - rewrite string_of_Z_nonneg by lia. apply pv_skip_space_N.
  - reflexivity.
Qed.

End ScanFacts.

Section RoundTrip.

Import Js Regex JsFacts RegexFacts DisplayFacts ScanFacts.

Ltac skip_number :=
  rewrite (mf_skip_run numeric)
    by first [ apply string_of_N_numeric | apply string_of_Z_numeric
             | (intros ? ? ?; apply lit_head_fails, numeric_not; [reflexivity|assumption]) ].

Ltac scan :=
  repeat first [ rewrite mf_skip by reflexivity
               | rewrite pv_skip_space_N
               | rewrite pv_skip_space_Z
               | skip_number ].

(** The fields of a line of the engine. *)
Lemma info_line_fields depth seldepth multipv scoreType scoreValue
      nodes nps tbhits time pv :
  scoreType = "cp" \/ scoreType = "mate" ->
  pv <> [] -> Forall pv_move pv ->
  parseFields (info_line depth seldepth multipv scoreType scoreValue nodes nps tbhits time pv)
  = Some {| f_depth := Z.of_N depth; f_multipv := Z.of_N multipv;
            f_scoreType := scoreType; f_scoreValue := scoreValue; f_pv := pv |}.
Proof.
  intros Ty NE F.
  assert (PVne : String.concat " " pv <> EmptyString).
  { destruct pv as [|t pv]; [contradiction|]. inversion F as [|? ? [Tn _] _]; subst.
    destruct t as [|c t]; [contradiction|]. destruct pv; discriminate. }
  assert (PVd : all_chars is_dot (String.concat " " pv) = true) by now apply concat_dots.
  assert (Sp : split " " (String.concat " " pv) = pv).
  { apply split_concat; [assumption|]. eapply Forall_impl; [|exact F].
    intros t [_ H]. eapply all_chars_weaken; [|exact H].
    cbn. intros c Hc. now apply andb_prop in Hc as [_ ->]. }
  set (line := info_line depth seldepth multipv scoreType scoreValue nodes nps tbhits time pv).
  assert (D : match_first depthRe line = Some [(1%nat, string_of_N depth)]).
  { subst line. unfold info_line, depthRe. cbn [append]. scan.
    apply mf_here. refine (number_here "depth " depth _ _). reflexivity. }
  assert (M : match_first multipvRe line = Some [(1%nat, string_of_N multipv)]).
  { subst line. unfold info_line, multipvRe. cbn [append]. scan.
    apply mf_here. refine (number_here "multipv " multipv _ _). reflexivity. }
  assert (S : match_first scoreRe line
              = Some [(2%nat, string_of_Z scoreValue); (1%nat, scoreType)]).
  { subst line. unfold info_line. unfold scoreRe at 1. cbn [append]. scan.
    apply mf_here. refine (score_here scoreType scoreValue _ Ty _). reflexivity. }
  assert (P : match_first pvRe line = Some [(1%nat, String.concat " " pv)]).
  { subst line. unfold info_line. unfold pvRe at 1.
    destruct Ty as [-> | ->]; cbn [append]; scan;
      apply mf_here; refine (pv_here _ PVne PVd). }
  unfold parseFields. rewrite D, M, S, P. cbn [group Nat.eqb].
  rewrite <- !string_of_Z_of_N, !parseInt_string_of_Z. now rewrite Sp.
Qed.

(** What the engine prints is what [parseAnalysisLine] reads: from a
    progress line of Stockfish the four patterns take the depth (not the
    selective depth), the rank, the kind and the value of the score, and
    the moves of the variation. *)
Theorem progress_line_round_trip depth seldepth multipv scoreType scoreValue
        nodes nps tbhits time pv :
  scoreType = "cp" \/ scoreType = "mate" ->
  pv <> [] -> Forall pv_move pv ->
  parseFields (info_line depth seldepth multipv scoreType scoreValue nodes nps tbhits time pv)
  = Some {| f_depth := Z.of_N depth; f_multipv := Z.of_N multipv;
            f_scoreType := scoreType; f_scoreValue := scoreValue; f_pv := pv |}.
Proof. apply info_line_fields. Qed.

End RoundTrip.

Section Stored.

Context {rules : RulesEngine} {services : Services}.

Lemma obj_get_set_other {A} k k' (v : A) o :
  k <> k' -> obj_get k (obj_set k' v o) = obj_get k o.
Proof.
  intros N. apply Z.eqb_neq in N.
  induction o as [|[k1 v1] o IH]; cbn.
  - now rewrite N.
  - destruct (k' <? k1)%Z; [cbn; now rewrite N|].
    destruct (k' =? k1)%Z eqn:E; cbn.
    + apply Z.eqb_eq in E. subst k1. now rewrite N.
    + now rewrite IH.
Qed.

(** From the engine's line to the stored entry: a progress line of the
    engine that is not shallower than currentDepth and whose first move is
    legal is found afterwards under its rank, with the SAN of the rules
    engine, the first move of the variation, the evaluation for the side to
    move, its depth and its variation; currentDepth is its depth. *)
Theorem engine_line_is_stored a depth seldepth multipv scoreType scoreValue
        nodes nps tbhits time first rest san g :
  scoreType = "cp" \/ scoreType = "mate" ->
  Forall pv_move (first :: rest) ->
  (currentDepth a <= Z.of_N depth)%Z ->
  chess_move (Chess_new (chess_fen (game a))) (uci_from first) (uci_to first)
             (uci_promotion first) = Some (san, g) ->
  let a' := parseAnalysisLine
              (info_line depth seldepth multipv scoreType scoreValue nodes nps tbhits time
                         (first :: rest)) a in
  obj_get (Z.of_N multipv) (analysisLines a')
  = Some {| l_move := san; l_uci := first;
            l_eval := evalScore_of scoreType scoreValue (chess_turn (game a));
            l_depth := Z.of_N depth; l_pv := first :: rest |}
  /\ currentDepth a' = Z.of_N depth
  /\ (forall k, k <> Z.of_N multipv ->
        obj_get k (analysisLines a') = obj_get k (analysisLines a)).
Proof.
  intros Ty F D M. cbv zeta.
  pose proof (info_line_fields depth seldepth multipv scoreType scoreValue
                nodes nps tbhits time (first :: rest) Ty ltac:(discriminate) F) as P.
  rewrite (parseAnalysisLine_accepted _ _ a san g P D M). cbv zeta.
  set (stored := set_analysisLines _ _).
  assert (S : obj_get (Z.of_N multipv) (analysisLines stored)
              = Some {| l_move := san; l_uci := first;
                        l_eval := evalScore_of scoreType scoreValue (chess_turn (game a));
                        l_depth := Z.of_N depth; l_pv := first :: rest |}
              /\ currentDepth stored = Z.of_N depth
              /\ (forall k, k <> Z.of_N multipv ->
                    obj_get k (analysisLines stored) = obj_get k (analysisLines a))).
  { subst stored. cbn [analysisLines set_analysisLines currentDepth set_currentDepth f_multipv
                       f_depth].
    split; [|split; [reflexivity|]].
    - apply obj_get_set_same.
    - intros k Hk. now apply obj_get_set_other. }
  destruct (_ && _); [|exact S].
  destruct (updateAnalysisDisplay_core stored) as (E1 & E2 & _).
  now rewrite E1, E2.
Qed.

End Stored.

Lemma explanation_run_ends_tidy_witness :
  let a := Scenario.finished in
  let a' := fetchExplanations (services := Scenario.cache_only) a in
  Js.truthy (apiKey a) = true /\ currentAnalysis a <> []
  /\ explainBtn_disabled (dom a') = false
  /\ option_map item_loading (explanation_el 1 a') = Some false
  /\ explanation_text 1 a' = Some "Error fetching explanation".
Proof.
  cbv zeta.
  assert (N : currentAnalysis Scenario.finished <> []) by (vm_compute; discriminate).
  destruct (explanation_run_ends_tidy (services := Scenario.cache_only)
              Scenario.finished eq_refl N) as (B & _ & E & _).
  split; [reflexivity|]. split; [exact N|]. split; [exact B|].
  split; [|vm_compute; reflexivity].
  destruct (explanation_el 1 Scenario.finished) as [el|] eqn:El;
    [|vm_compute in El; discriminate El].
  destruct (E 1%nat Scenario.d4_line el ltac:(vm_compute; reflexivity) El)
    as (el' & -> & L & _).
  cbn [option_map]. now rewrite L.
Defined.

Lemma progress_line_round_trip_witness :
  Forall pv_move Endings.e4_pv
  /\ Endings.e4_info
     = "info depth 12 seldepth 18 multipv 1 score cp 30 nodes 90000 nps 600000 tbhits 0 time 150 pv e2e4 e7e5 g1f3"
  /\ parseFields Endings.e4_info
     = Some {| f_depth := 12; f_multipv := 1; f_scoreType := "cp"; f_scoreValue := 30;
               f_pv := ["e2e4"; "e7e5"; "g1f3"] |}.
Proof.
  assert (F : Forall pv_move Endings.e4_pv).
  { repeat constructor; discriminate. }
  split; [exact F|]. split; [vm_compute; reflexivity|].
  exact (progress_line_round_trip 12 18 1 "cp" 30 90000 600000 0 150 Endings.e4_pv
           (or_introl eq_refl) ltac:(discriminate) F).
Defined.

Lemma engine_line_is_stored_witness :
  let a := Excerpt.page_at Excerpt.start in
  Forall pv_move Endings.e4_pv
  /\ (currentDepth a <= 12)%Z
  /\ obj_get 1 (analysisLines (parseAnalysisLine Endings.e4_info a)) = Some Scenario.e4_line
  /\ currentDepth (parseAnalysisLine Endings.e4_info a) = 12%Z.
Proof.
  cbv zeta.
  assert (F : Forall pv_move Endings.e4_pv).
  { repeat constructor; discriminate. }
  assert (D : (currentDepth (Excerpt.page_at Excerpt.start) <= Z.of_N 12)%Z)
    by (vm_compute; discriminate).
  split; [exact F|]. split; [exact D|].
  destruct (engine_line_is_stored (Excerpt.page_at Excerpt.start) 12 18 1 "cp" 30
              90000 600000 0 150 "e2e4" ["e7e5"; "g1f3"] "e4"
              {| Excerpt.position := Excerpt.after_e4; Excerpt.history := [Excerpt.start] |} (or_introl eq_refl) F D
              ltac:(vm_compute; reflexivity)) as (S & C & _).
  split; [exact S|exact C].
Defined.

(* ================================================================== *)
(** ** Whole runs: the display, the engine protocol, the requests *)
(* ================================================================== *)

Section Runs.

Context {rules : RulesEngine} {services : Services}.

(** What the page keeps of a state: used to carry the display, the Auto
    box and the effects through the handlers. *)
Lemma position_changed_shows e a :
  position_changed e a = true ->
  display_in_sync (handle e a)
  /\ autoExplainCheckbox (dom (handle e a)) = autoExplainCheckbox (dom a)
  /\ effects (rt (handle e a)) = effects (rt a).
Proof.
  assert (A : forall x, fenDisplay (dom (analyzePosition x)) = fenDisplay (dom x)
                        /\ turnText (dom (analyzePosition x)) = turnText (dom x)
                        /\ game (analyzePosition x) = game x
                        /\ autoExplainCheckbox (dom (analyzePosition x))
                           = autoExplainCheckbox (dom x)
                        /\ effects (rt (analyzePosition x)) = effects (rt x)).
  { intros x. unfold analyzePosition. cbn. destruct (analysisTimeout x); cbn; auto. }
  assert (S : forall x, display_in_sync x -> display_in_sync (analyzePosition x)).
  { intros x [F T]. destruct (A x) as (E1 & E2 & E3 & _).
    unfold display_in_sync. rewrite E1, E2, E3. now split. }
  assert (C : game (clearPreview a) = game a /\ dom (clearPreview a) = dom a
              /\ rt (clearPreview a) = rt a)
    by (unfold clearPreview; now destruct (previewPosition a)).
  assert (U : forall x, display_in_sync (updateDisplay x)
                        /\ autoExplainCheckbox (dom (updateDisplay x))
                           = autoExplainCheckbox (dom x)
                        /\ effects (rt (updateDisplay x)) = effects (rt x)).
  { intros x. unfold display_in_sync, updateDisplay, updateFenDisplay. cbn.
    destruct (chess_turn (game x)); auto. }
  assert (UF : forall x, display_in_sync (updateFenDisplay (updateDisplay x))).
  { intros x. destruct (U x) as ([F T] & _).
    unfold display_in_sync, updateFenDisplay in *. cbn in *. auto. }
  assert (Fin : forall x y,
             display_in_sync x ->
             autoExplainCheckbox (dom x) = autoExplainCheckbox (dom y) ->
             effects (rt x) = effects (rt y) ->
             display_in_sync (analyzePosition x)
             /\ autoExplainCheckbox (dom (analyzePosition x)) = autoExplainCheckbox (dom y)
             /\ effects (rt (analyzePosition x)) = effects (rt y)).
  { intros x y Sx Ax Ex. destruct (A x) as (_ & _ & _ & -> & ->). auto. }
  destruct e as [src tgt| | |v|uci| |uci| | |l|kv| |chk|msg]; cbn [position_changed handle];
    intros H; try discriminate.
  - unfold handleMove. destruct (chess_move _ _ _ _) as [[san g]|]; [|discriminate].
    apply Fin; [apply U|exact (proj1 (proj2 (U _)))|exact (proj2 (proj2 (U _)))].
  - unfold newGame. apply Fin; [apply U|exact (proj1 (proj2 (U _)))|exact (proj2 (proj2 (U _)))].
  - unfold undoMove. apply Fin; [apply U|exact (proj1 (proj2 (U _)))|exact (proj2 (proj2 (U _)))].
  - unfold setFenFromInput. apply andb_prop in H as [H1 H2]. rewrite H1. cbn [negb].
    destruct (chess_load _ _) as [g|]; [|discriminate].
    apply Fin; [apply UF|exact (proj1 (proj2 (U _)))|exact (proj2 (proj2 (U _)))].
  - unfold playAnalysisMove. destruct C as (Cg & Cd & Cr). rewrite Cg.
    destruct (chess_move _ _ _ _) as [[san g]|]; [|discriminate].
    rewrite <- Cd, <- Cr. apply Fin; [apply U|exact (proj1 (proj2 (U _)))|exact (proj2 (proj2 (U _)))].
Qed.

Lemma quiet_shows e a :
  position_changed e a = false ->
  game (handle e a) = game a
  /\ fenDisplay (dom (handle e a)) = fenDisplay (dom a)
  /\ turnText (dom (handle e a)) = turnText (dom a)
  /\ autoExplainCheckbox (dom (handle e a))
     = match e with
       | EvAutoExplain checked => checked
       | _ => autoExplainCheckbox (dom a)
       end.
Proof.
  destruct e as [src tgt| | |v|uci| |uci| | |l|kv| |chk|msg]; cbn [position_changed handle];
    intros H; try discriminate.
  - unfold handleMove. now destruct (chess_move _ _ _ _) as [[san g]|].
  - unfold setFenFromInput. destruct (Js.truthy (Js.trim v)); cbn [negb andb] in *; [|auto].
    now destruct (chess_load _ _).
  - unfold previewMove.
    destruct (previewPosition a); cbn; destruct (chess_move _ _ _ _) as [[? ?]|]; cbn; auto.
  - unfold clearPreview. now destruct (previewPosition a).
  - unfold playAnalysisMove.
    assert (G : game (clearPreview a) = game a)
      by (unfold clearPreview; now destruct (previewPosition a)).
    rewrite G. destruct (chess_move _ _ _ _) as [[san g]|]; [discriminate|].
    unfold clearPreview. now destruct (previewPosition a).
  - pose proof (fetchExplanations_kept a) as K. unfold kept in K.
    repeat split; congruence.
  - unfold initStockfish, postMessage. cbn. auto.
  - pose proof (message_beside l a) as B. unfold beside_analysis in B.
    repeat split; congruence.
  - pose proof (saveApiKey_kept kv a) as K. unfold kept in K.
    cbn [set_apiKey board game stockfish currentAnalysis apiKey analysisTimeout supabaseClient
         analysisLines currentDepth previewPosition dom rt] in K.
    repeat split; congruence.
  - repeat split.
  - repeat split.
  - repeat split.
Qed.

Lemma advance_shows dt a :
  game (advance dt a) = game a /\ dom (advance dt a) = dom a.
Proof.
  unfold advance.
  set (l := filter _ _). set (x := set_rt _ a).
  change (game a) with (game x). change (dom a) with (dom x).
  clearbody x. clear. revert x. induction l as [|t l IH]; intros x; cbn [fold_left]; [auto|].
  destruct (IH (analysisCallback x)) as [-> ->].
  unfold analysisCallback, fetchOpeningData, postMessage.
  destruct (stockfish x); auto.
Qed.

(** The FEN field and the turn indicator follow the game through every
    run of events: once they show the position of the game, they always
    do, and after any position change they do in any case. *)
Theorem display_follows_the_game es : forall a,
  display_in_sync a -> display_in_sync (run a es).
Proof.
  induction es as [|[dt e] es IH]; intros a S; cbn [run fold_left]; [exact S|].
  apply (IH (step a (dt, e))). unfold step. cbn [fst snd].
  assert (S1 : display_in_sync (advance dt a)).
  { destruct (advance_shows dt a) as [G D]. unfold display_in_sync. now rewrite G, D. }
  destruct (position_changed e (advance dt a)) eqn:P.
  - apply (position_changed_shows e _ P).
  - destruct (quiet_shows e _ P) as (G & F & T & _).
    unfold display_in_sync. rewrite G, F, T. exact S1.
Qed.

(** A position change by a drop, undo, new game or a FEN while the mouse
    is over a candidate leaves the remembered preview position: when the
    mouse leaves, the board is put back to the position before the change,
    while the game has moved on.  Only a click on a candidate clears the
    preview first. *)
Theorem pending_preview_survives_position_change e a p :
  previewPosition a = Some p -> position_changed e a = true ->
  (forall uci, e <> EvClick uci) ->
  let a' := handle e a in
  previewPosition a' = Some p
  /\ shown (board (clearPreview a')) = Js.first (Js.split " " p)
  /\ game (clearPreview a') = game a'.
Proof.
  intros Pp P NC. cbv zeta.
  assert (A : forall x, previewPosition (analyzePosition x) = previewPosition x).
  { intros x. unfold analyzePosition. cbn. destruct (analysisTimeout x); reflexivity. }
  assert (E : previewPosition (handle e a) = Some p).
  { destruct e as [src tgt| | |v|uci| |uci| | |l|kv| |chk|msg]; cbn [position_changed handle] in *;
      try discriminate.
    - unfold handleMove. destruct (chess_move _ _ _ _) as [[san g]|]; [|discriminate].
      now rewrite A.
    - unfold newGame. now rewrite A.
    - unfold undoMove. now rewrite A.
    - unfold setFenFromInput. apply andb_prop in P as [H1 H2]. rewrite H1. cbn [negb].
      destruct (chess_load _ _) as [g|]; [|discriminate]. now rewrite A.
    - now destruct (NC uci). }
  split; [exact E|]. unfold clearPreview. rewrite E. cbn. auto.
Qed.

Lemma callbacks_blocks {X} (l : list X) : forall a,
  exists blocks,
    Forall engine_block blocks
    /\ posted (fold_left (fun a _ => analysisCallback a) l a) = posted a ++ concat blocks.
Proof.
  induction l as [|x l IH]; intros a; cbn [fold_left].
  - exists []. split; [constructor|]. cbn. now rewrite app_nil_r.
  - destruct (IH (analysisCallback a)) as (bs & F & E).
    destruct (analysisCallback_schedule a) as [_ P]. rewrite E, P.
    destruct (stockfish a).
    + exists (analysis_request (chess_fen (game a)) :: bs).
      split; [constructor; [constructor|exact F]|]. cbn [concat]. now rewrite app_assoc.
    + exists bs. split; [exact F|]. now rewrite app_nil_r.
Qed.

Lemma step_blocks a e :
  exists blocks,
    Forall engine_block blocks /\ posted (step a e) = posted a ++ concat blocks.
Proof.
  destruct e as [dt e]. unfold step. cbn [fst snd].
  assert (Adv : exists blocks,
             Forall engine_block blocks
             /\ posted (advance dt a) = posted a ++ concat blocks).
  { unfold advance. match goal with |- context [fold_left _ ?l ?x] =>
      destruct (callbacks_blocks l x) as (bs & F & E) end.
    exists bs. split; [exact F|]. rewrite E. reflexivity. }
  destruct Adv as (bs & F & E).
  destruct (position_changed e (advance dt a)) eqn:P.
  - destruct (handle_changed e _ P) as (_ & Ef & _).
    exists bs. split; [exact F|]. unfold posted at 1. rewrite Ef. exact E.
  - destruct (handle_quiet e _ P) as (_ & _ & _ & _ & Q).
    destruct (worker_load e) eqn:W.
    + destruct e; try discriminate W. cbn [handle].
      destruct (initStockfish_posts (advance dt a)) as (_ & Po & _).
      exists (bs ++ [handshake]). split.
      * apply Forall_app. split; [exact F|]. repeat constructor.
      * rewrite Po, E, concat_app. cbn [concat]. now rewrite app_nil_r, app_assoc.
    + destruct (Q eq_refl) as [_ Po]. exists bs. split; [exact F|]. now rewrite Po.
Qed.

(** All that the engine is ever sent is made of the handshake (uci,
    setoption MultiPV, isready) and of analysis requests (stop, position
    fen, go depth), each sent as a whole: no go without the position
    before it, and nothing else. *)
Theorem engine_receives_whole_requests es : forall a,
  exists blocks,
    Forall engine_block blocks /\ posted (run a es) = posted a ++ concat blocks.
Proof.
  induction es as [|e es IH]; intros a; cbn [run fold_left].
  - exists []. split; [constructor|]. cbn. now rewrite app_nil_r.
  - destruct (step_blocks a e) as (b1 & F1 & E1).
    destruct (IH (step a e)) as (b2 & F2 & E2).
    exists (b1 ++ b2). split; [now apply Forall_app|].
    unfold run in E2. rewrite E2, E1, concat_app. now rewrite app_assoc.
Qed.

Lemma advance_requested dt a : requested (advance dt a) = requested a.
Proof.
  unfold advance. set (l := filter _ _). set (x := set_rt _ a).
  change (requested a) with (requested x). clearbody x. clear.
  revert x. induction l as [|t l IH]; intros x; cbn [fold_left]; [reflexivity|].
  rewrite IH. unfold analysisCallback, fetchOpeningData, postMessage.
  destruct (stockfish x); now rewrite !requested_emit, ?app_nil_r.
Qed.

(** Explanations are requested on demand only: with the Auto box not
    ticked, a run of events in which the user neither presses Explain
    Moves, nor saves a key, nor ticks the Auto box sends no request to the
    explanation service, whatever the engine reports and whatever else
    happens on the page. *)
Theorem explanations_only_on_demand es : forall a,
  autoExplainCheckbox (dom a) = false ->
  Forall (fun e : N * Event => explain_event (snd e) = false) es ->
  requested (run a es) = requested a
  /\ autoExplainCheckbox (dom (run a es)) = false.
Proof.
  induction es as [|[dt e] es IH]; intros a Off NoEx; cbn [run fold_left]; [auto|].
  inversion NoEx as [|? ? Ne Nes]; subst. cbn [snd] in Ne.
  assert (S : requested (step a (dt, e)) = requested a
              /\ autoExplainCheckbox (dom (step a (dt, e))) = false).
  { unfold step. cbn [fst snd].
    assert (Off1 : autoExplainCheckbox (dom (advance dt a)) = false)
      by (now rewrite (proj2 (advance_shows dt a))).
    rewrite <- (advance_requested dt a).
    destruct (position_changed e (advance dt a)) eqn:P.
    - destruct (position_changed_shows e _ P) as (_ & -> & Ef).
      split; [|exact Off1]. unfold requested. now rewrite Ef.
    - destruct (quiet_shows e _ P) as (_ & _ & _ & ->).
      split; [|destruct e as [| | | | | | | | | | | |[|]|]; (exact Off1 || discriminate Ne
                                                             || reflexivity)].
      destruct e as [src tgt| | |v|uci| |uci| | |l|kv| |chk|msg]; cbn [position_changed handle] in *;
        try discriminate.
      + unfold handleMove. now destruct (chess_move _ _ _ _) as [[san g]|].
      + unfold setFenFromInput.
        destruct (Js.truthy (Js.trim v)); cbn [negb andb] in *; [|reflexivity].
        destruct (chess_load _ _); [discriminate|].
        now rewrite requested_emit, app_nil_r.
      + unfold requested. now rewrite (proj2 (previewMove_schedule uci _)).
      + unfold requested. now rewrite (proj2 (clearPreview_schedule _)).
      + unfold playAnalysisMove.
        assert (G : game (clearPreview (advance dt a)) = game (advance dt a))
          by (unfold clearPreview; now destruct (previewPosition (advance dt a))).
        rewrite G. destruct (chess_move _ _ _ _) as [[san g]|]; [discriminate|].
        unfold requested. now rewrite (proj2 (clearPreview_schedule _)).
      + unfold initStockfish, postMessage. now rewrite !requested_emit, !app_nil_r.
      + unfold requested. rewrite message_requested; [reflexivity|]. now rewrite Off1.
      + reflexivity.
      + reflexivity.
      + reflexivity. }
  destruct S as [R O]. destruct (IH _ O Nes) as [R2 O2]. unfold run in *.
  now rewrite R2, O2, R.
Qed.

End Runs.

Lemma display_follows_the_game_witness :
  let a := Excerpt.page_at Excerpt.start in
  display_in_sync a
  /\ display_in_sync (run (services := Excerpt.offline) a Session.visit)
  /\ fenDisplay (dom (run (services := Excerpt.offline) a Session.visit))
     = Excerpt.after_e4_e5.
Proof.
  cbv zeta.
  assert (S : display_in_sync (Excerpt.page_at Excerpt.start)) by (split; reflexivity).
  split; [exact S|].
  pose proof (display_follows_the_game (services := Excerpt.offline) Session.visit
                (Excerpt.page_at Excerpt.start) S) as H.
  split; [exact H|]. destruct H as [F _]. rewrite F. vm_compute. reflexivity.
Defined.

Lemma pending_preview_survives_position_change_witness :
  let a := Scenario.previewing_e4 in
  let a' := handle (services := Excerpt.offline) (EvDrop "d2" "d4") a in
  previewPosition a = Some Excerpt.start
  /\ position_changed (EvDrop "d2" "d4") a = true
  /\ chess_fen (game (clearPreview a')) = Excerpt.after_d4
  /\ shown (board (clearPreview a')) = Session.start_layout.
Proof.
  cbv zeta.
  destruct (pending_preview_survives_position_change (services := Excerpt.offline)
              (EvDrop "d2" "d4") Scenario.previewing_e4 Excerpt.start eq_refl eq_refl
              ltac:(discriminate)) as (_ & B & G).
  split; [reflexivity|]. split; [reflexivity|].
  split; [rewrite G; vm_compute; reflexivity|]. rewrite B. reflexivity.
Defined.

Lemma explanations_only_on_demand_witness :
  let a := Scenario.finished in
  autoExplainCheckbox (dom a) = false
  /\ Forall (fun e : N * Event => explain_event (snd e) = false) Endings.watching
  /\ requested (run (services := Scenario.answers_both) a Endings.watching) = []
  /\ map l_move (currentAnalysis (run (services := Scenario.answers_both) a
                                    Endings.watching)) = ["e5"].
Proof.
  cbv zeta.
  assert (F : Forall (fun e : N * Event => explain_event (snd e) = false) Endings.watching)
    by (repeat constructor).
  split; [reflexivity|]. split; [exact F|].
  destruct (explanations_only_on_demand (services := Scenario.answers_both)
              Endings.watching Scenario.finished eq_refl F) as [R _].
  split; [rewrite R; reflexivity|]. vm_compute. reflexivity.
Defined.

(* ================================================================== *)
(** ** Old candidates explained on a new list *)
(* ================================================================== *)

Section Meanwhile.

Context {rules : RulesEngine} {services : Services}.

(** Time passing asks for no explanation and leaves the cache client
    alone. *)
Lemma advance_elsewhere dt : elsewhere (advance dt).
Proof.
  intros x. split; [apply advance_requested|].
  unfold advance. set (l := filter _ _). set (y := set_rt _ x).
  change (supabaseClient x) with (supabaseClient y). clearbody y. clear.
  revert y. induction l as [|t l IH]; intros y; cbn [fold_left]; [reflexivity|].
  rewrite IH. unfold analysisCallback, fetchOpeningData, postMessage.
  destruct (stockfish y); reflexivity.
Qed.

Lemma elsewhere_then (f g : App -> App) :
  elsewhere f -> elsewhere g -> elsewhere (fun a => g (f a)).
Proof.
  intros F G x. destruct (F x) as [F1 F2]. destruct (G (f x)) as [G1 G2].
  split; congruence.
Qed.

End Meanwhile.

Lemma new_search_elsewhere sv : Forall elsewhere (Endings.new_search sv).
Proof.
  unfold Endings.new_search.
  apply Forall_cons; [apply nothing_elsewhere|].
  apply Forall_cons; [apply nothing_elsewhere|].
  apply Forall_cons; [|apply Forall_nil].
  apply (elsewhere_then (advance (services := sv) 150)
           (parseAnalysisLine Scenario.black_line)).
  - apply advance_elsewhere.
  - apply parseAnalysisLine_elsewhere.
Qed.

Lemma position_change_keeps_old_candidates_witness :
  let sv := Scenario.answers_both in
  let a := Scenario.finished in
  let a' := handle (services := sv) (EvDrop "e2" "e4") a in
  let s := proceed (services := sv) (Endings.new_search sv)
             (startExplanations (services := sv) a') in
  position_changed (EvDrop "e2" "e4") a = true
  /\ chess_fen (game a') = Excerpt.after_e4
  /\ map l_move (currentAnalysis a') = ["e4"; "d4"]
  /\ (forall i, explanation_el i a' = None)
  /\ snd s = None
  /\ List.length (requested (fst s)) = 1%nat
  /\ option_map item_notation (explanation_el 0 (fst s)) = Some "e5"
  /\ (forall el, explanation_el 0 (fst s) = Some el ->
        item_explanation el = "Frees the bishop.").
Proof.
  cbv zeta.
  destruct (position_change_keeps_old_candidates (services := Scenario.answers_both)
              (EvDrop "e2" "e4") Scenario.finished eq_refl)
    as (_ & _ & _ & C & _ & E & R).
  destruct (R eq_refl ltac:(vm_compute; discriminate)
              (Endings.new_search Scenario.answers_both)
              (new_search_elsewhere Scenario.answers_both)
              ltac:(vm_compute; lia))
    as (S & Rq & T).
  split; [reflexivity|]. split; [vm_compute; reflexivity|].
  split; [rewrite C; vm_compute; reflexivity|]. split; [exact E|].
  split; [exact S|]. split; [rewrite Rq; vm_compute; reflexivity|].
  split; [vm_compute; reflexivity|].
  intros el Hel.
  rewrite (T ltac:(vm_compute; discriminate) _ eq_refl 0%nat Scenario.e4_line el
             ltac:(vm_compute; reflexivity) Hel).
  vm_compute. reflexivity.
Defined.

Lemma empty_search_explains_old_candidates_witness :
  let sv := Scenario.answers_both in
  let a := Endings.moved in
  let called := handleStockfishMessage_start (services := sv) "bestmove e2e4" a in
  let s := proceed (services := sv) (Endings.new_search sv) called in
  analysisLines a = [] /\ autoExplainCheckbox (dom a) = true
  /\ chess_fen (game a) = Excerpt.after_e4
  /\ map l_move (currentAnalysis (fst called)) = ["e4"; "d4"]
  /\ (forall i, explanation_el i (fst called) = None)
  /\ snd s = None
  /\ List.length (requested (fst s)) = 1%nat
  /\ option_map item_notation (explanation_el 0 (fst s)) = Some "e5"
  /\ (forall el, explanation_el 0 (fst s) = Some el ->
        item_explanation el = "Frees the bishop.").
Proof.
  cbv zeta.
  destruct (empty_search_explains_old_candidates (services := Scenario.answers_both)
              "bestmove e2e4" Endings.moved eq_refl eq_refl eq_refl)
    as (_ & C & E & R).
  destruct (R eq_refl eq_refl ltac:(vm_compute; discriminate)
              (Endings.new_search Scenario.answers_both)
              (new_search_elsewhere Scenario.answers_both)
              ltac:(vm_compute; lia))
    as (S & Rq & T).
  split; [reflexivity|]. split; [reflexivity|]. split; [vm_compute; reflexivity|].
  split; [rewrite C; vm_compute; reflexivity|]. split; [exact E|].
  split; [exact S|]. split; [rewrite Rq; vm_compute; reflexivity|].
  split; [vm_compute; reflexivity|].
  intros el Hel.
  rewrite (T ltac:(vm_compute; discriminate) _ eq_refl 0%nat Scenario.e4_line el
             ltac:(vm_compute; reflexivity) Hel).
  vm_compute. reflexivity.
Defined.
